(** * smart-chat-bot: a shallow embedding of the agent core

    The development follows the TypeScript sources of the repository:
    - [EmbeddingsService]   (services/embeddings-service.ts)
    - [RagService]          (services/rag-service.ts)
    - [TenantService]       (services/tenant-service.ts)
    - [ShopifyFactory]      (services/shopify-factory.ts)
    - [ToolExecutor]        (services/agent-tools.ts)
    - [ChatAgent]           (services/chat-agent.ts)
    - [buildSystemPrompt]   (config/system-prompts.ts)
    - [callVoyageApi]       (scripts/generate-embeddings.ts)
    - [validateMessagesLimits] (routes/chat-routes.ts)

    Asynchronous code is written in explicit state-passing style.  Every
    external collaborator (HTTP endpoint, vector store, commerce platform,
    language model, wall clock) is a scripted oracle: a function of the
    history of calls made so far and of the current request.  The history
    is kept in the state, so that the number and the arguments of the
    calls a function makes can be stated and proved. *)

From Stdlib Require Import QArith Ascii String.
From stdpp Require Import gmap strings list pretty sorting.
From Equations Require Import Equations.

Open Scope Z_scope.

(* ===================================================================== *)
(** * Part I. The embedding                                               *)
(* ===================================================================== *)

(** ** JavaScript values, exceptions and the state/exception monad *)

Module Js.

(** A JavaScript number, as far as the code inspects it: it is compared,
    tested for truthiness and passed along.  Finite values are rationals,
    [NaN] is kept apart because it is falsy and compares false. *)
Inductive num : Type :=
| NaN
| Num (q : Q).

(** [a >= b] on numbers: false as soon as one side is [NaN]. *)
Definition geb (a b : num) : bool :=
  match a, b with
  | Num x, Num y => Qle_bool y x
  | _, _ => false
  end.

#[local] Unset Elimination Schemes.

(** An untyped value crossing the model boundary (a parsed JSON value,
    or [undefined] for a missing property). *)
Inductive value : Type :=
| Undefined
| Null
| Bool (b : bool)
| Number (n : num)
| Str (s : string)
| Arr (items : list value)
| Obj (fields : list (string * value)).

#[local] Set Elimination Schemes.

(** ToBoolean. *)
Definition truthy (v : value) : bool :=
  match v with
  | Undefined | Null => false
  | Bool b => b
  | Number NaN => false
  | Number (Num q) => negb (Qeq_bool q 0)
  | Str s => negb (String.eqb s "")
  | Arr _ | Obj _ => true
  end.

(** [a || b]. *)
Definition or (a b : value) : value := if truthy a then a else b.

(** [obj.key] on a parsed JSON object: [undefined] when absent. *)
Definition prop (obj : gmap string value) (key : string) : value :=
  default Undefined (obj !! key).

(** A thrown value: an [Error] instance with its message, or any other
    value, kept through its [String(...)] rendering. *)
Inductive exn : Type :=
| Error (message : string)
| Thrown (rendering : string).

(** [error instanceof Error ? error.message : dflt]. *)
Definition message_or (dflt : string) (e : exn) : string :=
  match e with
  | Error m => m
  | Thrown _ => dflt
  end.

(** [error instanceof Error ? error : new Error(String(error))]. *)
Definition as_error (e : exn) : exn :=
  match e with
  | Error m => Error m
  | Thrown s => Error s
  end.

Definition message (e : exn) : string :=
  match e with
  | Error m => m
  | Thrown s => s
  end.

Inductive result (A : Type) : Type :=
| Ok (a : A)
| Throw (e : exn).
Arguments Ok {A} a.
Arguments Throw {A} e.

(** Effectful code: a state transformer that returns or throws.  State
    changes made before a throw persist, as in JavaScript. *)
Definition M (S A : Type) : Type := S -> S * result A.

Definition ret {S A} (a : A) : M S A := fun s => (s, Ok a).
Definition throw {S A} (e : exn) : M S A := fun s => (s, Throw e).
Definition bind {S A B} (c : M S A) (k : A -> M S B) : M S B :=
  fun s =>
    match c s with
    | (s', Ok a) => k a s'
    | (s', Throw e) => (s', Throw e)
    end.
(** [try { c } catch (e) { h e }]. *)
Definition try_catch {S A} (c : M S A) (h : exn -> M S A) : M S A :=
  fun s =>
    match c s with
    | (s', Ok a) => (s', Ok a)
    | (s', Throw e) => h e s'
    end.
(** Lifting of a pure computation that may throw. *)
Definition lift {S A} (r : result A) : M S A := fun s => (s, r).

(** A string is the UTF-8 encoding of its text.  The white space and
    line terminators that [String.prototype.trim] strips, by the length
    of their encoding: U+0009 to U+000D and U+0020 in one byte; *)
Definition is_ws (c : ascii) : bool :=
  let n := nat_of_ascii c in
  ((9 <=? n)%nat && (n <=? 13)%nat) || (n =? 32)%nat.

(** U+00A0 in two bytes; *)
Definition is_ws2 (c1 c2 : ascii) : bool :=
  (nat_of_ascii c1 =? 194)%nat && (nat_of_ascii c2 =? 160)%nat.

(** U+1680, U+2000 to U+200A, U+2028, U+2029, U+202F, U+205F, U+3000
    and U+FEFF in three bytes. *)
Definition is_ws3 (c1 c2 c3 : ascii) : bool :=
  let n1 := nat_of_ascii c1 in
  let n2 := nat_of_ascii c2 in
  let n3 := nat_of_ascii c3 in
  ((n1 =? 225) && (n2 =? 154) && (n3 =? 128))%nat
  || ((n1 =? 226) && (n2 =? 128)
      && (((128 <=? n3) && (n3 <=? 138)) || (n3 =? 168) || (n3 =? 169) || (n3 =? 175)))%nat
  || ((n1 =? 226) && (n2 =? 129) && (n3 =? 159))%nat
  || ((n1 =? 227) && (n2 =? 128) && (n3 =? 128))%nat
  || ((n1 =? 239) && (n2 =? 187) && (n3 =? 191))%nat.

Fixpoint trimStart (s : string) : string :=
  match s with
  | EmptyString => EmptyString
  | String c1 r1 =>
      if is_ws c1 then trimStart r1
      else
        match r1 with
        | EmptyString => s
        | String c2 r2 =>
            if is_ws2 c1 c2 then trimStart r2
            else
              match r2 with
              | EmptyString => s
              | String c3 r3 => if is_ws3 c1 c2 c3 then trimStart r3 else s
              end
        end
  end.

(** The string is cut where what is left is white space only. *)
Fixpoint trimEnd (s : string) : string :=
  match s with
  | EmptyString => EmptyString
  | String c rest =>
      if String.eqb (trimStart s) "" then EmptyString else String c (trimEnd rest)
  end.

Definition trim (s : string) : string := trimEnd (trimStart s).


(** [hay.includes(needle)]. *)
Fixpoint includes (needle hay : string) : bool :=
  String.prefix needle hay ||
  match hay with
  | EmptyString => false
  | String _ rest => includes needle rest
  end.

(** [s.slice(i, i + n)] for [0 <= i]. *)
Definition slice (i n : nat) (s : string) : string := String.substring i n s.

End Js.

Notation "'let*' x ':=' c 'in' k" := (Js.bind c (fun x => k))
  (at level 10, x name, c at level 100, k at level 200).
Notation "'let*' ' p ':=' c 'in' k" := (Js.bind c (fun x => match x with p => k end))
  (at level 10, p pattern, c at level 100, k at level 200).

(** ** EmbeddingsService (services/embeddings-service.ts) *)

Module Embeddings.
Import Js.

Definition MAX_BATCH_SIZE : nat := 128.
Definition MAX_RETRIES : nat := 3.
Definition INITIAL_RETRY_DELAY_MS : Z := 1000.

(** [number[]]: the payload is only carried around. *)
Definition Vector : Type := list Q.

Inductive VoyageInputType : Type := document | query.

(** [input: string | string[]]. *)
Inductive Input : Type :=
| One (text : string)
| Many (texts : list string).

(** The JSON body posted to the provider (the model name is fixed per
    service instance and left out). *)
Record Request : Type := { input : Input; input_type : VoyageInputType }.

(** One entry of [VoyageEmbeddingResponse.data]. *)
Record Item : Type := { embedding : Vector; index : nat }.

(** What [response.json()] gives: a rejection (body is not JSON, or the
    parsed value has no properties to read), an error document, or an
    embedding list. *)
Inductive Body : Type :=
| Unparsable (e : exn)
| ErrorBody (detail : option string)
| ListBody (items : list Item).

Record Response : Type :=
  { status : Z; retryAfter : option string; body : Body }.

(** [response.ok]. *)
Definition ok (r : Response) : bool := (200 <=? status r) && (status r <=? 299).

(** [fetch] either rejects (network failure) or resolves to a response. *)
Inductive FetchOutcome : Type :=
| NetworkError (e : exn)
| Responded (r : Response).

(** What the service does to the outside world. *)
Inductive Event : Type :=
| Fetched (req : Request)
| Slept (ms : num).

(** The scripted provider: its answer may depend on everything that
    happened before. *)
Record World : Type := { fetch : list Event -> Request -> FetchOutcome }.

(** The value [fetchWithRetry] resolves to; [data] is absent when a 2xx
    body was not an embedding list. *)
Record VoyageEmbeddingResponse : Type := { data : option (list Item) }.

Definition digit_of (c : ascii) : option Z :=
  let n := nat_of_ascii c in
  if ((48 <=? n)%nat && (n <=? 57)%nat)%bool then Some (Z.of_nat n - 48) else None.

Fixpoint parse_digits (s : string) (acc : Z) : Z :=
  match s with
  | EmptyString => acc
  | String c rest =>
      match digit_of c with
      | Some d => parse_digits rest (10 * acc + d)
      | None => acc
      end
  end.

(** [parseInt(s, 10)]: leading white space, an optional sign, then the
    longest run of digits; [NaN] when there is no digit. *)
Definition parseInt (s : string) : num :=
  let s := trimStart s in
  let '(negative, s) :=
    match s with
    | String "-" rest => (true, rest)
    | String "+" rest => (false, rest)
    | _ => (false, s)
    end in
  match s with
  | EmptyString => NaN
  | String c _ =>
      match digit_of c with
      | None => NaN
      | Some _ =>
          let n := parse_digits s 0 in
          Num (inject_Z (if negative then - n else n))
      end
  end.

(** [n * 1000]. *)
Definition times1000 (n : num) : num :=
  match n with
  | NaN => NaN
  | Num q => Num (q * 1000)
  end.

(** [INITIAL_RETRY_DELAY_MS * Math.pow(2, attempt)]. *)
Definition backoff (attempt : nat) : num :=
  Num (inject_Z (INITIAL_RETRY_DELAY_MS * 2 ^ Z.of_nat attempt)).

(** [retryAfter ? parseInt(retryAfter, 10) * 1000 : backoff]. *)
Definition delayMs (retryAfter : option string) (attempt : nat) : num :=
  match retryAfter with
  | Some h => if String.eqb h "" then backoff attempt else times1000 (parseInt h)
  | None => backoff attempt
  end.

Definition api_error (st : Z) (detail : option string) : exn :=
  Error ("Voyage AI Embeddings API error " +:+ pretty st +:+ ": "
         +:+ default "Unknown error" detail).

(** How one pass through the [try] block ends when it does not throw. *)
Inductive Step : Type :=
| Continue
| Return (r : result VoyageEmbeddingResponse).

(** The [try] block of one loop iteration.  [return response.json()] is
    not awaited there, so its rejection leaves the function directly. *)
Definition attempt_once (w : World) (req : Request) (attempt : nat)
  : M (list Event) Step :=
  fun log =>
    let log1 := log ++ [Fetched req] in
    match fetch w log req with
    | NetworkError e => (log1, Throw e)
    | Responded r =>
        if (status r =? 429) && (attempt <? MAX_RETRIES - 1)%nat then
          (log1 ++ [Slept (delayMs (retryAfter r) attempt)], Ok Continue)
        else if negb (ok r) then
          match body r with
          | Unparsable e => (log1, Throw e)
          | ErrorBody detail => (log1, Throw (api_error (status r) detail))
          | ListBody _ => (log1, Throw (api_error (status r) None))
          end
        else
          (log1, Ok (Return
             match body r with
             | Unparsable e => Throw e
             | ErrorBody _ => Ok {| data := None |}
             | ListBody items => Ok {| data := Some items |}
             end))
    end.

(** [lastError.message.includes('429') || lastError.message.includes('fetch')]. *)
Definition isRetryable (lastError : exn) : bool :=
  includes "429" (message lastError) || includes "fetch" (message lastError).

(** The [for] loop of [fetchWithRetry]; [remaining] is
    [MAX_RETRIES - attempt]. *)
Fixpoint retry_loop (w : World) (req : Request) (remaining attempt : nat)
    (lastError : option exn) : M (list Event) VoyageEmbeddingResponse :=
  match remaining with
  | O => throw (default (Error "Max retries exceeded") lastError)
  | S remaining' =>
      fun log =>
        match attempt_once w req attempt log with
        | (log1, Ok Continue) =>
            retry_loop w req remaining' (S attempt) lastError log1
        | (log1, Ok (Return r)) => (log1, r)
        | (log1, Throw e) =>
            let lastError := as_error e in
            if negb (isRetryable lastError) || (MAX_RETRIES - 1 <=? attempt)%nat
            then (log1, Throw lastError)
            else retry_loop w req remaining' (S attempt) (Some lastError)
                   (log1 ++ [Slept (backoff attempt)])
        end
  end.

Definition fetchWithRetry (w : World) (req : Request)
  : M (list Event) VoyageEmbeddingResponse :=
  retry_loop w req MAX_RETRIES 0 None.

(** [!text || text.trim().length === 0]. *)
Definition blank (text : string) : bool :=
  String.eqb text "" || (String.length (trim text) =? 0)%nat.

(** [response.data[0].embedding]. *)
Definition first_embedding (response : VoyageEmbeddingResponse) : result Vector :=
  match data response with
  | Some (item :: _) => Ok (embedding item)
  | Some [] => Throw (Error "Cannot read properties of undefined (reading 'embedding')")
  | None => Throw (Error "Cannot read properties of undefined (reading '0')")
  end.

Definition embed (w : World) (text : string) : M (list Event) Vector :=
  if blank text then throw (Error "Text cannot be empty")
  else
    let* response := fetchWithRetry w {| input := One text; input_type := document |} in
    lift (first_embedding response).

Definition embedQuery (w : World) (text : string) : M (list Event) Vector :=
  if blank text then throw (Error "Query text cannot be empty")
  else
    let* response := fetchWithRetry w {| input := One text; input_type := query |} in
    lift (first_embedding response).

(** An entry of [validTexts]: [{ text: t?.trim() ?? '', index: i }]. *)
Record Tagged : Type := { t_text : string; t_index : nat }.

Definition validTexts (texts : list string) : list Tagged :=
  imap (fun i t => {| t_text := trim t; t_index := i |}) texts.

Definition nonEmpty (texts : list string) : list Tagged :=
  List.filter (fun t => (0 <? String.length (t_text t))%nat) (validTexts texts).

(** [response.data.forEach((item, responseIndex) => results.push({
      embedding: item.embedding, index: chunk[responseIndex].index }))]:
    reading [.index] of a missing chunk entry throws. *)
Fixpoint collect (chunk : list Tagged) (items : list Item) (responseIndex : nat)
    (results : list Item) : result (list Item) :=
  match items with
  | [] => Ok results
  | item :: rest =>
      match chunk !! responseIndex with
      | Some t =>
          collect chunk rest (S responseIndex)
            (results ++ [{| embedding := embedding item; index := t_index t |}])
      | None => Throw (Error "Cannot read properties of undefined (reading 'index')")
      end
  end.

Definition collect_response (chunk : list Tagged)
    (response : VoyageEmbeddingResponse) (results : list Item) : result (list Item) :=
  match data response with
  | Some items => collect chunk items 0 results
  | None => Throw (Error "Cannot read properties of undefined (reading 'forEach')")
  end.

(** [for (let i = 0; i < nonEmpty.length; i += MAX_BATCH_SIZE)]. *)
Equations? chunk_loop (w : World) (nonEmpty : list Tagged) (i : nat)
    (results : list Item) (log : list Event)
  : list Event * result (list Item) by wf (length nonEmpty - i)%nat lt :=
chunk_loop w nonEmpty i results log with decide (i < length nonEmpty)%nat := {
  | right _ => (log, Ok results)
  | left _ =>
      let chunk := take MAX_BATCH_SIZE (drop i nonEmpty) in
      let chunkTexts := map t_text chunk in
      match fetchWithRetry w {| input := Many chunkTexts; input_type := document |} log with
      | (log1, Throw e) => (log1, Throw e)
      | (log1, Ok response) =>
          match collect_response chunk response results with
          | Throw e => (log1, Throw e)
          | Ok results' => chunk_loop w nonEmpty (i + MAX_BATCH_SIZE) results' log1
          end
      end }.
Proof. unfold MAX_BATCH_SIZE. lia. Qed.

(** [results.sort((a, b) => a.index - b.index)]: a stable sort. *)
Fixpoint insert_by_index (x : Item) (l : list Item) : list Item :=
  match l with
  | [] => [x]
  | y :: l' =>
      if (index x <=? index y)%nat then x :: y :: l' else y :: insert_by_index x l'
  end.

Definition sort_by_index (l : list Item) : list Item :=
  foldr insert_by_index [] l.

Definition embedBatch (w : World) (texts : list string) : M (list Event) (list Vector) :=
  if (length texts =? 0)%nat then ret []
  else
    let nonEmpty := nonEmpty texts in
    if (length nonEmpty =? 0)%nat then throw (Error "All texts are empty")
    else
      let* results := chunk_loop w nonEmpty 0 [] in
      ret (map embedding (sort_by_index results)).

End Embeddings.

(** ** RagService (services/rag-service.ts) *)

Module Rag.
Import Js.

Definition DEFAULT_PRODUCT_LIMIT : num := Num 5.
Definition DEFAULT_FAQ_LIMIT : num := Num 3.
(** 0.25 *)
Definition DEFAULT_SIMILARITY_THRESHOLD : num := Num (1 # 4).

(** A row of the [search_products] procedure. *)
Record ProductSearchResult : Type :=
  { row_id : string; row_title : string; row_description : option string;
    row_price : option num; row_currency : string; row_image_url : option string;
    row_category : option string; row_similarity : num }.

(** A row of the [search_faqs] procedure. *)
Record FaqSearchResult : Type :=
  { row_question : string; row_answer : string; row_faq_category : option string;
    row_faq_similarity : num }.

Record ProductResult : Type :=
  { id : string; title : string; description : option string;
    price : option num; currency : string; imageUrl : option string;
    category : option string; similarity : num }.

Record FaqResult : Type :=
  { question : string; answer : string; faq_category : option string;
    faq_similarity : num }.

Record RagResult : Type := { products : list ProductResult; faqs : list FaqResult }.

Record RagConfig : Type :=
  { productLimit : option num; faqLimit : option num;
    similarityThreshold : option num }.

(** [Required<RagConfig>] as the constructor fills it in with [??]. *)
Record Config : Type :=
  { cfg_productLimit : num; cfg_faqLimit : num; cfg_similarityThreshold : num }.

Definition make_config (config : option RagConfig) : Config :=
  {| cfg_productLimit := default DEFAULT_PRODUCT_LIMIT (config ≫= productLimit);
     cfg_faqLimit := default DEFAULT_FAQ_LIMIT (config ≫= faqLimit);
     cfg_similarityThreshold :=
       default DEFAULT_SIMILARITY_THRESHOLD (config ≫= similarityThreshold) |}.

(** [{ data, error }] of a remote procedure call. *)
Record RpcResult (A : Type) : Type :=
  { rpc_data : option (list A); rpc_error : option string }.
Arguments rpc_data {A} _.
Arguments rpc_error {A} _.

Inductive Call : Type :=
| EmbedQuery (query : string)
| RpcSearchProducts (query_embedding : Embeddings.Vector) (p_tenant_id : string) (p_limit : num)
| RpcSearchFaqs (query_embedding : Embeddings.Vector) (p_tenant_id : string) (p_limit : num).

Record World : Type :=
  { embedQuery : list Call -> string -> result Embeddings.Vector;
    rpc_search_products :
      list Call -> Embeddings.Vector -> string -> num -> RpcResult ProductSearchResult;
    rpc_search_faqs :
      list Call -> Embeddings.Vector -> string -> num -> RpcResult FaqSearchResult }.

Definition do_embedQuery (w : World) (query : string) : M (list Call) Embeddings.Vector :=
  fun log => (log ++ [EmbedQuery query], embedQuery w log query).

Definition do_rpc_products (w : World) (v : Embeddings.Vector) (tenantId : string)
    (limit : num) : M (list Call) (RpcResult ProductSearchResult) :=
  fun log => (log ++ [RpcSearchProducts v tenantId limit],
              Ok (rpc_search_products w log v tenantId limit)).

Definition do_rpc_faqs (w : World) (v : Embeddings.Vector) (tenantId : string)
    (limit : num) : M (list Call) (RpcResult FaqSearchResult) :=
  fun log => (log ++ [RpcSearchFaqs v tenantId limit],
              Ok (rpc_search_faqs w log v tenantId limit)).

Definition map_product (p : ProductSearchResult) : ProductResult :=
  {| id := row_id p; title := row_title p; description := row_description p;
     price := row_price p; currency := row_currency p; imageUrl := row_image_url p;
     category := row_category p; similarity := row_similarity p |}.

Definition map_faq (f : FaqSearchResult) : FaqResult :=
  {| question := row_question f; answer := row_answer f;
     faq_category := row_faq_category f; faq_similarity := row_faq_similarity f |}.

(** [(data ?? []).filter(p => p.similarity >= threshold).map(...)]. *)
Definition keep_products (cfg : Config) (rows : option (list ProductSearchResult))
  : list ProductResult :=
  map map_product
    (List.filter (fun p => geb (row_similarity p) (cfg_similarityThreshold cfg))
       (default [] rows)).

Definition keep_faqs (cfg : Config) (rows : option (list FaqSearchResult))
  : list FaqResult :=
  map map_faq
    (List.filter (fun f => geb (row_faq_similarity f) (cfg_similarityThreshold cfg))
       (default [] rows)).

(** [!query || query.trim().length === 0]. *)
Definition blank (query : string) : bool :=
  String.eqb query "" || (String.length (trim query) =? 0)%nat.

Definition searchProducts (w : World) (cfg : Config) (tenantId query : string)
    (limit : option num) : M (list Call) (list ProductResult) :=
  if blank query then ret []
  else
    let* queryEmbedding := do_embedQuery w query in
    let* r := do_rpc_products w queryEmbedding tenantId
                (default (cfg_productLimit cfg) limit) in
    match rpc_error r with
    | Some msg => throw (Error ("Product search failed: " +:+ msg))
    | None => ret (keep_products cfg (rpc_data r))
    end.

Definition searchFaqs (w : World) (cfg : Config) (tenantId query : string)
    (limit : option num) : M (list Call) (list FaqResult) :=
  if blank query then ret []
  else
    let* queryEmbedding := do_embedQuery w query in
    let* r := do_rpc_faqs w queryEmbedding tenantId
                (default (cfg_faqLimit cfg) limit) in
    match rpc_error r with
    | Some msg => throw (Error ("FAQ search failed: " +:+ msg))
    | None => ret (keep_faqs cfg (rpc_data r))
    end.

(** Both procedure calls are issued before either answer is inspected
    ([Promise.all]); they are read-only, so issuing them in program order
    loses nothing. *)
Definition search (w : World) (cfg : Config) (tenantId query : string)
  : M (list Call) RagResult :=
  if blank query then ret {| products := []; faqs := [] |}
  else
    let* queryEmbedding := do_embedQuery w query in
    let* productsResult := do_rpc_products w queryEmbedding tenantId (cfg_productLimit cfg) in
    let* faqsResult := do_rpc_faqs w queryEmbedding tenantId (cfg_faqLimit cfg) in
    match rpc_error productsResult with
    | Some msg => throw (Error ("Product search failed: " +:+ msg))
    | None =>
        match rpc_error faqsResult with
        | Some msg => throw (Error ("FAQ search failed: " +:+ msg))
        | None =>
            ret {| products := keep_products cfg (rpc_data productsResult);
                   faqs := keep_faqs cfg (rpc_data faqsResult) |}
        end
    end.

(** A line feed. *)
Definition nl : string := String (ascii_of_nat 10) EmptyString.

(** [p.price ? `$${p.price} ${p.currency}` : 'Price not available'].
    [show] is the rendering of a number inside a template string
    ([Number.prototype.toString]), which the code leaves to the engine. *)
Definition price_text (show : num -> string) (p : ProductResult) : string :=
  match price p with
  | Some n =>
      if truthy (Number n) then "$" +:+ show n +:+ " " +:+ currency p
      else "Price not available"
  | None => "Price not available"
  end.

(** [`- ${p.title}: ${p.description ?? 'No description'} (${price})`]. *)
Definition product_line (show : num -> string) (p : ProductResult) : string :=
  "- " +:+ title p +:+ ": " +:+ default "No description" (description p)
  +:+ " (" +:+ price_text show p +:+ ")".

(** [`Q: ${f.question}\nA: ${f.answer}`]. *)
Definition faq_block (f : FaqResult) : string :=
  "Q: " +:+ question f +:+ nl +:+ "A: " +:+ answer f.

Definition buildContext (show : num -> string) (results : RagResult) : string :=
  let productSection :=
    if (0 <? length (products results))%nat then
      ["**Relevant Products:**" +:+ nl
       +:+ String.concat nl (map (product_line show) (products results))]
    else [] in
  let faqSection :=
    if (0 <? length (faqs results))%nat then
      ["**Relevant FAQs:**" +:+ nl
       +:+ String.concat (nl +:+ nl) (map faq_block (faqs results))]
    else [] in
  String.concat (nl +:+ nl) (productSection ++ faqSection).

End Rag.

(** ** TenantService (services/tenant-service.ts) *)

Module Tenant.
Import Js.

(** 5 minutes *)
Definition TENANT_CACHE_TTL_MS : Z := 5 * 60 * 1000.

Record TenantRow : Type :=
  { row_id : string; row_name : string; shopify_store_url : option string;
    system_prompt : option string; widget_config : value;
    created_at : string; updated_at : string }.

Record TenantConfig : Type :=
  { id : string; name : string; shopifyStoreUrl : option string;
    systemPrompt : option string; widgetConfig : value;
    createdAt : string; updatedAt : string }.

Record CacheEntry : Type := { tenant : option TenantConfig; expiresAt : Z }.

(** [{ data, error }] of [.single()]: a row, or an error with its code. *)
Inductive StoreResult : Type :=
| Found (row : TenantRow)
| Failed (code message : string).

(** The durable store and the wall clock.  [clock n] is what the [n]-th
    reading of [Date.now()] returns. *)
Record World : Type :=
  { store : list string -> string -> StoreResult;
    clock : nat -> Z }.

(** The service instance: its cache, the store queries issued so far and
    the number of clock readings taken so far. *)
Record St : Type :=
  { cache : gmap string CacheEntry; queries : list string; ticks : nat }.

Definition init : St := {| cache := ∅; queries := []; ticks := 0 |}.

(** [cacheTtlMs ?? TENANT_CACHE_TTL_MS]. *)
Definition cacheTtl (cacheTtlMs : option Z) : Z := default TENANT_CACHE_TTL_MS cacheTtlMs.

(** [Date.now()]. *)
Definition now (w : World) : M St Z :=
  fun s => ({| cache := cache s; queries := queries s; ticks := S (ticks s) |},
            Ok (clock w (ticks s))).

Definition cache_set (tenantId : string) (e : CacheEntry) : M St unit :=
  fun s => ({| cache := <[tenantId := e]> (cache s); queries := queries s;
               ticks := ticks s |}, Ok tt).

Definition query_store (w : World) (tenantId : string) : M St StoreResult :=
  fun s => ({| cache := cache s; queries := queries s ++ [tenantId];
               ticks := ticks s |}, Ok (store w (queries s) tenantId)).

(** [cached && cached.expiresAt > Date.now()]: the clock is read only
    when an entry exists. *)
Definition fresh_entry (w : World) (tenantId : string) : M St (option CacheEntry) :=
  fun s =>
    match cache s !! tenantId with
    | None => (s, Ok None)
    | Some cached =>
        (let* t := now w in
         ret (if expiresAt cached >? t then Some cached else None)) s
    end.

Definition map_row (row : TenantRow) : TenantConfig :=
  {| id := row_id row; name := row_name row;
     shopifyStoreUrl := shopify_store_url row; systemPrompt := system_prompt row;
     widgetConfig := widget_config row; createdAt := created_at row;
     updatedAt := updated_at row |}.

Definition blank (tenantId : string) : bool :=
  String.eqb tenantId "" || (String.length (trim tenantId) =? 0)%nat.

Definition getTenant (w : World) (ttl : Z) (tenantId : string)
  : M St (option TenantConfig) :=
  if blank tenantId then ret None
  else
    let* cached := fresh_entry w tenantId in
    match cached with
    | Some entry => ret (tenant entry)
    | None =>
        let* r := query_store w tenantId in
        match r with
        | Failed code msg =>
            if String.eqb code "PGRST116" then
              let* t := now w in
              let* _ := cache_set tenantId {| tenant := None; expiresAt := t + ttl |} in
              ret None
            else throw (Error ("Failed to fetch tenant: " +:+ msg))
        | Found row =>
            let tenant := map_row row in
            let* t := now w in
            let* _ := cache_set tenantId {| tenant := Some tenant; expiresAt := t + ttl |} in
            ret (Some tenant)
        end
    end.

(** [clearCache(tenantId?)]: an empty id is falsy and clears everything. *)
Definition clearCache (tenantId : option string) : M St unit :=
  fun s =>
    let keep :=
      match tenantId with
      | Some k => if String.eqb k "" then ∅ else delete k (cache s)
      | None => ∅
      end in
    ({| cache := keep; queries := queries s; ticks := ticks s |}, Ok tt).

Definition validateTenant (w : World) (ttl : Z) (tenantId : string) : M St bool :=
  let* tenant := getTenant w ttl tenantId in
  ret (match tenant with Some _ => true | None => false end).

(** [tenant?.systemPrompt ?? defaultPrompt]. *)
Definition getSystemPrompt (w : World) (ttl : Z) (tenantId defaultPrompt : string)
  : M St string :=
  let* tenant := getTenant w ttl tenantId in
  ret (default defaultPrompt (tenant ≫= systemPrompt)).

(** [tenant?.widgetConfig ?? {}]. *)
Definition getWidgetConfig (w : World) (ttl : Z) (tenantId : string) : M St value :=
  let* tenant := getTenant w ttl tenantId in
  ret match widgetConfig <$> tenant with
      | None | Some Undefined | Some Null => Obj []
      | Some config => config
      end.

End Tenant.

(** ** ShopifyFactory and the commerce clients' data
       (services/shopify-factory.ts, services/shopify-storefront-client.ts) *)

Module Shopify.
Import Js.

Record Credentials : Type :=
  { storeUrl : option string; storefrontToken : option string;
    adminToken : option string }.

(** The tenant object the factory reads ([tenant as any] at the call
    sites): only the fields the agent core looks at. *)
Record TenantConfig : Type :=
  { tenant_id : string; systemPrompt : option string;
    shopifyCredentials : option Credentials }.

Record StorefrontConfig : Type := { sf_storeUrl : string; sf_storefrontToken : string }.
Record AdminConfig : Type := { ad_storeUrl : string; ad_adminToken : string }.

(** A string that is present and not empty. *)
Definition present (o : option string) : option string :=
  match o with
  | Some s => if String.eqb s "" then None else Some s
  | None => None
  end.

Definition createStorefrontClient (tenant : TenantConfig) : option StorefrontConfig :=
  match present (shopifyCredentials tenant ≫= storeUrl),
        present (shopifyCredentials tenant ≫= storefrontToken) with
  | Some u, Some t => Some {| sf_storeUrl := u; sf_storefrontToken := t |}
  | _, _ => None
  end.

Definition createAdminClient (tenant : TenantConfig) : option AdminConfig :=
  match present (shopifyCredentials tenant ≫= storeUrl),
        present (shopifyCredentials tenant ≫= adminToken) with
  | Some u, Some t => Some {| ad_storeUrl := u; ad_adminToken := t |}
  | _, _ => None
  end.

(** [{ merchandiseId, quantity }]; the values the executor sends are
    whatever the model supplied. *)
Record CartLine : Type := { merchandiseId : value; quantity : value }.

Record CartResponse : Type :=
  { cartId : string; checkoutUrl : string; lines : list CartLine }.

Record Variant : Type :=
  { v_id : string; v_title : string; v_price : num; available : bool }.

Record ShopifyProduct : Type :=
  { p_title : string; handle : string; p_description : option string;
    minPrice : num; maxPrice : num; images : list string;
    variants : list Variant }.

Record DraftOrderLine : Type := { variantId : value; dl_quantity : value }.

Record DraftOrder : Type :=
  { order_id : string; invoiceUrl : string; totalPrice : string; status : string }.

(** [Boolean(credentials?.storeUrl && credentials?.storefrontToken)]. *)
Definition hasStorefrontAccess (tenant : TenantConfig) : bool :=
  match present (shopifyCredentials tenant ≫= storeUrl) with
  | Some _ => bool_decide (is_Some (present (shopifyCredentials tenant ≫= storefrontToken)))
  | None => false
  end.

Definition hasAdminAccess (tenant : TenantConfig) : bool :=
  match present (shopifyCredentials tenant ≫= storeUrl) with
  | Some _ => bool_decide (is_Some (present (shopifyCredentials tenant ≫= adminToken)))
  | None => false
  end.

End Shopify.

(** ** ToolExecutor (services/agent-tools.ts) *)

Module Tools.
Import Js.
Import Shopify.

Record AgentContext : Type :=
  { tenantId : string; sessionId : string; ctx_cartId : option string }.

(** Prices are kept as numbers: [toFixed(2)] only renders them. *)
Record FormattedVariant : Type := { fv_id : string; fv_title : string; fv_price : num }.

Record FormattedProduct : Type :=
  { fp_title : string; fp_handle : string; fp_description : string;
    fp_price : num; fp_priceRange : option (num * num); fp_image : option string;
    fp_variants : list FormattedVariant; inStock : bool }.

(** [s?.slice(0, 200) || 'No description']. *)
Definition short_description (d : option string) : string :=
  match d with
  | Some s => let t := slice 0 200 s in if String.eqb t "" then "No description" else t
  | None => "No description"
  end.

Definition same_num (a b : num) : bool :=
  match a, b with
  | Num x, Num y => Qeq_bool x y
  | _, _ => false
  end.

Definition formatProduct (product : ShopifyProduct) : FormattedProduct :=
  let availableVariants := List.filter available (variants product) in
  {| fp_title := p_title product;
     fp_handle := handle product;
     fp_description := short_description (p_description product);
     fp_price := minPrice product;
     fp_priceRange :=
       if same_num (minPrice product) (maxPrice product) then None
       else Some (minPrice product, maxPrice product);
     fp_image := present (head (images product));
     fp_variants :=
       map (fun v => {| fv_id := v_id v; fv_title := v_title v; fv_price := v_price v |})
         availableVariants;
     inStock := (0 <? length availableVariants)%nat |}.

Record CartItem : Type := { item_variantId : value; item_quantity : value }.

Record FormattedCart : Type :=
  { fc_cartId : string; fc_checkoutUrl : string; itemCount : nat;
    items : list CartItem }.

Definition formatCart (cart : CartResponse) : FormattedCart :=
  {| fc_cartId := cartId cart;
     fc_checkoutUrl := checkoutUrl cart;
     itemCount := length (lines cart);
     items := map (fun line => {| item_variantId := merchandiseId line;
                                  item_quantity := quantity line |}) (lines cart) |}.

(** A product of the indexed catalog as the tool shows it. *)
Record DatabaseProduct : Type :=
  { dp_id : string; dp_title : string; dp_description : string;
    dp_price : option (num * string); dp_image : option string;
    dp_category : option string }.

(** [p.price ? ... : 'Price not available']. *)
Definition shown_price (p : Rag.ProductResult) : option (num * string) :=
  match Rag.price p with
  | Some n => if truthy (Number n) then Some (n, Rag.currency p) else None
  | None => None
  end.

Definition format_database_product (p : Rag.ProductResult) : DatabaseProduct :=
  {| dp_id := Rag.id p; dp_title := Rag.title p;
     dp_description := short_description (Rag.description p);
     dp_price := shown_price p; dp_image := Rag.imageUrl p;
     dp_category := Rag.category p |}.

Record ShownFaq : Type :=
  { sf_question : string; sf_answer : string; sf_category : option string }.

(** The [data] payload of a result, one constructor per object literal
    in the source. *)
Inductive ToolData : Type :=
| DatabaseProducts (products : list DatabaseProduct)
| NoProducts (message : string)
| ShopifyProducts (products : list FormattedProduct)
| ProductDetails (product : FormattedProduct)
| CartAdded (cart : FormattedCart) (added : value) (* message: Added <added> item(s) to cart *)
| CartContents (cart : FormattedCart)
| EmptyCart (message : string)
| Faqs (faqs : list ShownFaq) (message : option string)
| CheckoutLink (url : string) (message : string)
| DraftOrderCreated (order : DraftOrder) (message : string).

Record ToolResult : Type :=
  { success : bool; data : option ToolData; error : option string }.

Definition succeed (d : ToolData) : ToolResult :=
  {| success := true; data := Some d; error := None |}.
Definition fail (msg : string) : ToolResult :=
  {| success := false; data := None; error := Some msg |}.

(** Calls to the collaborators handed to the constructor. *)
Inductive Call : Type :=
| RagSearchProducts (tenantId query : string) (limit : value)
| RagSearchFaqs (tenantId query : string)
| RagSearch (tenantId query : string)
| GetTenant (tenantId : string)
| StorefrontSearchProducts (client : StorefrontConfig) (query : string) (limit : value)
| StorefrontGetProduct (client : StorefrontConfig) (handle : value)
| StorefrontCreateCart (client : StorefrontConfig) (lines : list CartLine)
| StorefrontAddToCart (client : StorefrontConfig) (cartId : string) (lines : list CartLine)
| StorefrontGetCart (client : StorefrontConfig) (cartId : string)
| AdminCreateDraftOrder (client : AdminConfig) (lines : list DraftOrderLine)
    (email note : value).

(** The scripted collaborators; each answer may depend on the calls made
    so far. *)
Record World : Type :=
  { rag_searchProducts : list Call -> string -> string -> value -> result (list Rag.ProductResult);
    rag_searchFaqs : list Call -> string -> string -> result (list Rag.FaqResult);
    rag_search : list Call -> string -> string -> result Rag.RagResult;
    tenant_getTenant : list Call -> string -> result (option TenantConfig);
    storefront_searchProducts :
      list Call -> StorefrontConfig -> string -> value -> result (list ShopifyProduct);
    storefront_getProduct :
      list Call -> StorefrontConfig -> value -> result (option ShopifyProduct);
    storefront_createCart : list Call -> StorefrontConfig -> list CartLine -> result CartResponse;
    storefront_addToCart :
      list Call -> StorefrontConfig -> string -> list CartLine -> result CartResponse;
    storefront_getCart : list Call -> StorefrontConfig -> string -> result CartResponse;
    admin_createDraftOrder :
      list Call -> AdminConfig -> list DraftOrderLine -> value -> value -> result DraftOrder }.

(** The executor instance: its session-to-cart map and the calls made. *)
Record St : Type := { cartStore : gmap string string; log : list Call }.

Definition init : St := {| cartStore := ∅; log := [] |}.

(** Record the call and take the scripted answer. *)
Definition call {A} (c : Call) (answer : list Call -> result A) : M St A :=
  fun s => ({| cartStore := cartStore s; log := log s ++ [c] |}, answer (log s)).

Definition sessionKey (context : AgentContext) : string :=
  tenantId context +:+ ":" +:+ sessionId context.

(** [this.cartStore.get(sessionKey) || context.cartId]. *)
Definition getCartId (context : AgentContext) : M St (option string) :=
  fun s =>
    (s, Ok match present (cartStore s !! sessionKey context) with
           | Some c => Some c
           | None => ctx_cartId context
           end).

Definition setCartId (context : AgentContext) (cartId : string) : M St unit :=
  fun s => ({| cartStore := <[sessionKey context := cartId]> (cartStore s);
               log := log s |}, Ok tt).

(** [!query || query.trim().length === 0] on an untyped value: [None]
    when the test holds, the string otherwise; a truthy value without a
    [trim] method throws. *)
Definition required_text (v : value) : result (option string) :=
  if truthy v then
    match v with
    | Str s => Ok (if (String.length (trim s) =? 0)%nat then None else Some s)
    | _ => Throw (Error "query.trim is not a function")
    end
  else Ok None.

Definition searchProducts (w : World) (input : gmap string value)
    (context : AgentContext) : M St ToolResult :=
  let query := prop input "query" in
  let limit := or (prop input "limit") (Number (Num 5)) in
  let* q := lift (required_text query) in
  match q with
  | None => ret (fail "Search query is required")
  | Some query =>
      let* ragResults :=
        call (RagSearchProducts (tenantId context) query limit)
          (fun h => rag_searchProducts w h (tenantId context) query limit) in
      if (0 <? length ragResults)%nat then
        ret (succeed (DatabaseProducts (map format_database_product ragResults)))
      else
        let* tenant := call (GetTenant (tenantId context))
                         (fun h => tenant_getTenant w h (tenantId context)) in
        match tenant with
        | None => ret (fail "Tenant not found")
        | Some tenant =>
            match createStorefrontClient tenant with
            | None => ret (succeed (NoProducts "No products found"))
            | Some storefront =>
                let* products :=
                  call (StorefrontSearchProducts storefront query limit)
                    (fun h => storefront_searchProducts w h storefront query limit) in
                ret (succeed (ShopifyProducts (map formatProduct products)))
            end
        end
  end.

(** [${productHandle}] in the "not found" message: exact for a string
    handle; the rendering of other values is left out. *)
Definition shown_handle (productHandle : value) : string :=
  match productHandle with
  | Str s => s
  | _ => ""
  end.

Definition getProductDetails (w : World) (input : gmap string value)
    (context : AgentContext) : M St ToolResult :=
  let productHandle := prop input "productHandle" in
  if negb (truthy productHandle) then ret (fail "Product handle is required")
  else
    let* tenant := call (GetTenant (tenantId context))
                     (fun h => tenant_getTenant w h (tenantId context)) in
    match tenant with
    | None => ret (fail "Tenant not found")
    | Some tenant =>
        match createStorefrontClient tenant with
        | None => ret (fail "Shopify not configured for this store")
        | Some storefront =>
            let* product :=
              call (StorefrontGetProduct storefront productHandle)
                (fun h => storefront_getProduct w h storefront productHandle) in
            match product with
            | None => ret (fail ("Product not found: " +:+ shown_handle productHandle))
            | Some product => ret (succeed (ProductDetails (formatProduct product)))
            end
        end
    end.

Definition addToCart (w : World) (input : gmap string value)
    (context : AgentContext) : M St ToolResult :=
  let variantId := prop input "variantId" in
  let quantity := or (prop input "quantity") (Number (Num 1)) in
  if negb (truthy variantId) then ret (fail "Variant ID is required")
  else
    let* tenant := call (GetTenant (tenantId context))
                     (fun h => tenant_getTenant w h (tenantId context)) in
    match tenant with
    | None => ret (fail "Tenant not found")
    | Some tenant =>
        match createStorefrontClient tenant with
        | None => ret (fail "Shopify not configured for this store")
        | Some storefront =>
            let* existingCartId := getCartId context in
            let line := {| merchandiseId := variantId; quantity := quantity |} in
            let* cart :=
              match present existingCartId with
              | Some existing =>
                  call (StorefrontAddToCart storefront existing [line])
                    (fun h => storefront_addToCart w h storefront existing [line])
              | None =>
                  let* cart := call (StorefrontCreateCart storefront [line])
                                 (fun h => storefront_createCart w h storefront [line]) in
                  let* _ := setCartId context (cartId cart) in
                  ret cart
              end in
            ret (succeed (CartAdded (formatCart cart) quantity))
        end
    end.

Definition getCart (w : World) (context : AgentContext) : M St ToolResult :=
  let* cartId := getCartId context in
  match present cartId with
  | None => ret (succeed (EmptyCart "Cart is empty"))
  | Some cartId =>
      let* tenant := call (GetTenant (tenantId context))
                       (fun h => tenant_getTenant w h (tenantId context)) in
      match tenant with
      | None => ret (fail "Tenant not found")
      | Some tenant =>
          match createStorefrontClient tenant with
          | None => ret (fail "Shopify not configured")
          | Some storefront =>
              try_catch
                (let* cart := call (StorefrontGetCart storefront cartId)
                                (fun h => storefront_getCart w h storefront cartId) in
                 ret (succeed (CartContents (formatCart cart))))
                (fun _ => ret (succeed (EmptyCart "Cart is empty or expired")))
          end
      end
  end.

Definition searchFaqs (w : World) (input : gmap string value)
    (context : AgentContext) : M St ToolResult :=
  let query := prop input "query" in
  let* q := lift (required_text query) in
  match q with
  | None => ret (fail "Search query is required")
  | Some query =>
      let* faqs := call (RagSearchFaqs (tenantId context) query)
                     (fun h => rag_searchFaqs w h (tenantId context) query) in
      if (length faqs =? 0)%nat then
        ret (succeed (Faqs [] (Some "No relevant FAQs found")))
      else
        ret (succeed (Faqs
               (map (fun f => {| sf_question := Rag.question f;
                                 sf_answer := Rag.answer f;
                                 sf_category := Rag.faq_category f |}) faqs)
               None))
  end.

(** [!email || !email.includes('@')]: [true] when the address is refused.
    Strings and arrays have an [includes] method, other truthy values
    throw. *)
Definition bad_email (email : value) : result bool :=
  if truthy email then
    match email with
    | Str s => Ok (negb (includes "@" s))
    | Arr items =>
        Ok (negb (existsb (fun v => match v with
                                    | Str s => String.eqb s "@"
                                    | _ => false
                                    end) items))
    | _ => Throw (Error "email.includes is not a function")
    end
  else Ok true.

Definition createOrder (w : World) (input : gmap string value)
    (context : AgentContext) : M St ToolResult :=
  let email := prop input "email" in
  let note := prop input "note" in
  let* refused := lift (bad_email email) in
  if (refused : bool) then ret (fail "Valid email address is required")
  else
    let* cartId := getCartId context in
    match present cartId with
    | None => ret (fail "Cart is empty. Add items before creating order.")
    | Some cartId =>
        let* tenant := call (GetTenant (tenantId context))
                         (fun h => tenant_getTenant w h (tenantId context)) in
        match tenant with
        | None => ret (fail "Tenant not found")
        | Some tenant =>
            match createStorefrontClient tenant with
            | None => ret (fail "Shopify not configured")
            | Some storefront =>
                let* cart := call (StorefrontGetCart storefront cartId)
                               (fun h => storefront_getCart w h storefront cartId) in
                if (length (lines cart) =? 0)%nat then ret (fail "Cart is empty")
                else
                  match createAdminClient tenant with
                  | None =>
                      ret (succeed (CheckoutLink (checkoutUrl cart)
                             "Please complete your order using the checkout link"))
                  | Some admin =>
                      let orderLines :=
                        map (fun line => {| variantId := merchandiseId line;
                                            dl_quantity := quantity line |}) (lines cart) in
                      let* draftOrder :=
                        call (AdminCreateDraftOrder admin orderLines email note)
                          (fun h => admin_createDraftOrder w h admin orderLines email note) in
                      ret (succeed (DraftOrderCreated draftOrder
                             "Draft order created. Check your email for the invoice."))
                  end
            end
        end
    end.

(** The names of [AGENT_TOOLS]. *)
Definition AGENT_TOOLS : list string :=
  ["search_products"; "get_product_details"; "add_to_cart"; "get_cart";
   "search_faqs"; "create_order"].

(** The [switch] of [execute]. *)
Definition dispatch (w : World) (toolName : string) (input : gmap string value)
    (context : AgentContext) : M St ToolResult :=
  if String.eqb toolName "search_products" then searchProducts w input context
  else if String.eqb toolName "get_product_details" then getProductDetails w input context
  else if String.eqb toolName "add_to_cart" then addToCart w input context
  else if String.eqb toolName "get_cart" then getCart w context
  else if String.eqb toolName "search_faqs" then searchFaqs w input context
  else if String.eqb toolName "create_order" then createOrder w input context
  else ret (fail ("Unknown tool: " +:+ toolName)).

Definition execute (w : World) (toolName : string) (input : gmap string value)
    (context : AgentContext) : M St ToolResult :=
  try_catch (dispatch w toolName input context)
    (fun e => ret (fail (message_or "Tool execution failed" e))).

End Tools.

(** ** ChatAgent (services/chat-agent.ts) *)

Module Agent.
Import Js.
Import Tools.

Definition MAX_TOOL_ITERATIONS : nat := 5.

Record ToolUseBlock : Type :=
  { tu_id : string; tu_name : string; tu_input : gmap string value }.

Inductive ContentBlock : Type :=
| TextBlock (text : string)
| ToolUse (block : ToolUseBlock).

Inductive StopReason : Type := end_turn | tool_use | max_tokens.

Record ClaudeResponse : Type :=
  { content : list ContentBlock; stop_reason : StopReason }.

Inductive Role : Type := user | assistant.

Record ChatMessage : Type := { role : Role; msg_content : string }.

(** [{ type: 'tool_result', tool_use_id, content: JSON.stringify(result) }];
    the serialised result is kept as the result itself. *)
Record ToolResultBlock : Type := { tool_use_id : string; tr_content : ToolResult }.

(** [content: unknown] of a conversation message: the three shapes the
    loop produces. *)
Inductive MessageContent : Type :=
| Text (s : string)
| Blocks (blocks : list ContentBlock)
| ToolResults (results : list ToolResultBlock).

Record ConversationMessage : Type := { cm_role : Role; cm_content : MessageContent }.

(** The system prompt, kept as the two ingredients the text is rendered
    from (tenant prompt or default persona, retrieved context). *)
Record SystemPrompt : Type :=
  { tenantPrompt : option string; ragContext : Rag.RagResult }.

Record ToolCall : Type := { tool : string; result_of : ToolResult }.

Record AgentResponse : Type :=
  { reply : string; toolCalls : option (list ToolCall);
    cartId : option string; checkoutUrl : option string }.

Inductive StreamEvent : Type :=
| text_event (data : string)
| tool_event (data : ToolCall)
| done_event (data : AgentResponse)
| error_event (data : string).

(** The two requests to the chat-completion endpoint. *)
Inductive LlmCall : Type :=
| CallClaude (messages : list ChatMessage) (system : SystemPrompt)
| CallClaudeWithToolResults (messages : list ConversationMessage) (system : SystemPrompt).

(** The scripted model, next to the executor's collaborators.  A request
    throws when the endpoint does not answer 2xx. *)
Record World : Type :=
  { tools : Tools.World;
    claude : list LlmCall -> LlmCall -> result ClaudeResponse }.

Record St : Type := { executor : Tools.St; requests : list LlmCall }.

Definition init : St := {| executor := Tools.init; requests := [] |}.

(** Run executor code inside the agent. *)
Definition on_executor {A} (c : M Tools.St A) : M St A :=
  fun s =>
    let '(e, r) := c (executor s) in
    ({| executor := e; requests := requests s |}, r).

Definition ask (w : World) (c : LlmCall) : M St ClaudeResponse :=
  fun s => ({| executor := executor s; requests := requests s ++ [c] |},
            claude w (requests s) c).

Definition callClaude (w : World) (messages : list ChatMessage)
    (systemPrompt : SystemPrompt) : M St ClaudeResponse :=
  ask w (CallClaude messages systemPrompt).

Definition callClaudeWithToolResults (w : World)
    (messages : list ConversationMessage) (systemPrompt : SystemPrompt)
  : M St ClaudeResponse :=
  ask w (CallClaudeWithToolResults messages systemPrompt).

Definition buildPrompt (w : World) (context : AgentContext) (userQuery : string)
  : M St SystemPrompt :=
  let* tenant := on_executor
      (call (GetTenant (tenantId context))
         (fun h => tenant_getTenant (tools w) h (tenantId context))) in
  let tenantPrompt := tenant ≫= Shopify.systemPrompt in
  let* ragResults := on_executor
      (call (RagSearch (tenantId context) userQuery)
         (fun h => rag_search (tools w) h (tenantId context) userQuery)) in
  ret {| tenantPrompt := tenantPrompt; ragContext := ragResults |}.

Definition extractText (content : list ContentBlock) : string :=
  String.concat ""
    (omap (fun b => match b with TextBlock t => Some t | ToolUse _ => None end) content).

Definition extractToolUse (content : list ContentBlock) : list ToolUseBlock :=
  omap (fun b => match b with ToolUse u => Some u | TextBlock _ => None end) content.

(** [data.cartId], when truthy. *)
Definition data_cartId (d : ToolData) : option string :=
  match d with
  | CartAdded cart _ | CartContents cart => Shopify.present (Some (fc_cartId cart))
  | _ => None
  end.

(** [data.checkoutUrl], when truthy. *)
Definition data_checkoutUrl (d : ToolData) : option string :=
  match d with
  | CartAdded cart _ | CartContents cart => Shopify.present (Some (fc_checkoutUrl cart))
  | CheckoutLink url _ => Shopify.present (Some url)
  | _ => None
  end.

(** The variables the loop updates. *)
Record Vars : Type :=
  { allToolCalls : list ToolCall; v_cartId : option string;
    v_checkoutUrl : option string }.

Definition record_result (v : Vars) (name : string) (result : ToolResult) : Vars :=
  let cart :=
    if success result then data result ≫= data_cartId else None in
  let url :=
    if success result then data result ≫= data_checkoutUrl else None in
  {| allToolCalls := allToolCalls v ++ [{| tool := name; result_of := result |}];
     v_cartId := match cart with Some c => Some c | None => v_cartId v end;
     v_checkoutUrl := match url with Some u => Some u | None => v_checkoutUrl v end |}.

(** [for (const toolBlock of toolUseBlocks)]: one invocation after the
    other, each seeing the cart id left by the previous ones. *)
Fixpoint run_tool_blocks (w : World) (context : AgentContext)
    (toolUseBlocks : list ToolUseBlock) (v : Vars)
    (toolResults : list ToolResultBlock) : M St (Vars * list ToolResultBlock) :=
  match toolUseBlocks with
  | [] => ret (v, toolResults)
  | toolBlock :: rest =>
      let* result := on_executor
          (execute (tools w) (tu_name toolBlock) (tu_input toolBlock)
             {| tenantId := tenantId context; sessionId := sessionId context;
                ctx_cartId := v_cartId v |}) in
      run_tool_blocks w context rest
        (record_result v (tu_name toolBlock) result)
        (toolResults ++ [{| tool_use_id := tu_id toolBlock; tr_content := result |}])
  end.

Definition is_tool_use (r : StopReason) : bool :=
  match r with tool_use => true | _ => false end.

(** The [while] loop; [remaining] is [MAX_TOOL_ITERATIONS - iterations]. *)
Fixpoint tool_loop (w : World) (context : AgentContext) (systemPrompt : SystemPrompt)
    (remaining : nat) (claudeResponse : ClaudeResponse)
    (conversationMessages : list ConversationMessage) (v : Vars)
  : M St (ClaudeResponse * Vars) :=
  match remaining with
  | O => ret (claudeResponse, v)
  | S remaining' =>
      if is_tool_use (stop_reason claudeResponse) then
        let toolUseBlocks := extractToolUse (content claudeResponse) in
        let withAssistant :=
          conversationMessages ++
          [{| cm_role := assistant; cm_content := Blocks (content claudeResponse) |}] in
        let* '(v', toolResults) := run_tool_blocks w context toolUseBlocks v [] in
        let withResults :=
          withAssistant ++ [{| cm_role := user; cm_content := ToolResults toolResults |}] in
        let* next := callClaudeWithToolResults w withResults systemPrompt in
        tool_loop w context systemPrompt remaining' next withResults v'
      else ret (claudeResponse, v)
  end.

Definition is_user (m : ChatMessage) : bool :=
  match role m with user => true | assistant => false end.

(** [[...messages].reverse().find(m => m.role === 'user')?.content || '']. *)
Definition userQuery (messages : list ChatMessage) : string :=
  match List.find is_user (rev messages) with
  | Some m => msg_content m
  | None => ""
  end.

Definition processMessage (w : World) (messages : list ChatMessage)
    (context : AgentContext) : M St AgentResponse :=
  let* systemPrompt := buildPrompt w context (userQuery messages) in
  let* claudeResponse := callClaude w messages systemPrompt in
  let conversationMessages :=
    map (fun m => {| cm_role := role m; cm_content := Text (msg_content m) |}) messages in
  let* '(final, v) :=
    tool_loop w context systemPrompt MAX_TOOL_ITERATIONS claudeResponse
      conversationMessages
      {| allToolCalls := []; v_cartId := ctx_cartId context; v_checkoutUrl := None |} in
  ret {| reply := extractText (content final);
         toolCalls := if (0 <? length (allToolCalls v))%nat
                      then Some (allToolCalls v) else None;
         cartId := v_cartId v;
         checkoutUrl := v_checkoutUrl v |}.

Definition chunkSize : nat := 50.

(** [for (let i = 0; i < reply.length; i += chunkSize)
       yield reply.slice(i, i + chunkSize)]. *)
Equations? text_chunks (reply : string) (i : nat) : list string
  by wf (String.length reply - i)%nat lt :=
text_chunks reply i with decide (i < String.length reply)%nat := {
  | left _ => slice i chunkSize reply :: text_chunks reply (i + chunkSize)
  | right _ => [] }.
Proof. unfold chunkSize. lia. Qed.

(** The events the generator yields until it finishes.  [processMessage]
    has run to completion before the first of them. *)
Definition processMessageStream (w : World) (messages : list ChatMessage)
    (context : AgentContext) : St -> St * list StreamEvent :=
  fun s =>
    match processMessage w messages context s with
    | (s', Ok response) =>
        (s', map tool_event (default [] (toolCalls response))
             ++ map text_event (text_chunks (reply response) 0)
             ++ [done_event response])
    | (s', Throw e) => (s', [error_event (message_or "Unknown error" e)])
    end.

End Agent.

(** ** System prompts (config/system-prompts.ts) *)

Module Prompts.
Import Js.

Definition DEFAULT_SYSTEM_PROMPT : string :=
"You are a helpful sales assistant for an online store.
Your job is to help customers:
- Find products they're looking for
- Answer questions about products and policies
- Help them add items to cart and checkout

Be friendly, concise, and helpful. Use the available tools to search products and manage the cart.
When recommending products, always include prices and key features.
If asked about shipping, returns, or policies, search the FAQs.

IMPORTANT:
- Always search for products before recommending
- Confirm with customer before adding to cart
- Provide checkout link when customer is ready to buy
- If you don't find relevant products, let the customer know and suggest alternatives
- Never make up product information - only use what the tools return".

Definition context_opening : string :=
"

---
CONTEXT FROM STORE DATABASE:
".

Definition context_closing : string :=
"
---

Use the above context to answer customer questions when relevant.
If the context doesn't contain needed information, use the search tools.".

Definition buildSystemPrompt (tenantPrompt : option string) (ragContext : string) : string :=
  let basePrompt := default DEFAULT_SYSTEM_PROMPT tenantPrompt in
  if String.eqb ragContext "" || (String.length (trim ragContext) =? 0)%nat then basePrompt
  else basePrompt +:+ context_opening +:+ ragContext +:+ context_closing.

Definition buildToolGuidance : string :=
"
TOOL USAGE GUIDELINES:
- search_products: Use when customer asks about products, looking for items, or needs recommendations
- get_product_details: Use when customer wants more info about a specific product
- add_to_cart: Use ONLY after customer confirms they want to add an item
- get_cart: Use to show customer their current cart or before checkout
- search_faqs: Use for questions about shipping, returns, policies, store info
- create_order: Use when customer provides email and wants to place order".

(** The text [ChatAgent.buildPrompt] hands to the model:
    [`${basePrompt}\n${toolGuidance}`], from the two ingredients kept in
    [Agent.SystemPrompt]. *)
Definition systemPromptText (show : num -> string) (p : Agent.SystemPrompt) : string :=
  buildSystemPrompt (Agent.tenantPrompt p) (Rag.buildContext show (Agent.ragContext p))
  +:+ Rag.nl +:+ buildToolGuidance.

End Prompts.

(** ** The indexing script (scripts/generate-embeddings.ts) *)

Module GenerateEmbeddings.
Import Js.

(** The response of the embeddings endpoint as the script reads it:
    [response.text()] on failure; on success the [data] array of
    [response.json()], or the error raised when the body is not JSON or
    lacks what the function reads ([usage.total_tokens], [data]). *)
Record HttpResponse : Type :=
  { status : Z; text : string; json : result (list Embeddings.Item) }.

(** The scripted provider; a request is the list of texts posted, and
    [fetch] rejects on a network failure. *)
Record World : Type :=
  { fetch : list (list string) -> list string -> result HttpResponse }.

Definition ok (r : HttpResponse) : bool := (200 <=? status r) && (status r <=? 299).

(** [data.data.sort((a, b) => a.index - b.index).map(item => item.embedding)],
    after the status check. *)
Definition callVoyageApi (w : World) (texts : list string)
  : M (list (list string)) (list Embeddings.Vector) :=
  fun log =>
    let log1 := log ++ [texts] in
    match fetch w log texts with
    | Throw e => (log1, Throw e)
    | Ok response =>
        if negb (ok response) then
          (log1, Throw (Error ("Voyage API error " +:+ pretty (status response)
                               +:+ ": " +:+ text response)))
        else
          match json response with
          | Throw e => (log1, Throw e)
          | Ok items =>
              (log1, Ok (map Embeddings.embedding (Embeddings.sort_by_index items)))
          end
    end.

End GenerateEmbeddings.

(** ** Request limits of the chat routes (routes/chat-routes.ts) *)

Module Routes.




End Routes.

(* ===================================================================== *)
(** * Part II. Vocabulary of the properties, and scripted collaborators   *)
(* ===================================================================== *)

(** [s >= floor] as a statement about rationals. *)
Definition meets_floor (floor s : Js.num) : Prop :=
  exists f x, floor = Js.Num f /\ s = Js.Num x /\ (f <= x)%Q.

Definition rag_strong_row : Rag.ProductSearchResult :=
  {| Rag.row_id := "p1"; Rag.row_title := "Blue shoes"; Rag.row_description := None;
     Rag.row_price := Some (Js.Num 25); Rag.row_currency := "USD";
     Rag.row_image_url := None; Rag.row_category := None;
     Rag.row_similarity := Js.Num (9 # 10) |}.

Definition rag_weak_row : Rag.ProductSearchResult :=
  {| Rag.row_id := "p2"; Rag.row_title := "Garden hose"; Rag.row_description := None;
     Rag.row_price := None; Rag.row_currency := "USD";
     Rag.row_image_url := None; Rag.row_category := None;
     Rag.row_similarity := Js.Num (1 # 10) |}.

Definition rag_demo_world : Rag.World :=
  {| Rag.embedQuery := fun _ _ => Js.Ok [1 # 2];
     Rag.rpc_search_products := fun _ _ _ _ =>
       {| Rag.rpc_data := Some [rag_strong_row; rag_weak_row]; Rag.rpc_error := None |};
     Rag.rpc_search_faqs := fun _ _ _ _ =>
       {| Rag.rpc_data := None; Rag.rpc_error := None |} |}.


(** The tenant id is not in the durable store: every point lookup
    answers "no such row". *)
Definition absent (w : Tenant.World) (tenantId : string) : Prop :=
  forall h, exists msg, Tenant.store w h tenantId = Tenant.Failed "PGRST116" msg.

(** The states a service instance can be in: fresh, or after any number
    of [getTenant] and [clearCache] calls. *)
Inductive reachable (w : Tenant.World) (ttl : Z) : Tenant.St -> Prop :=
| reach_init : reachable w ttl Tenant.init
| reach_getTenant s tenantId :
    reachable w ttl s -> reachable w ttl (fst (Tenant.getTenant w ttl tenantId s))
| reach_clearCache s tenantId :
    reachable w ttl s -> reachable w ttl (fst (Tenant.clearCache tenantId s)).

(** Two consecutive calls read the clock at most four times; all these
    readings lie less than one TTL apart. *)
Definition within_ttl (w : Tenant.World) (ttl : Z) (s : Tenant.St) : Prop :=
  forall i j : nat,
    (Tenant.ticks s <= i < Tenant.ticks s + 4)%nat ->
    (Tenant.ticks s <= j < Tenant.ticks s + 4)%nat ->
    Tenant.clock w j < Tenant.clock w i + ttl.

(** The cache holds no tenant under this id. *)
Definition no_tenant (s : Tenant.St) (tenantId : string) : Prop :=
  forall e, Tenant.cache s !! tenantId = Some e -> Tenant.tenant e = None.

(** A store without tenant "ghost" and a clock advancing one second per
    reading. *)
Definition tenant_demo_world : Tenant.World :=
  {| Tenant.store := fun _ _ => Tenant.Failed "PGRST116" "no rows";
     Tenant.clock := fun n => 1000 * Z.of_nat n |}.

(** A tenant with a storefront and no privileged credentials. *)
Definition demo_tenant : Shopify.TenantConfig :=
  {| Shopify.tenant_id := "t1"; Shopify.systemPrompt := None;
     Shopify.shopifyCredentials :=
       Some {| Shopify.storeUrl := Some "shop.myshopify.com";
               Shopify.storefrontToken := Some "public-token";
               Shopify.adminToken := None |} |}.

(** A commerce platform with one cart, which it reports under the id it
    is asked about, an empty indexed catalog and an empty live catalog. *)
Definition demo_tools : Tools.World :=
  {| Tools.rag_searchProducts := fun _ _ _ _ => Js.Ok [];
     Tools.rag_searchFaqs := fun _ _ _ => Js.Ok [];
     Tools.rag_search := fun _ _ _ => Js.Ok {| Rag.products := []; Rag.faqs := [] |};
     Tools.tenant_getTenant := fun _ _ => Js.Ok (Some demo_tenant);
     Tools.storefront_searchProducts := fun _ _ _ _ => Js.Ok [];
     Tools.storefront_getProduct := fun _ _ _ => Js.Ok None;
     Tools.storefront_createCart := fun _ _ lines =>
       Js.Ok {| Shopify.cartId := "gid://shopify/Cart/c1";
                Shopify.checkoutUrl := "https://shop.myshopify.com/cart/c1";
                Shopify.lines := lines |};
     Tools.storefront_addToCart := fun _ _ cartId lines =>
       Js.Ok {| Shopify.cartId := cartId;
                Shopify.checkoutUrl := "https://shop.myshopify.com/cart/c1";
                Shopify.lines := lines |};
     Tools.storefront_getCart := fun _ _ cartId =>
       Js.Ok {| Shopify.cartId := cartId;
                Shopify.checkoutUrl := "https://shop.myshopify.com/cart/c1";
                Shopify.lines := [] |};
     Tools.admin_createDraftOrder := fun _ _ _ _ _ => Js.Throw (Js.Error "not configured") |}.

(** The same platform for a tenant id the resolver does not know. *)
Definition unknown_tenant_tools : Tools.World :=
  {| Tools.rag_searchProducts := Tools.rag_searchProducts demo_tools;
     Tools.rag_searchFaqs := Tools.rag_searchFaqs demo_tools;
     Tools.rag_search := Tools.rag_search demo_tools;
     Tools.tenant_getTenant := fun _ _ => Js.Ok None;
     Tools.storefront_searchProducts := Tools.storefront_searchProducts demo_tools;
     Tools.storefront_getProduct := Tools.storefront_getProduct demo_tools;
     Tools.storefront_createCart := Tools.storefront_createCart demo_tools;
     Tools.storefront_addToCart := Tools.storefront_addToCart demo_tools;
     Tools.storefront_getCart := Tools.storefront_getCart demo_tools;
     Tools.admin_createDraftOrder := Tools.admin_createDraftOrder demo_tools |}.

(** The same platform with a retriever that is down. *)
Definition failing_rag_tools : Tools.World :=
  {| Tools.rag_searchProducts := fun _ _ _ _ => Js.Throw (Js.Error "Product search failed: timeout");
     Tools.rag_searchFaqs := Tools.rag_searchFaqs demo_tools;
     Tools.rag_search := Tools.rag_search demo_tools;
     Tools.tenant_getTenant := Tools.tenant_getTenant demo_tools;
     Tools.storefront_searchProducts := Tools.storefront_searchProducts demo_tools;
     Tools.storefront_getProduct := Tools.storefront_getProduct demo_tools;
     Tools.storefront_createCart := Tools.storefront_createCart demo_tools;
     Tools.storefront_addToCart := Tools.storefront_addToCart demo_tools;
     Tools.storefront_getCart := Tools.storefront_getCart demo_tools;
     Tools.admin_createDraftOrder := Tools.admin_createDraftOrder demo_tools |}.

Definition demo_context : Tools.AgentContext :=
  {| Tools.tenantId := "t1"; Tools.sessionId := "s1"; Tools.ctx_cartId := None |}.

(** The cart lines a call hands to the commerce platform. *)
Definition cart_lines_sent (c : Tools.Call) : option (list Shopify.CartLine) :=
  match c with
  | Tools.StorefrontCreateCart _ lines | Tools.StorefrontAddToCart _ _ lines => Some lines
  | _ => None
  end.

(** A tenant without any commerce credentials. *)
Definition bare_tenant : Shopify.TenantConfig :=
  {| Shopify.tenant_id := "t1"; Shopify.systemPrompt := None;
     Shopify.shopifyCredentials := None |}.

Definition no_storefront_tools : Tools.World :=
  {| Tools.rag_searchProducts := Tools.rag_searchProducts demo_tools;
     Tools.rag_searchFaqs := Tools.rag_searchFaqs demo_tools;
     Tools.rag_search := Tools.rag_search demo_tools;
     Tools.tenant_getTenant := fun _ _ => Js.Ok (Some bare_tenant);
     Tools.storefront_searchProducts := Tools.storefront_searchProducts demo_tools;
     Tools.storefront_getProduct := Tools.storefront_getProduct demo_tools;
     Tools.storefront_createCart := Tools.storefront_createCart demo_tools;
     Tools.storefront_addToCart := Tools.storefront_addToCart demo_tools;
     Tools.storefront_getCart := Tools.storefront_getCart demo_tools;
     Tools.admin_createDraftOrder := Tools.admin_createDraftOrder demo_tools |}.

(** The commerce platform reports a cart under the id it was asked
    about. *)
Definition echoes_cart_id (w : Tools.World) : Prop :=
  (forall h client id lines cart,
     Tools.storefront_addToCart w h client id lines = Js.Ok cart ->
     Shopify.cartId cart = id)
  /\ (forall h client id cart,
        Tools.storefront_getCart w h client id = Js.Ok cart ->
        Shopify.cartId cart = id).

(** The cart id the executor resolves for a context, when it has one:
    [getCartId] followed by the truthiness test of its callers. *)
Definition known_cart (context : Tools.AgentContext) (s : Tools.St) : option string :=
  match Tools.getCartId context s with
  | (_, Js.Ok o) => Shopify.present o
  | (_, Js.Throw _) => None
  end.

(** A request that carries the id of an existing cart. *)
Definition returning_context : Tools.AgentContext :=
  {| Tools.tenantId := "t1"; Tools.sessionId := "s1";
     Tools.ctx_cartId := Some "gid://shopify/Cart/c0" |}.

Definition one_variant : gmap string Js.value :=
  {[ "variantId" := Js.Str "gid://shop/Variant/1" ]}.

(** The executor after the first add_to_cart of a fresh session. *)
Definition demo_after_add : Tools.St :=
  fst (Tools.execute demo_tools "add_to_cart" one_variant demo_context Tools.init).

Definition demo_cart : Tools.FormattedCart :=
  {| Tools.fc_cartId := "gid://shopify/Cart/c1";
     Tools.fc_checkoutUrl := "https://shop.myshopify.com/cart/c1";
     Tools.itemCount := 1;
     Tools.items := [{| Tools.item_variantId := Js.Str "gid://shop/Variant/1";
                        Tools.item_quantity := Js.Number (Js.Num 1) |}] |}.

(** The payloads of the [text] events of a stream, in emission order. *)
Definition text_payloads (events : list Agent.StreamEvent) : list string :=
  omap (fun e => match e with Agent.text_event d => Some d | _ => None end) events.

(** The model asks for a tool on every round, whatever it is sent. *)
Definition always_requests_tool (w : Agent.World) : Prop :=
  forall h c, exists r,
    Agent.claude w h c = Js.Ok r /\ Agent.stop_reason r = Agent.tool_use.

(** Every model response carries exactly one tool invocation. *)
Definition one_tool_per_turn (w : Agent.World) : Prop :=
  forall h c r,
    Agent.claude w h c = Js.Ok r ->
    length (Agent.extractToolUse (Agent.content r)) = 1%nat.

(** A request that feeds tool results back to the model. *)
Definition is_tool_round (c : Agent.LlmCall) : Prop :=
  match c with
  | Agent.CallClaudeWithToolResults _ _ => True
  | Agent.CallClaude _ _ => False
  end.

(** A model that keeps asking for the cart. *)
Definition cart_loop_response : Agent.ClaudeResponse :=
  {| Agent.content :=
       [Agent.TextBlock "Let me check your cart.";
        Agent.ToolUse {| Agent.tu_id := "toolu_1"; Agent.tu_name := "get_cart";
                         Agent.tu_input := ∅ |}];
     Agent.stop_reason := Agent.tool_use |}.

Definition cart_loop_world : Agent.World :=
  {| Agent.tools := demo_tools;
     Agent.claude := fun _ _ => Js.Ok cart_loop_response |}.

(** A model that answers at once, with a reply longer than one chunk. *)
Definition long_reply : string :=
  "We have two pairs of blue shoes under $30: the Harbor canvas sneaker at $24.99 and the Tide slip-on at $27.50.".

Definition direct_world : Agent.World :=
  {| Agent.tools := demo_tools;
     Agent.claude := fun _ _ =>
       Js.Ok {| Agent.content := [Agent.TextBlock long_reply];
                Agent.stop_reason := Agent.end_turn |} |}.

Definition demo_messages : list Agent.ChatMessage :=
  [{| Agent.role := Agent.user;
      Agent.msg_content := "Do you have blue shoes under $30?" |}].

(** A provider in trouble whose error text happens to mention "fetch". *)
Definition overloaded_response : Embeddings.Response :=
  {| Embeddings.status := 500; Embeddings.retryAfter := None;
     Embeddings.body := Embeddings.ErrorBody (Some "upstream fetch failed") |}.

Definition overloaded_provider : Embeddings.World :=
  {| Embeddings.fetch := fun _ _ => Embeddings.Responded overloaded_response |}.

Definition document_request (text : string) : Embeddings.Request :=
  {| Embeddings.input := Embeddings.One text; Embeddings.input_type := Embeddings.document |}.

(** A provider that throttles the first two requests, asking for a
    pause of 2 seconds the first time, and then answers. *)
Definition throttle_with_hint : Embeddings.Response :=
  {| Embeddings.status := 429; Embeddings.retryAfter := Some "2";
     Embeddings.body := Embeddings.ErrorBody (Some "rate limited") |}.

Definition throttle_plain : Embeddings.Response :=
  {| Embeddings.status := 429; Embeddings.retryAfter := None;
     Embeddings.body := Embeddings.ErrorBody (Some "rate limited") |}.

Definition served_item : Embeddings.Item :=
  {| Embeddings.embedding := [1 # 2; 1 # 3]; Embeddings.index := 0 |}.

Definition served : Embeddings.Response :=
  {| Embeddings.status := 200; Embeddings.retryAfter := None;
     Embeddings.body := Embeddings.ListBody [served_item] |}.

Definition throttled_provider : Embeddings.World :=
  {| Embeddings.fetch := fun log _ =>
       match log with
       | [] => Embeddings.Responded throttle_with_hint
       | [_; _] => Embeddings.Responded throttle_plain
       | _ => Embeddings.Responded served
       end |}.

(** A stand-in embedding: texts of different lengths get different
    vectors. *)
Definition vec_of (text : string) : Embeddings.Vector :=
  [inject_Z (Z.of_nat (String.length text))].

Definition texts_of (req : Embeddings.Request) : list string :=
  match Embeddings.input req with
  | Embeddings.One t => [t]
  | Embeddings.Many ts => ts
  end.

(** A provider that answers every request with one index-tagged vector
    per input, listed from the last input to the first. *)
Definition reversing_provider : Embeddings.World :=
  {| Embeddings.fetch := fun _ req =>
       Embeddings.Responded
         {| Embeddings.status := 200; Embeddings.retryAfter := None;
            Embeddings.body :=
              Embeddings.ListBody
                (rev (imap (fun i t => {| Embeddings.embedding := vec_of t;
                                          Embeddings.index := i |}) (texts_of req))) |} |}.

(** The provider answers every batch request at once, with the vectors
    of the inputs in request order. *)
Definition answers_in_order (w : Embeddings.World) (E : string -> Embeddings.Vector) : Prop :=
  forall log texts, exists r items,
    Embeddings.fetch w log {| Embeddings.input := Embeddings.Many texts;
                              Embeddings.input_type := Embeddings.document |}
    = Embeddings.Responded r
    /\ Embeddings.ok r = true
    /\ Embeddings.body r = Embeddings.ListBody items
    /\ map Embeddings.embedding items = map E texts.

(** The texts [embedBatch] sends: trimmed, blank ones dropped. *)
Definition kept_texts (texts : list string) : list string :=
  List.filter (fun t => (0 <? String.length t)%nat) (map Js.trim texts).

Definition batch_request (texts : list string) : Embeddings.Event :=
  Embeddings.Fetched {| Embeddings.input := Embeddings.Many texts;
                        Embeddings.input_type := Embeddings.document |}.

(** A result entry for a kept text: its vector under its original index. *)
Definition tag_with (E : string -> Embeddings.Vector) (t : Embeddings.Tagged)
  : Embeddings.Item :=
  {| Embeddings.embedding := E (Embeddings.t_text t);
     Embeddings.index := Embeddings.t_index t |}.

(** A provider that lists the vectors in request order. *)
Definition ordered_provider : Embeddings.World :=
  {| Embeddings.fetch := fun _ req =>
       Embeddings.Responded
         {| Embeddings.status := 200; Embeddings.retryAfter := None;
            Embeddings.body :=
              Embeddings.ListBody
                (imap (fun i t => {| Embeddings.embedding := vec_of t;
                                     Embeddings.index := i |}) (texts_of req)) |} |}.

(** ** Proof steps shared by the case analyses on tool calls *)

(** The common opening of every branch of the policy proof: the result
    and the calls are read off, the blank-query case is excluded. *)
Ltac search_leaf q :=
  do 2 (split; [done|]); split; [intros [=]|];
  let q0 := fresh "q0" in intros q0 [= <-].

(** No live search among the calls listed. *)
Ltac no_live_search :=
  let H := fresh "H" in
  intros ? ? ? H; simpl in H;
  repeat (destruct H as [H|H]; [discriminate H|]); destruct H.


(** ** Vocabulary of the further properties *)

(** What a call of [fetchWithRetry] does to the outside world when it
    pauses [pauses] times: a request, then a pause and a request again
    for each retry. *)
Definition attempts (req : Embeddings.Request) (pauses : list Js.num)
  : list Embeddings.Event :=
  Embeddings.Fetched req
  :: concat (map (fun ms => [Embeddings.Slept ms; Embeddings.Fetched req]) pauses).

Definition query_request (text : string) : Embeddings.Request :=
  {| Embeddings.input := Embeddings.One text; Embeddings.input_type := Embeddings.query |}.

(** The requests among the events. *)
Definition requests_of (events : list Embeddings.Event) : list Embeddings.Request :=
  omap (fun e => match e with
                 | Embeddings.Fetched req => Some req
                 | Embeddings.Slept _ => None
                 end) events.

(** The answer of the provider to [texts]: the vector of each text,
    tagged with the position of the text. *)
Definition tagged_vectors (E : string -> Embeddings.Vector) (texts : list string)
  : list Embeddings.Item :=
  imap (fun i t => {| Embeddings.embedding := E t; Embeddings.index := i |}) texts.

(** A provider that is unreachable for the first request and answers
    the second. *)
Definition flaky_provider : Embeddings.World :=
  {| Embeddings.fetch := fun log _ =>
       match log with
       | [] => Embeddings.NetworkError (Js.Error "fetch failed")
       | _ => Embeddings.Responded served
       end |}.

(** A provider that throttles every request. *)
Definition throttling_provider : Embeddings.World :=
  {| Embeddings.fetch := fun _ _ =>
       Embeddings.Responded
         {| Embeddings.status := 429; Embeddings.retryAfter := None;
            Embeddings.body := Embeddings.ErrorBody (Some "rate limited") |} |}.

(** A provider that rejects the credentials. *)
Definition unauthorized : Embeddings.Response :=
  {| Embeddings.status := 401; Embeddings.retryAfter := None;
     Embeddings.body := Embeddings.ErrorBody (Some "invalid api key") |}.

Definition rejecting_provider : Embeddings.World :=
  {| Embeddings.fetch := fun _ _ => Embeddings.Responded unauthorized |}.

(** The ordering the indexing script sorts by. *)
Definition by_index (a b : Embeddings.Item) : Prop :=
  (Embeddings.index a <= Embeddings.index b)%nat.

(** The endpoint as the indexing script sees it, listing the vectors
    from the last input to the first. *)
Definition reversing_endpoint : GenerateEmbeddings.World :=
  {| GenerateEmbeddings.fetch := fun _ texts =>
       Js.Ok {| GenerateEmbeddings.status := 200;
                GenerateEmbeddings.text := "";
                GenerateEmbeddings.json := Js.Ok (rev (tagged_vectors vec_of texts)) |} |}.

(** A retrieval call made on behalf of [tenantId] for [query]: the
    query itself is embedded, and a store procedure is asked for the
    rows of that tenant only. *)
Definition scoped_to (tenantId query : string) (c : Rag.Call) : Prop :=
  match c with
  | Rag.EmbedQuery q => q = query
  | Rag.RpcSearchProducts _ t _ | Rag.RpcSearchFaqs _ t _ => t = tenantId
  end.

Definition is_embedding (c : Rag.Call) : bool :=
  match c with Rag.EmbedQuery _ => true | _ => false end.

(** A vector store whose product procedure is out of order. *)
Definition broken_products_world : Rag.World :=
  {| Rag.embedQuery := fun _ _ => Js.Ok [1 # 2];
     Rag.rpc_search_products := fun _ _ _ _ =>
       {| Rag.rpc_data := None; Rag.rpc_error := Some "function not found" |};
     Rag.rpc_search_faqs := fun _ _ _ _ =>
       {| Rag.rpc_data := Some []; Rag.rpc_error := None |} |}.

Definition no_hits : Rag.RagResult := {| Rag.products := []; Rag.faqs := [] |}.

Definition has_hits (r : Rag.RagResult) : bool :=
  match Rag.products r, Rag.faqs r with
  | [], [] => false
  | _, _ => true
  end.

(** The cache cannot answer for [tenantId] at the next clock reading:
    it has no entry, or one that expires at or before that reading. *)
Definition stale (w : Tenant.World) (s : Tenant.St) (tenantId : string) : Prop :=
  match Tenant.cache s !! tenantId with
  | None => True
  | Some e => Tenant.expiresAt e <= Tenant.clock w (Tenant.ticks s)
  end.

(** What [getTenant] makes of an answer of the store. *)
Definition store_answer (r : Tenant.StoreResult) : Js.result (option Tenant.TenantConfig) :=
  match r with
  | Tenant.Found row => Js.Ok (Some (Tenant.map_row row))
  | Tenant.Failed code msg =>
      if String.eqb code "PGRST116" then Js.Ok None
      else Js.Throw (Js.Error ("Failed to fetch tenant: " +:+ msg))
  end.

(** Every tenant held by the cache is a row the store once returned for
    the id it is cached under. *)
Definition cache_from_store (w : Tenant.World) (s : Tenant.St) : Prop :=
  forall tenantId e t,
    Tenant.cache s !! tenantId = Some e -> Tenant.tenant e = Some t ->
    exists h row, Tenant.store w h tenantId = Tenant.Found row /\ t = Tenant.map_row row.

Definition acme_row : Tenant.TenantRow :=
  {| Tenant.row_id := "acme"; Tenant.row_name := "Acme";
     Tenant.shopify_store_url := None; Tenant.system_prompt := Some "";
     Tenant.widget_config := Js.Obj []; Tenant.created_at := "2024-01-01";
     Tenant.updated_at := "2024-01-01" |}.

Definition acme_renamed : Tenant.TenantRow :=
  {| Tenant.row_id := "acme"; Tenant.row_name := "Acme Ltd";
     Tenant.shopify_store_url := None; Tenant.system_prompt := Some "Be brief.";
     Tenant.widget_config := Js.Obj []; Tenant.created_at := "2024-01-01";
     Tenant.updated_at := "2024-02-01" |}.

(** A store in which tenant "acme" is renamed after the first query,
    and a clock advancing one second per reading. *)
Definition acme_world : Tenant.World :=
  {| Tenant.store := fun h _ =>
       match h with [] => Tenant.Found acme_row | _ => Tenant.Found acme_renamed end;
     Tenant.clock := fun n => 1000 * Z.of_nat n |}.

(** The tools that only read the session-to-cart map by design. *)
Definition changes_carts (toolName : string) : bool := String.eqb toolName "add_to_cart".

(** A tenant id as the platform hands them out: without a colon. *)
Definition colon_free (s : string) : Prop := Js.includes ":" s = false.

(** The draft-order lines made of the lines of a cart. *)
Definition order_lines (cart : Shopify.CartResponse) : list Shopify.DraftOrderLine :=
  map (fun line => {| Shopify.variantId := Shopify.merchandiseId line;
                      Shopify.dl_quantity := Shopify.quantity line |}) (Shopify.lines cart).

(** The demo platform with one item in every cart. *)
Definition stocked_cart (cartId : string) : Shopify.CartResponse :=
  {| Shopify.cartId := cartId;
     Shopify.checkoutUrl := "https://shop.myshopify.com/cart/c1";
     Shopify.lines := [{| Shopify.merchandiseId := Js.Str "gid://shop/Variant/1";
                          Shopify.quantity := Js.Number (Js.Num 2) |}] |}.

Definition stocked_tools : Tools.World :=
  {| Tools.rag_searchProducts := Tools.rag_searchProducts demo_tools;
     Tools.rag_searchFaqs := Tools.rag_searchFaqs demo_tools;
     Tools.rag_search := Tools.rag_search demo_tools;
     Tools.tenant_getTenant := Tools.tenant_getTenant demo_tools;
     Tools.storefront_searchProducts := Tools.storefront_searchProducts demo_tools;
     Tools.storefront_getProduct := Tools.storefront_getProduct demo_tools;
     Tools.storefront_createCart := Tools.storefront_createCart demo_tools;
     Tools.storefront_addToCart := Tools.storefront_addToCart demo_tools;
     Tools.storefront_getCart := fun _ _ cartId => Js.Ok (stocked_cart cartId);
     Tools.admin_createDraftOrder := Tools.admin_createDraftOrder demo_tools |}.

(** The demo platform after the customer's cart has expired. *)
Definition expired_cart_tools : Tools.World :=
  {| Tools.rag_searchProducts := Tools.rag_searchProducts demo_tools;
     Tools.rag_searchFaqs := Tools.rag_searchFaqs demo_tools;
     Tools.rag_search := Tools.rag_search demo_tools;
     Tools.tenant_getTenant := Tools.tenant_getTenant demo_tools;
     Tools.storefront_searchProducts := Tools.storefront_searchProducts demo_tools;
     Tools.storefront_getProduct := Tools.storefront_getProduct demo_tools;
     Tools.storefront_createCart := Tools.storefront_createCart demo_tools;
     Tools.storefront_addToCart := Tools.storefront_addToCart demo_tools;
     Tools.storefront_getCart := fun _ _ _ => Js.Throw (Js.Error "Cart not found");
     Tools.admin_createDraftOrder := Tools.admin_createDraftOrder demo_tools |}.

Definition demo_storefront : Shopify.StorefrontConfig :=
  {| Shopify.sf_storeUrl := "shop.myshopify.com";
     Shopify.sf_storefrontToken := "public-token" |}.

Definition order_input : gmap string Js.value := {[ "email" := Js.Str "ann@example.org" ]}.

Definition other_session : Tools.AgentContext :=
  {| Tools.tenantId := "t1"; Tools.sessionId := "s2"; Tools.ctx_cartId := None |}.

(** The conversation as the tool loop starts from it. *)
Definition as_conversation (messages : list Agent.ChatMessage)
  : list Agent.ConversationMessage :=
  map (fun m => {| Agent.cm_role := Agent.role m;
                   Agent.cm_content := Agent.Text (Agent.msg_content m) |}) messages.

(** The two messages one tool round adds to the conversation. *)
Definition round_messages (r : Agent.ClaudeResponse) (results : list Agent.ToolResultBlock)
  : list Agent.ConversationMessage :=
  [{| Agent.cm_role := Agent.assistant; Agent.cm_content := Agent.Blocks (Agent.content r) |};
   {| Agent.cm_role := Agent.user; Agent.cm_content := Agent.ToolResults results |}].

(** The cart id a tool call reports, if it succeeded and reports one. *)
Definition reported_cart (c : Agent.ToolCall) : option string :=
  if Tools.success (Agent.result_of c)
  then Tools.data (Agent.result_of c) ≫= Agent.data_cartId else None.

Definition reported_checkout (c : Agent.ToolCall) : option string :=
  if Tools.success (Agent.result_of c)
  then Tools.data (Agent.result_of c) ≫= Agent.data_checkoutUrl else None.

(** Where the cart id and the checkout link of an answer come from: the
    request context, or a tool call of this very turn. *)
Definition cart_from (contextCart : option string) (calls : list Agent.ToolCall)
    (cartId : option string) : Prop :=
  cartId = contextCart
  \/ exists c id, c ∈ calls /\ reported_cart c = Some id /\ cartId = Some id.

Definition checkout_from (calls : list Agent.ToolCall) (url : option string) : Prop :=
  url = None
  \/ exists c u, c ∈ calls /\ reported_checkout c = Some u /\ url = Some u.

(** The tool calls of one model turn: each block is handed to the
    executor in turn, under its name and with its input, in the request
    context with the cart id left by the calls before it; the executor
    state is threaded through. *)
Inductive executed_in_order (tw : Tools.World) (context : Tools.AgentContext)
  : list Agent.ToolUseBlock -> option string -> Tools.St
    -> list Agent.ToolCall -> Tools.St -> Prop :=
| executed_none cart e : executed_in_order tw context [] cart e [] e
| executed_next b blocks cart e e1 e2 result calls :
    Tools.execute tw (Agent.tu_name b) (Agent.tu_input b)
      {| Tools.tenantId := Tools.tenantId context;
         Tools.sessionId := Tools.sessionId context;
         Tools.ctx_cartId := cart |} e
    = (e1, Js.Ok result) ->
    executed_in_order tw context blocks
      (match reported_cart {| Agent.tool := Agent.tu_name b; Agent.result_of := result |} with
       | Some c => Some c
       | None => cart
       end) e1 calls e2 ->
    executed_in_order tw context (b :: blocks) cart e
      ({| Agent.tool := Agent.tu_name b; Agent.result_of := result |} :: calls) e2.

(** The tool_result blocks for the calls of a turn: the result of each
    call under the id of its block. *)
Fixpoint results_for (blocks : list Agent.ToolUseBlock) (calls : list Agent.ToolCall)
  : list Agent.ToolResultBlock :=
  match blocks, calls with
  | b :: blocks, c :: calls =>
      {| Agent.tool_use_id := Agent.tu_id b; Agent.tr_content := Agent.result_of c |}
      :: results_for blocks calls
  | _, _ => []
  end.

(** A model that asks for the cart once and then answers. *)
Definition one_round_world : Agent.World :=
  {| Agent.tools := demo_tools;
     Agent.claude := fun h _ =>
       match h with
       | [] => Js.Ok cart_loop_response
       | _ => Js.Ok {| Agent.content := [Agent.TextBlock "Your cart is empty."];
                       Agent.stop_reason := Agent.end_turn |}
       end |}.

(** An agent whose retriever is down. *)
Definition retrieval_down_tools : Tools.World :=
  {| Tools.rag_searchProducts := Tools.rag_searchProducts demo_tools;
     Tools.rag_searchFaqs := Tools.rag_searchFaqs demo_tools;
     Tools.rag_search := fun _ _ _ => Js.Throw (Js.Error "Product search failed: timeout");
     Tools.tenant_getTenant := Tools.tenant_getTenant demo_tools;
     Tools.storefront_searchProducts := Tools.storefront_searchProducts demo_tools;
     Tools.storefront_getProduct := Tools.storefront_getProduct demo_tools;
     Tools.storefront_createCart := Tools.storefront_createCart demo_tools;
     Tools.storefront_addToCart := Tools.storefront_addToCart demo_tools;
     Tools.storefront_getCart := Tools.storefront_getCart demo_tools;
     Tools.admin_createDraftOrder := Tools.admin_createDraftOrder demo_tools |}.

Definition retrieval_down_world : Agent.World :=
  {| Agent.tools := retrieval_down_tools;
     Agent.claude := Agent.claude direct_world |}.

(** ** Proof steps shared by the case analyses on tool runs *)

(** Run a tool symbolically: one case per answer of a collaborator. *)
Ltac run_tool :=
  unfold Js.bind, Js.lift, Js.ret, Js.throw, Js.try_catch, Tools.call, Tools.getCartId,
    Tools.setCartId;
  repeat (simpl; case_match); simplify_eq/=; try done.


(** A product of the live catalog, and the demo platform with an empty
    indexed catalog and that one product in the live catalog. *)
Definition harbor_sneaker : Shopify.ShopifyProduct :=
  {| Shopify.p_title := "Harbor canvas sneaker"; Shopify.handle := "harbor-canvas-sneaker";
     Shopify.p_description := Some "Blue canvas sneaker";
     Shopify.minPrice := Js.Num (2499 # 100); Shopify.maxPrice := Js.Num (2499 # 100);
     Shopify.images := [];
     Shopify.variants := [{| Shopify.v_id := "gid://shop/Variant/1"; Shopify.v_title := "42";
                             Shopify.v_price := Js.Num (2499 # 100);
                             Shopify.available := true |}] |}.

Definition live_catalog_tools : Tools.World :=
  {| Tools.rag_searchProducts := Tools.rag_searchProducts demo_tools;
     Tools.rag_searchFaqs := Tools.rag_searchFaqs demo_tools;
     Tools.rag_search := Tools.rag_search demo_tools;
     Tools.tenant_getTenant := Tools.tenant_getTenant demo_tools;
     Tools.storefront_searchProducts := fun _ _ _ _ => Js.Ok [harbor_sneaker];
     Tools.storefront_getProduct := Tools.storefront_getProduct demo_tools;
     Tools.storefront_createCart := Tools.storefront_createCart demo_tools;
     Tools.storefront_addToCart := Tools.storefront_addToCart demo_tools;
     Tools.storefront_getCart := Tools.storefront_getCart demo_tools;
     Tools.admin_createDraftOrder := Tools.admin_createDraftOrder demo_tools |}.


(* ===================================================================== *)
(** * Part III. Properties                                                *)
(* ===================================================================== *)

(** ** Similarity floor of the retriever *)

Lemma geb_meets_floor floor s : Js.geb s floor = true <-> meets_floor floor s.
Proof.
  unfold meets_floor. destruct s as [|x], floor as [|f]; simpl; split;
    try discriminate; try (intros (? & ? & ? & ? & _); discriminate).
  - intros H. exists f, x. repeat split. by apply Qle_bool_iff.
  - intros (f' & x' & [= <-] & [= <-] & H). by apply Qle_bool_iff.
Qed.

Lemma keep_products_spec cfg rows h :
  In h (Rag.keep_products cfg rows) <->
  exists row, In row (default [] rows)
    /\ Js.geb (Rag.row_similarity row) (Rag.cfg_similarityThreshold cfg) = true
    /\ h = Rag.map_product row.
Proof.
  unfold Rag.keep_products. rewrite in_map_iff. split.
  - intros (row & <- & Hin). apply filter_In in Hin as [Hin Hge]. eauto.
  - intros (row & Hin & Hge & ->). exists row. split; [done|].
    apply filter_In. done.
Qed.

Lemma keep_faqs_spec cfg rows h :
  In h (Rag.keep_faqs cfg rows) <->
  exists row, In row (default [] rows)
    /\ Js.geb (Rag.row_faq_similarity row) (Rag.cfg_similarityThreshold cfg) = true
    /\ h = Rag.map_faq row.
Proof.
  unfold Rag.keep_faqs. rewrite in_map_iff. split.
  - intros (row & <- & Hin). apply filter_In in Hin as [Hin Hge]. eauto.
  - intros (row & Hin & Hge & ->). exists row. split; [done|].
    apply filter_In. done.
Qed.

Lemma kept_product_meets_floor cfg rows h :
  In h (Rag.keep_products cfg rows) ->
  meets_floor (Rag.cfg_similarityThreshold cfg) (Rag.similarity h).
Proof.
  intros (row & _ & Hge & ->)%keep_products_spec. by apply geb_meets_floor.
Qed.

Lemma kept_faq_meets_floor cfg rows h :
  In h (Rag.keep_faqs cfg rows) ->
  meets_floor (Rag.cfg_similarityThreshold cfg) (Rag.faq_similarity h).
Proof.
  intros (row & _ & Hge & ->)%keep_faqs_spec. by apply geb_meets_floor.
Qed.

(** What the three search methods return when they return: the rows of
    the procedure answers, filtered. *)
Lemma searchProducts_returns w cfg tenantId query limit log log' hits :
  Rag.searchProducts w cfg tenantId query limit log = (log', Js.Ok hits) ->
  exists rows, hits = Rag.keep_products cfg rows.
Proof.
  unfold Rag.searchProducts. destruct (Rag.blank query).
  { intros [= _ <-]. by exists None. }
  unfold Js.bind, Rag.do_embedQuery, Rag.do_rpc_products.
  destruct (Rag.embedQuery w log query); [|discriminate].
  match goal with |- context [Rag.rpc_error ?r] => destruct (Rag.rpc_error r) eqn:E end;
    [discriminate|].
  intros [= _ <-]. eauto.
Qed.

Lemma searchFaqs_returns w cfg tenantId query limit log log' hits :
  Rag.searchFaqs w cfg tenantId query limit log = (log', Js.Ok hits) ->
  exists rows, hits = Rag.keep_faqs cfg rows.
Proof.
  unfold Rag.searchFaqs. destruct (Rag.blank query).
  { intros [= _ <-]. by exists None. }
  unfold Js.bind, Rag.do_embedQuery, Rag.do_rpc_faqs.
  destruct (Rag.embedQuery w log query); [|discriminate].
  match goal with |- context [Rag.rpc_error ?r] => destruct (Rag.rpc_error r) eqn:E end;
    [discriminate|].
  intros [= _ <-]. eauto.
Qed.

Lemma search_returns w cfg tenantId query log log' r :
  Rag.search w cfg tenantId query log = (log', Js.Ok r) ->
  exists prows frows,
    Rag.products r = Rag.keep_products cfg prows /\ Rag.faqs r = Rag.keep_faqs cfg frows.
Proof.
  unfold Rag.search. destruct (Rag.blank query).
  { intros [= _ <-]. by exists None, None. }
  unfold Js.bind, Rag.do_embedQuery, Rag.do_rpc_products, Rag.do_rpc_faqs.
  destruct (Rag.embedQuery w log query); [|discriminate].
  repeat match goal with
         | |- context [match Rag.rpc_error ?r with _ => _ end] =>
             destruct (Rag.rpc_error r) eqn:?; [discriminate|]
         end.
  intros [= _ <-]. simpl. eauto.
Qed.

(** C7. Every hit returned by [searchProducts], [searchFaqs] and [search]
    has a similarity at or above the configured floor (0.25 when none is
    configured), and no row of the vector store whose similarity is
    below the floor appears in the output of any of them. *)
Theorem similarity_floor_enforced
    (w : Rag.World) (config : option Rag.RagConfig) (tenantId query : string)
    (limit : option Js.num) (log : list Rag.Call) :
  let cfg := Rag.make_config config in
  let floor := Rag.cfg_similarityThreshold cfg in
  (config = None -> floor = Js.Num (1 # 4))
  /\ match Rag.searchProducts w cfg tenantId query limit log with
     | (_, Js.Ok hits) =>
         (forall h, In h hits -> meets_floor floor (Rag.similarity h))
         /\ (forall row, Js.geb (Rag.row_similarity row) floor = false ->
                         ~ In (Rag.map_product row) hits)
     | (_, Js.Throw _) => True
     end
  /\ match Rag.searchFaqs w cfg tenantId query limit log with
     | (_, Js.Ok hits) =>
         (forall h, In h hits -> meets_floor floor (Rag.faq_similarity h))
         /\ (forall row, Js.geb (Rag.row_faq_similarity row) floor = false ->
                         ~ In (Rag.map_faq row) hits)
     | (_, Js.Throw _) => True
     end
  /\ match Rag.search w cfg tenantId query log with
     | (_, Js.Ok r) =>
         (forall h, In h (Rag.products r) -> meets_floor floor (Rag.similarity h))
         /\ (forall h, In h (Rag.faqs r) -> meets_floor floor (Rag.faq_similarity h))
         /\ (forall row, Js.geb (Rag.row_similarity row) floor = false ->
                         ~ In (Rag.map_product row) (Rag.products r))
         /\ (forall row, Js.geb (Rag.row_faq_similarity row) floor = false ->
                         ~ In (Rag.map_faq row) (Rag.faqs r))
     | (_, Js.Throw _) => True
     end.
Proof.
  intros cfg floor. split; [by intros ->|].
  assert (Hp : forall rows row, Js.geb (Rag.row_similarity row) floor = false ->
                 ~ In (Rag.map_product row) (Rag.keep_products cfg rows)).
  { intros rows row Hlow Hin. apply kept_product_meets_floor in Hin.
    apply geb_meets_floor in Hin. change (Rag.similarity (Rag.map_product row))
      with (Rag.row_similarity row) in Hin. fold floor in Hin. congruence. }
  assert (Hf : forall rows row, Js.geb (Rag.row_faq_similarity row) floor = false ->
                 ~ In (Rag.map_faq row) (Rag.keep_faqs cfg rows)).
  { intros rows row Hlow Hin. apply kept_faq_meets_floor in Hin.
    apply geb_meets_floor in Hin. change (Rag.faq_similarity (Rag.map_faq row))
      with (Rag.row_faq_similarity row) in Hin. fold floor in Hin. congruence. }
  repeat split.
  - destruct (Rag.searchProducts _ _ _ _ _ _) as [log' [hits|e]] eqn:E; [|done].
    apply searchProducts_returns in E as [rows ->]. split.
    + intros h. apply kept_product_meets_floor.
    + apply Hp.
  - destruct (Rag.searchFaqs _ _ _ _ _ _) as [log' [hits|e]] eqn:E; [|done].
    apply searchFaqs_returns in E as [rows ->]. split.
    + intros h. apply kept_faq_meets_floor.
    + apply Hf.
  - destruct (Rag.search _ _ _ _ _) as [log' [r|e]] eqn:E; [|done].
    apply search_returns in E as (prows & frows & -> & ->). repeat split.
    + intros h. apply kept_product_meets_floor.
    + intros h. apply kept_faq_meets_floor.
    + apply Hp.
    + apply Hf.
Qed.

(** The floor at work on a store answer with one strong and one weak row. *)
Lemma similarity_floor_witness :
  snd (Rag.searchProducts rag_demo_world (Rag.make_config None) "t1" "shoes" None [])
  = Js.Ok [Rag.map_product rag_strong_row]
  /\ meets_floor (Js.Num (1 # 4)) (Js.Num (9 # 10)).
Proof.
  split; [reflexivity|].
  pose proof (similarity_floor_enforced rag_demo_world None "t1" "shoes" None [])
    as (_ & H & _).
  destruct (Rag.searchProducts _ _ _ _ _ _) as [log' [hits|e]] eqn:E;
    [|discriminate E].
  injection E as _ <-. destruct H as [H _].
  apply (H (Rag.map_product rag_strong_row)). left. reflexivity.
Defined.

(** ** Negative caching in the tenant resolver *)

Lemma getTenant_keeps_no_tenant w ttl tenantId other s :
  absent w tenantId -> no_tenant s tenantId ->
  no_tenant (fst (Tenant.getTenant w ttl other s)) tenantId.
Proof.
  intros Habs Hinv. unfold Tenant.getTenant.
  destruct (Tenant.blank other); [done|].
  unfold Js.bind, Tenant.fresh_entry.
  destruct (Tenant.cache s !! other) as [cached|] eqn:Hc; simpl.
  - destruct (Tenant.expiresAt cached >? _); simpl; [done|].
    destruct (Tenant.store w (Tenant.queries s) other) as [row|code msg] eqn:Hs; simpl.
    + intros e. simpl. destruct (decide (other = tenantId)) as [->|Hne].
      * destruct (Habs (Tenant.queries s)) as [m Hm]. congruence.
      * rewrite lookup_insert_ne by done. apply Hinv.
    + destruct (String.eqb code "PGRST116"); simpl; [|done].
      intros e. simpl. destruct (decide (other = tenantId)) as [->|Hne].
      * rewrite lookup_insert_eq. by intros [= <-].
      * rewrite lookup_insert_ne by done. apply Hinv.
  - destruct (Tenant.store w (Tenant.queries s) other) as [row|code msg] eqn:Hs; simpl.
    + intros e. simpl. destruct (decide (other = tenantId)) as [->|Hne].
      * destruct (Habs (Tenant.queries s)) as [m Hm]. congruence.
      * rewrite lookup_insert_ne by done. apply Hinv.
    + destruct (String.eqb code "PGRST116"); simpl; [|done].
      intros e. simpl. destruct (decide (other = tenantId)) as [->|Hne].
      * rewrite lookup_insert_eq. by intros [= <-].
      * rewrite lookup_insert_ne by done. apply Hinv.
Qed.

Lemma clearCache_keeps_no_tenant o s tenantId :
  no_tenant s tenantId -> no_tenant (fst (Tenant.clearCache o s)) tenantId.
Proof.
  intros Hinv e. unfold Tenant.clearCache. simpl.
  destruct o as [k|]; [destruct (String.eqb k "")|]; try by rewrite lookup_empty.
  destruct (decide (k = tenantId)) as [->|Hne].
  - by rewrite lookup_delete_eq.
  - rewrite lookup_delete_ne by done. apply Hinv.
Qed.

(** A reachable cache never holds a tenant under an id the store does
    not know. *)
Lemma reachable_no_tenant w ttl s tenantId :
  absent w tenantId -> reachable w ttl s -> no_tenant s tenantId.
Proof.
  intros Habs. induction 1.
  - intros e. unfold Tenant.init. simpl. by rewrite lookup_empty.
  - by apply getTenant_keeps_no_tenant.
  - by apply clearCache_keeps_no_tenant.
Qed.

(** One call for an absent id: either a cached "not found" answers, or
    the store is asked once and "not found" is cached. *)
Lemma getTenant_absent_step w ttl tenantId s :
  Tenant.blank tenantId = false -> absent w tenantId -> no_tenant s tenantId ->
  let '(s1, r) := Tenant.getTenant w ttl tenantId s in
  r = Js.Ok None /\
  ((Tenant.queries s1 = Tenant.queries s /\ Tenant.cache s1 = Tenant.cache s
    /\ Tenant.ticks s1 = S (Tenant.ticks s)
    /\ exists e, Tenant.cache s !! tenantId = Some e
                 /\ Tenant.clock w (Tenant.ticks s) < Tenant.expiresAt e)
   \/ (Tenant.queries s1 = Tenant.queries s ++ [tenantId]
       /\ (Tenant.ticks s < Tenant.ticks s1 <= Tenant.ticks s + 2)%nat
       /\ exists t, (Tenant.ticks s <= t < Tenant.ticks s + 2)%nat
            /\ Tenant.cache s1 !! tenantId
               = Some {| Tenant.tenant := None;
                         Tenant.expiresAt := Tenant.clock w t + ttl |})).
Proof.
  intros Hb Habs Hinv. unfold Tenant.getTenant. rewrite Hb.
  unfold Js.bind, Tenant.fresh_entry.
  destruct (Habs (Tenant.queries s)) as [msg Hs].
  destruct (Tenant.cache s !! tenantId) as [cached|] eqn:Hc; simpl.
  - destruct (Tenant.expiresAt cached >? _) eqn:Hexp; simpl.
    + split; [by rewrite (Hinv _ Hc)|]. left. repeat split.
      exists cached. split; [done|]. lia.
    + rewrite Hs. simpl. split; [done|]. right. simpl. repeat split; try lia.
      exists (S (Tenant.ticks s)). split; [lia|]. by rewrite lookup_insert_eq.
  - rewrite Hs. simpl. split; [done|]. right. simpl. repeat split; try lia.
    exists (Tenant.ticks s). split; [lia|]. by rewrite lookup_insert_eq.
Qed.

(** C9. For a tenant id the store does not know, two consecutive
    [getTenant] calls within the cache TTL both return [null] and issue
    at most one store query; when the first call reaches the store it
    caches the "not found" answer and the second call is served from
    the cache without reaching the store. *)
Theorem negative_caching
    (w : Tenant.World) (cacheTtlMs : option Z) (tenantId : string) (s : Tenant.St) :
  let ttl := Tenant.cacheTtl cacheTtlMs in
  reachable w ttl s ->
  absent w tenantId ->
  within_ttl w ttl s ->
  (cacheTtlMs = None -> ttl = 300000) /\
  let '(s1, r1) := Tenant.getTenant w ttl tenantId s in
  let '(s2, r2) := Tenant.getTenant w ttl tenantId s1 in
  r1 = Js.Ok None /\ r2 = Js.Ok None
  /\ (length (Tenant.queries s2) <= length (Tenant.queries s) + 1)%nat
  /\ (Tenant.queries s1 <> Tenant.queries s ->
        Tenant.queries s1 = Tenant.queries s ++ [tenantId]
        /\ (exists e, Tenant.cache s1 !! tenantId = Some e /\ Tenant.tenant e = None)
        /\ Tenant.queries s2 = Tenant.queries s1).
Proof.
  intros ttl Hreach Habs Hwin. split; [by intros ->|].
  pose proof (reachable_no_tenant _ _ _ _ Habs Hreach) as Hinv.
  destruct (Tenant.blank tenantId) eqn:Hb.
  { unfold Tenant.getTenant. rewrite Hb. simpl. repeat split; try done. lia. }
  pose proof (getTenant_absent_step w ttl tenantId s Hb Habs Hinv) as H1.
  destruct (Tenant.getTenant w ttl tenantId s) as [s1 r1] eqn:E1.
  destruct H1 as [-> H1].
  assert (Hinv1 : no_tenant s1 tenantId).
  { replace s1 with (fst (Tenant.getTenant w ttl tenantId s)) by (by rewrite E1).
    by apply getTenant_keeps_no_tenant. }
  destruct H1 as [(Hq1 & Hc1 & Ht1 & e & He & Hexp)
                 |(Hq1 & Ht1 & t & Ht & Hc1)].
  - (* the first call was answered by a cached "not found" *)
    pose proof (getTenant_absent_step w ttl tenantId s1 Hb Habs Hinv1) as H2.
    destruct (Tenant.getTenant w ttl tenantId s1) as [s2 r2] eqn:E2.
    destruct H2 as [-> H2]. split; [done|]. split; [done|]. split.
    + destruct H2 as [(Hq2 & _)|(Hq2 & _)]; rewrite Hq2, Hq1, ?length_app; simpl; lia.
    + intros Hne. by rewrite Hq1 in Hne.
  - (* the first call asked the store: the entry it wrote is still fresh *)
    assert (Tenant.clock w (Tenant.ticks s1) < Tenant.clock w t + ttl) as Hlt
      by (apply Hwin; lia).
    unfold Tenant.getTenant. rewrite Hb.
    unfold Js.bind, Tenant.fresh_entry. rewrite Hc1. simpl.
    destruct (_ >? _) eqn:Hexp; [|lia]. simpl.
    split; [done|]. split; [done|]. split.
    + rewrite Hq1, length_app. simpl. lia.
    + intros _. split; [done|]. split; [|done]. eauto.
Qed.

(** The property on a fresh service: one query for two lookups. *)
Lemma negative_caching_witness :
  let '(s1, r1) := Tenant.getTenant tenant_demo_world (Tenant.cacheTtl None) "ghost"
                     Tenant.init in
  let '(s2, r2) := Tenant.getTenant tenant_demo_world (Tenant.cacheTtl None) "ghost" s1 in
  r1 = Js.Ok None /\ r2 = Js.Ok None /\ Tenant.queries s2 = ["ghost"].
Proof.
  pose proof (negative_caching tenant_demo_world None "ghost" Tenant.init) as H.
  simpl in H.
  assert (Hw : within_ttl tenant_demo_world (Tenant.cacheTtl None) Tenant.init).
  { intros i j Hi Hj. unfold tenant_demo_world, Tenant.cacheTtl, Tenant.TENANT_CACHE_TTL_MS.
    simpl in *. lia. }
  assert (Ha : absent tenant_demo_world "ghost") by (intros h; by exists "no rows").
  specialize (H (reach_init _ _) Ha Hw) as [_ H].
  destruct (Tenant.getTenant _ _ _ Tenant.init) as [s1 r1] eqn:E1.
  destruct (Tenant.getTenant _ _ _ s1) as [s2 r2] eqn:E2.
  destruct H as (H1 & H2 & _ & H4). split; [done|]. split; [done|].
  vm_compute in E1. injection E1 as <- _. vm_compute in E2. by injection E2 as <- _.
Defined.

(** ** The tool executor *)

Lemma not_a_tool_dispatch w toolName input context :
  ~ In toolName Tools.AGENT_TOOLS ->
  Tools.dispatch w toolName input context
  = Js.ret (Tools.fail ("Unknown tool: " +:+ toolName)).
Proof.
  intros Hnot. unfold Tools.dispatch.
  repeat match goal with
         | |- context [String.eqb toolName ?n] =>
             destruct (String.eqb_spec toolName n) as [->|_];
             [exfalso; apply Hnot; unfold Tools.AGENT_TOOLS; simpl; tauto|]
         end.
  reflexivity.
Qed.

(** C2. [execute] never throws: whatever the tool name, the input and
    the behaviour of the collaborators, it returns a result.  A name
    outside the six registered tools gives the failure
    "Unknown tool: <name>" and touches nothing; an exception raised while
    a tool runs becomes a failure carrying the error's message (or
    "Tool execution failed" when the thrown value is not an [Error]). *)
Theorem execute_never_throws
    (w : Tools.World) (toolName : string) (input : gmap string Js.value)
    (context : Tools.AgentContext) (s : Tools.St) :
  (exists s' r, Tools.execute w toolName input context s = (s', Js.Ok r))
  /\ (~ In toolName Tools.AGENT_TOOLS ->
      Tools.execute w toolName input context s
      = (s, Js.Ok {| Tools.success := false; Tools.data := None;
                     Tools.error := Some ("Unknown tool: " +:+ toolName) |}))
  /\ (forall s' e,
        Tools.dispatch w toolName input context s = (s', Js.Throw e) ->
        Tools.execute w toolName input context s
        = (s', Js.Ok {| Tools.success := false; Tools.data := None;
                        Tools.error := Some (Js.message_or "Tool execution failed" e) |})).
Proof.
  unfold Tools.execute, Js.try_catch. repeat split.
  - destruct (Tools.dispatch w toolName input context s) as [s' [r|e]]; eauto.
  - intros Hnot. by rewrite not_a_tool_dispatch.
  - intros s' e ->. reflexivity.
Qed.

(** An unregistered name, and a retriever failure inside a registered
    tool, both end as failure results. *)
Lemma execute_never_throws_witness :
  Tools.execute demo_tools "drop_database" ∅ demo_context Tools.init
  = (Tools.init, Js.Ok (Tools.fail "Unknown tool: drop_database"))
  /\ snd (Tools.execute failing_rag_tools "search_products"
            {[ "query" := Js.Str "blue shoes" ]} demo_context Tools.init)
     = Js.Ok (Tools.fail "Product search failed: timeout").
Proof.
  split.
  - apply (execute_never_throws demo_tools "drop_database" ∅ demo_context Tools.init).
    unfold Tools.AGENT_TOOLS. simpl. intros H.
    repeat (destruct H as [H|H]; [discriminate H|]). exact H.
  - pose proof (execute_never_throws failing_rag_tools "search_products"
                  {[ "query" := Js.Str "blue shoes" ]} demo_context Tools.init)
      as (_ & _ & H).
    rewrite (H {| Tools.cartStore := ∅;
                  Tools.log := [Tools.RagSearchProducts "t1" "blue shoes"
                                  (Js.Number (Js.Num 5))] |}
               (Js.Error "Product search failed: timeout")); reflexivity.
Defined.

(** ** add_to_cart: the quantity sent to the commerce platform *)

(** What [addToCart] adds to the call history, and the single line any
    cart call in it carries. *)
Lemma addToCart_calls w input context s :
  exists new,
    Tools.log (fst (Tools.addToCart w input context s)) = Tools.log s ++ new
    /\ forall c lines, In c new -> cart_lines_sent c = Some lines ->
         lines = [{| Shopify.merchandiseId := Js.prop input "variantId";
                     Shopify.quantity :=
                       Js.or (Js.prop input "quantity") (Js.Number (Js.Num 1)) |}].
Proof.
  unfold Tools.addToCart.
  destruct (negb _); [exists []; simpl; split; [by rewrite app_nil_r|done]|].
  unfold Js.bind, Tools.call, Tools.getCartId, Tools.setCartId, Js.ret. simpl.
  destruct (Tools.tenant_getTenant w _ _) as [[tenant|]|e]; simpl;
    try (eexists [_]; split; [reflexivity|];
         intros c lines [<-|[]]; simpl; congruence).
  destruct (Shopify.createStorefrontClient tenant) as [storefront|]; simpl;
    try (eexists [_]; split; [reflexivity|];
         intros c lines [<-|[]]; simpl; congruence).
  destruct (Shopify.present _) as [existing|]; simpl.
  - destruct (Tools.storefront_addToCart w _ _ _ _) as [cart|e]; simpl;
      rewrite <- app_assoc; (eexists; split; [reflexivity|]);
      intros c lines [<-|[<-|[]]]; simpl; congruence.
  - destruct (Tools.storefront_createCart w _ _ _) as [cart|e]; simpl;
      rewrite <- app_assoc; (eexists; split; [reflexivity|]);
      intros c lines [<-|[<-|[]]]; simpl; congruence.
Qed.

(** C10. Whatever cart call the add_to_cart tool makes carries exactly
    one line, for the requested variant; its quantity is never falsy (so
    never 0, [null] or [NaN]), and it is exactly 1 whenever the quantity
    in the input is falsy or missing. *)
Theorem add_to_cart_quantity
    (w : Tools.World) (input : gmap string Js.value)
    (context : Tools.AgentContext) (s : Tools.St) :
  exists new,
    Tools.log (fst (Tools.execute w "add_to_cart" input context s)) = Tools.log s ++ new
    /\ forall c lines, In c new -> cart_lines_sent c = Some lines ->
         exists q,
           lines = [{| Shopify.merchandiseId := Js.prop input "variantId";
                       Shopify.quantity := q |}]
           /\ Js.truthy q = true
           /\ (Js.truthy (Js.prop input "quantity") = false -> q = Js.Number (Js.Num 1)).
Proof.
  destruct (addToCart_calls w input context s) as (new & Hlog & Hlines).
  exists new. split.
  - unfold Tools.execute, Js.try_catch, Tools.dispatch. simpl.
    destruct (Tools.addToCart w input context s) as [s' [r|e]]; exact Hlog.
  - intros c lines Hin Hsent. eexists. split; [by eapply Hlines|].
    unfold Js.or. destruct (Js.truthy (Js.prop input "quantity")) eqn:Hq.
    + split; [done|discriminate].
    + split; [reflexivity|done].
Qed.

(** Quantity 0 in the input: the cart is created with quantity 1. *)
Lemma add_to_cart_quantity_witness :
  Tools.log (fst (Tools.execute demo_tools "add_to_cart"
                    {[ "variantId" := Js.Str "gid://shop/Variant/1";
                       "quantity" := Js.Number (Js.Num 0) ]}
                    demo_context Tools.init))
  = [Tools.GetTenant "t1";
     Tools.StorefrontCreateCart
       {| Shopify.sf_storeUrl := "shop.myshopify.com";
          Shopify.sf_storefrontToken := "public-token" |}
       [{| Shopify.merchandiseId := Js.Str "gid://shop/Variant/1";
           Shopify.quantity := Js.Number (Js.Num 1) |}]]
  /\ exists q,
       [{| Shopify.merchandiseId := Js.Str "gid://shop/Variant/1";
           Shopify.quantity := Js.Number (Js.Num 1) |}]
       = [{| Shopify.merchandiseId := Js.Str "gid://shop/Variant/1";
             Shopify.quantity := q |}]
       /\ Js.truthy q = true.
Proof.
  split; [vm_compute; reflexivity|].
  destruct (add_to_cart_quantity demo_tools
              {[ "variantId" := Js.Str "gid://shop/Variant/1";
                 "quantity" := Js.Number (Js.Num 0) ]}
              demo_context Tools.init) as (new & Hlog & H).
  assert (Hnew : new = [Tools.GetTenant "t1";
     Tools.StorefrontCreateCart
       {| Shopify.sf_storeUrl := "shop.myshopify.com";
          Shopify.sf_storefrontToken := "public-token" |}
       [{| Shopify.merchandiseId := Js.Str "gid://shop/Variant/1";
           Shopify.quantity := Js.Number (Js.Num 1) |}]]).
  { vm_compute in Hlog. symmetry. exact Hlog. }
  subst new.
  destruct (H _ _ (or_intror (or_introl eq_refl)) eq_refl) as (q & Hl & Hq & _).
  exists q. split; [|exact Hq].
  rewrite Hl. vm_compute. reflexivity.
Defined.

(** ** search_products: indexed catalog first, live catalog as fallback *)

(** C8 (as stated) fails for a tenant id the resolver does not know: the
    indexed search has no hit, no commerce source is available, and the
    tool answers with the failure "Tenant not found" instead of a
    success carrying an empty product list. *)
Lemma search_products_unknown_tenant :
  Tools.rag_searchProducts unknown_tenant_tools [] "t1" "blue shoes" (Js.Number (Js.Num 5))
  = Js.Ok []
  /\ snd (Tools.execute unknown_tenant_tools "search_products"
            {[ "query" := Js.Str "blue shoes" ]} demo_context Tools.init)
     = Js.Ok {| Tools.success := false; Tools.data := None;
                Tools.error := Some "Tenant not found" |}
  /\ forall message,
       snd (Tools.execute unknown_tenant_tools "search_products"
              {[ "query" := Js.Str "blue shoes" ]} demo_context Tools.init)
       <> Js.Ok (Tools.succeed (Tools.NoProducts message)).
Proof.
  split; [reflexivity|]. split; [vm_compute; reflexivity|].
  intros message. vm_compute. discriminate.
Qed.

Lemma shown_database_products (hits : list Rag.ProductResult) :
  map Tools.dp_id (map Tools.format_database_product hits) = map Rag.id hits
  /\ map Tools.dp_title (map Tools.format_database_product hits) = map Rag.title hits.
Proof. by rewrite !map_map. Qed.

Lemma shown_shopify_products (products : list Shopify.ShopifyProduct) :
  map Tools.fp_handle (map Tools.formatProduct products) = map Shopify.handle products
  /\ map Tools.fp_title (map Tools.formatProduct products) = map Shopify.p_title products.
Proof. by rewrite !map_map. Qed.

(** C8 (amended). The search_products tool fails with "Search query is
    required", without calling anything, when the query is missing or
    blank.  For a non-blank query it first asks the indexed catalog.
    Hits of the indexed catalog are the answer, one entry per hit in
    order, and nothing else is asked.  With zero hits the tenant is
    looked up; the live commerce search is called only then and only
    when the tenant resolves with a storefront configured, in which
    case it is called, once, with the same query and limit, and the
    products it returns are the answer, one entry per product in order
    (a success also when there are none).  When the resolved tenant has
    no storefront, the result is a success with an empty product list
    and the message "No products found"; a tenant id that does not
    resolve gives the failure "Tenant not found". *)
Theorem search_products_policy
    (w : Tools.World) (input : gmap string Js.value)
    (context : Tools.AgentContext) (s : Tools.St) :
  let query := Js.prop input "query" in
  let limit := Js.or (Js.prop input "limit") (Js.Number (Js.Num 5)) in
  let tid := Tools.tenantId context in
  exists s' res new,
    Tools.execute w "search_products" input context s = (s', Js.Ok res)
    /\ Tools.log s' = Tools.log s ++ new
    /\ (Tools.required_text query = Js.Ok None ->
        res = Tools.fail "Search query is required" /\ new = [])
    /\ forall q, Tools.required_text query = Js.Ok (Some q) ->
       let first := Tools.RagSearchProducts tid q limit in
       let indexed := Tools.rag_searchProducts w (Tools.log s) tid q limit in
       let lookup := Tools.tenant_getTenant w (Tools.log s ++ [first]) tid in
       (exists rest, new = first :: rest)
       /\ (forall hits, indexed = Js.Ok hits -> hits <> [] ->
             new = [first]
             /\ exists shown,
                  res = Tools.succeed (Tools.DatabaseProducts shown)
                  /\ map Tools.dp_id shown = map Rag.id hits
                  /\ map Tools.dp_title shown = map Rag.title hits)
       /\ (forall client q' l', In (Tools.StorefrontSearchProducts client q' l') new ->
             indexed = Js.Ok []
             /\ exists tenant, lookup = Js.Ok (Some tenant)
                  /\ Shopify.createStorefrontClient tenant = Some client)
       /\ (forall tenant, indexed = Js.Ok [] -> lookup = Js.Ok (Some tenant) ->
             Shopify.createStorefrontClient tenant = None ->
             new = [first; Tools.GetTenant tid]
             /\ res = {| Tools.success := true;
                         Tools.data := Some (Tools.NoProducts "No products found");
                         Tools.error := None |})
       /\ (forall tenant client, indexed = Js.Ok [] -> lookup = Js.Ok (Some tenant) ->
             Shopify.createStorefrontClient tenant = Some client ->
             new = [first; Tools.GetTenant tid;
                    Tools.StorefrontSearchProducts client q limit]
             /\ forall products,
                  Tools.storefront_searchProducts w
                    (Tools.log s ++ [first; Tools.GetTenant tid]) client q limit
                  = Js.Ok products ->
                  exists shown,
                    res = {| Tools.success := true;
                             Tools.data := Some (Tools.ShopifyProducts shown);
                             Tools.error := None |}
                    /\ map Tools.fp_handle shown = map Shopify.handle products
                    /\ map Tools.fp_title shown = map Shopify.p_title products)
       /\ (indexed = Js.Ok [] -> lookup = Js.Ok None ->
             new = [first; Tools.GetTenant tid] /\ res = Tools.fail "Tenant not found").
Proof.
  intros query limit tid.
  unfold Tools.execute, Js.try_catch, Tools.dispatch. simpl.
  unfold Tools.searchProducts. fold query. fold limit. fold tid.
  unfold Js.bind at 1. unfold Js.lift.
  destruct (Tools.required_text query) as [[q|]|e] eqn:Hq; simpl.
  2:{ eexists _, _, []. rewrite app_nil_r. do 3 (split; [done|]). intros q0 [=]. }
  2:{ eexists _, _, []. rewrite app_nil_r. do 2 (split; [done|]).
      split; [intros [=]|intros q0 [=]]. }
  unfold Js.bind, Tools.call, Js.ret. simpl.
  destruct (Tools.rag_searchProducts w (Tools.log s) tid q limit)
    as [[|hit hits]|e] eqn:Hrag; simpl.
  - (* no indexed hit *)
    destruct (Tools.tenant_getTenant w _ tid) as [[tenant|]|e] eqn:Hten; simpl.
    + destruct (Shopify.createStorefrontClient tenant) as [storefront|] eqn:Hsf; simpl.
      * (* live search *)
        rewrite <- !app_assoc. simpl.
        destruct (Tools.storefront_searchProducts w _ storefront q limit)
          as [products|e] eqn:Hlive; simpl;
          eexists _, _, [_; _; _]; search_leaf q; rewrite Hrag, Hten;
          (split; [eauto|]); (split; [intros hits0 [= <-] Hne; done|]);
          (split; [intros client q' l' [H|[H|[H|[]]]]; try discriminate H;
                   injection H as <- _ _; eauto|]);
          (split; [intros tenant0 _ [= <-] Hc; congruence|]);
          (split; [|intros; discriminate]);
          intros tenant0 client _ [= <-] Hc; rewrite Hsf in Hc; injection Hc as <-;
          (split; [reflexivity|]); intros products0 Hl; rewrite Hlive in Hl;
          [injection Hl as <-|discriminate Hl].
        eexists. split; [reflexivity|]. apply shown_shopify_products.
      * (* no storefront *)
        rewrite <- app_assoc. eexists _, _, [_; _]. search_leaf q. rewrite Hrag, Hten.
        split; [eauto|]. split; [intros hits0 [= <-] Hne; done|].
        split; [no_live_search|]. split; [done|].
        split; [intros tenant0 client _ [= <-] Hc; congruence|].
        intros; discriminate.
    + (* unknown tenant *)
      rewrite <- app_assoc. eexists _, _, [_; _]. search_leaf q. rewrite Hrag, Hten.
      split; [eauto|]. split; [intros hits0 [= <-] Hne; done|].
      split; [no_live_search|]. split; [intros; discriminate|].
      split; [intros; discriminate|]. done.
    + (* the tenant lookup fails *)
      rewrite <- app_assoc. eexists _, _, [_; _]. search_leaf q. rewrite Hrag, Hten.
      split; [eauto|]. split; [intros hits0 [= <-] Hne; done|].
      split; [no_live_search|]. split; [intros; discriminate|].
      split; [intros; discriminate|]. intros; discriminate.
  - (* indexed hits *)
    eexists _, _, [_]. search_leaf q. rewrite Hrag.
    split; [eauto|]. split.
    { intros hits0 [= <-] _. split; [reflexivity|].
      eexists. split; [reflexivity|]. exact (shown_database_products (hit :: hits)). }
    split; [no_live_search|]. split; [intros; discriminate|].
    split; [intros; discriminate|]. intros; discriminate.
  - (* the indexed search fails *)
    eexists _, _, [_]. search_leaf q. rewrite Hrag.
    split; [eauto|]. split; [intros; discriminate|].
    split; [no_live_search|]. split; [intros; discriminate|].
    split; [intros; discriminate|]. intros; discriminate.
Qed.

(** The amended policy at work: a tenant without storefront, and a
    tenant whose live catalog has what the indexed one lacks. *)
Lemma search_products_policy_witness :
  snd (Tools.execute no_storefront_tools "search_products"
         {[ "query" := Js.Str "blue shoes" ]} demo_context Tools.init)
  = Js.Ok (Tools.succeed (Tools.NoProducts "No products found"))
  /\ exists s' shown,
       Tools.execute live_catalog_tools "search_products"
         {[ "query" := Js.Str "blue shoes" ]} demo_context Tools.init
       = (s', Js.Ok (Tools.succeed (Tools.ShopifyProducts shown)))
       /\ Tools.log s'
          = [Tools.RagSearchProducts "t1" "blue shoes" (Js.Number (Js.Num 5));
             Tools.GetTenant "t1";
             Tools.StorefrontSearchProducts demo_storefront "blue shoes"
               (Js.Number (Js.Num 5))]
       /\ map Tools.fp_handle shown = ["harbor-canvas-sneaker"].
Proof.
  split.
  - destruct (search_products_policy no_storefront_tools
                {[ "query" := Js.Str "blue shoes" ]} demo_context Tools.init)
      as (s' & res & new & Hex & _ & _ & H).
    destruct (H "blue shoes" eq_refl) as (_ & _ & _ & H3 & _).
    rewrite Hex. simpl. f_equal.
    apply (H3 bare_tenant); reflexivity.
  - destruct (search_products_policy live_catalog_tools
                {[ "query" := Js.Str "blue shoes" ]} demo_context Tools.init)
      as (s' & res & new & Hex & Hlog & _ & H).
    destruct (H "blue shoes" eq_refl) as (_ & _ & _ & _ & H4 & _).
    destruct (H4 demo_tenant demo_storefront eq_refl eq_refl eq_refl) as [Hnew Hres].
    destruct (Hres [harbor_sneaker] eq_refl) as (shown & -> & Hhandles & _).
    exists s', shown. split; [exact Hex|]. split; [|exact Hhandles].
    rewrite Hlog, Hnew. reflexivity.
Defined.

(** ** Cart continuity between add_to_cart and get_cart *)

(** C4 (as stated) fails when add_to_cart appended to a cart it knew only
    from [context.cartId]: nothing is stored in the session map, and a
    get_cart call of the same tenant and session whose context lacks the
    cart id reports an empty cart. *)
Lemma cart_continuity_needs_context :
  Tools.tenantId demo_context = Tools.tenantId returning_context
  /\ Tools.sessionId demo_context = Tools.sessionId returning_context
  /\ exists s1 cart added,
       Tools.execute demo_tools "add_to_cart" one_variant returning_context Tools.init
       = (s1, Js.Ok (Tools.succeed (Tools.CartAdded cart added)))
       /\ Tools.fc_cartId cart = "gid://shopify/Cart/c0"
       /\ Tools.cartStore s1 = ∅
       /\ snd (Tools.execute demo_tools "get_cart" ∅ demo_context s1)
          = Js.Ok (Tools.succeed (Tools.EmptyCart "Cart is empty")).
Proof.
  split; [reflexivity|]. split; [reflexivity|].
  eexists _, _, _. split; [vm_compute; reflexivity|].
  split; [reflexivity|]. split; [reflexivity|]. vm_compute. reflexivity.
Qed.

Lemma present_Some_ne (c : string) : c <> "" -> Shopify.present (Some c) = Some c.
Proof.
  intros Hc. unfold Shopify.present. by destruct (String.eqb_spec c "").
Qed.

Lemma present_Some_inv o (c : string) : Shopify.present o = Some c -> o = Some c /\ c <> "".
Proof.
  unfold Shopify.present. destruct o as [x|]; [|done].
  destruct (String.eqb_spec x ""); [done|]. by intros [= <-].
Qed.

(** What a successful add_to_cart leaves behind. *)
Lemma addToCart_success w input context s s1 cart added :
  Tools.execute w "add_to_cart" input context s
  = (s1, Js.Ok (Tools.succeed (Tools.CartAdded cart added))) ->
  (known_cart context s = None
   /\ Tools.cartStore s1 = <[Tools.sessionKey context := Tools.fc_cartId cart]> (Tools.cartStore s))
  \/ (exists existing client lines h returned,
        known_cart context s = Some existing
        /\ Tools.cartStore s1 = Tools.cartStore s
        /\ Tools.storefront_addToCart w h client existing lines = Js.Ok returned
        /\ Tools.fc_cartId cart = Shopify.cartId returned).
Proof.
  unfold Tools.execute, Js.try_catch, Tools.dispatch. simpl.
  unfold Tools.addToCart.
  destruct (negb _); [intros [=]|].
  destruct (known_cart context s) as [existing|] eqn:Hk;
    unfold known_cart, Tools.getCartId in Hk; simpl in Hk;
    unfold Js.bind, Tools.call, Tools.getCartId, Tools.setCartId, Js.ret; simpl;
    (destruct (Tools.tenant_getTenant w _ _) as [[tenant|]|e]; simpl;
       try (intros [=]; fail));
    (destruct (Shopify.createStorefrontClient tenant) as [storefront|]; simpl;
       try (intros [=]; fail));
    rewrite Hk; simpl.
  - destruct (Tools.storefront_addToCart w _ _ _ _) as [returned|e] eqn:Hadd; simpl;
      [|intros [=]].
    intros [= <- <- _]. right.
    match type of Hadd with
    | Tools.storefront_addToCart _ ?h _ _ ?l = _ => exists existing, storefront, l, h, returned
    end.
    split; [reflexivity|]. split; [reflexivity|]. split; [exact Hadd|reflexivity].
  - destruct (Tools.storefront_createCart w _ _ _) as [returned|e]; simpl; [|intros [=]].
    intros [= <- <- _]. left. split; reflexivity.
Qed.

(** C4 (amended). After a successful add_to_cart that produced a
    non-empty cart id [c], on a platform that reports carts under the id
    it is asked about, a get_cart call of the same tenant and session
    resolves the cart id [c] and, when the tenant resolves with a
    storefront, asks the storefront for the cart [c] and for nothing
    else, and reports the cart it is given, under the id [c] (when the
    storefront fails to give it, "Cart is empty or expired") -- provided
    the session map already held a cart id before add_to_cart (which
    then appended to that cart), or add_to_cart created the cart (then
    the session map holds [c]), or the get_cart context carries the same
    cart id as the add_to_cart context, or [c] itself. *)
Theorem cart_continuity
    (w : Tools.World) (input input' : gmap string Js.value)
    (context context' : Tools.AgentContext) (s s1 : Tools.St)
    (cart : Tools.FormattedCart) (added : Js.value) :
  echoes_cart_id w ->
  Tools.tenantId context' = Tools.tenantId context ->
  Tools.sessionId context' = Tools.sessionId context ->
  Tools.execute w "add_to_cart" input context s
  = (s1, Js.Ok (Tools.succeed (Tools.CartAdded cart added))) ->
  Tools.fc_cartId cart <> "" ->
  let c := Tools.fc_cartId cart in
  let tid := Tools.tenantId context' in
  let stored := Shopify.present (Tools.cartStore s !! Tools.sessionKey context) in
  (known_cart context s = None -> Tools.cartStore s1 !! Tools.sessionKey context' = Some c)
  /\ (stored <> None -> stored = Some c /\ Tools.cartStore s1 = Tools.cartStore s)
  /\ (stored <> None
      \/ known_cart context s = None
      \/ Tools.ctx_cartId context' = Tools.ctx_cartId context
      \/ Tools.ctx_cartId context' = Some c ->
      known_cart context' s1 = Some c
      /\ forall tenant client,
           Tools.tenant_getTenant w (Tools.log s1) tid = Js.Ok (Some tenant) ->
           Shopify.createStorefrontClient tenant = Some client ->
           exists s2 r2,
             Tools.execute w "get_cart" input' context' s1 = (s2, Js.Ok r2)
             /\ Tools.log s2
                = Tools.log s1 ++ [Tools.GetTenant tid; Tools.StorefrontGetCart client c]
             /\ Tools.cartStore s2 = Tools.cartStore s1
             /\ match Tools.storefront_getCart w (Tools.log s1 ++ [Tools.GetTenant tid])
                        client c with
                | Js.Ok cart2 =>
                    r2 = Tools.succeed (Tools.CartContents (Tools.formatCart cart2))
                    /\ Tools.fc_cartId (Tools.formatCart cart2) = c
                | Js.Throw _ =>
                    r2 = Tools.succeed (Tools.EmptyCart "Cart is empty or expired")
                end).
Proof.
  intros [Hadd Hget] Ht Hs Hexec Hne c tid stored.
  assert (Hkey : Tools.sessionKey context' = Tools.sessionKey context)
    by (unfold Tools.sessionKey; by rewrite Ht, Hs).
  apply addToCart_success in Hexec.
  assert (Hstored : stored <> None -> stored = Some c /\ Tools.cartStore s1 = Tools.cartStore s).
  { unfold stored. intros Hheld.
    destruct (Shopify.present (Tools.cartStore s !! Tools.sessionKey context))
      as [m|] eqn:Hst; [|done].
    pose proof (present_Some_inv _ _ Hst) as [_ Hm].
    destruct Hexec as [(Hnone & _)
                      |(existing & client & lines & h & returned & Hk & Hstore & Hcall & Hid)].
    - unfold known_cart, Tools.getCartId in Hnone. simpl in Hnone.
      rewrite Hst, present_Some_ne in Hnone by done. discriminate Hnone.
    - apply Hadd in Hcall. split; [|exact Hstore].
      unfold known_cart, Tools.getCartId in Hk. simpl in Hk.
      rewrite Hst, present_Some_ne in Hk by done. unfold c. congruence. }
  assert (Hknown : stored <> None
                   \/ known_cart context s = None
                   \/ Tools.ctx_cartId context' = Tools.ctx_cartId context
                   \/ Tools.ctx_cartId context' = Some c ->
                   known_cart context' s1 = Some c).
  { intros [Hheld|Hcase].
    { destruct (Hstored Hheld) as [Hc Hstore].
      unfold known_cart, Tools.getCartId. simpl. rewrite Hkey, Hstore.
      unfold stored in Hc. rewrite Hc. by apply present_Some_ne. }
    revert Hcase.
    unfold known_cart, Tools.getCartId. simpl. rewrite Hkey.
    destruct Hexec as [(Hnone & Hstore)
                      |(existing & client & lines & h & returned & Hk & Hstore & Hcall & Hid)].
    - intros _. rewrite Hstore, lookup_insert_eq. fold c.
      by rewrite !present_Some_ne.
    - apply Hadd in Hcall. rewrite Hstore.
      assert (c = existing) as -> by (unfold c; congruence).
      unfold known_cart, Tools.getCartId in Hk. simpl in Hk.
      intros [Hnone|[Hsame|Hthreaded]].
      + congruence.
      + rewrite Hsame. exact Hk.
      + destruct (Shopify.present (Tools.cartStore s !! Tools.sessionKey context))
          as [held|] eqn:Hst.
        * exact Hk.
        * rewrite Hthreaded. apply present_Some_ne. congruence. }
  split.
  { intros Hnone. destruct Hexec as [(_ & Hstore)|(existing & _ & _ & _ & _ & Hk & _)];
      [|congruence].
    by rewrite Hkey, Hstore, lookup_insert_eq. }
  split; [exact Hstored|].
  intros Hcase. specialize (Hknown Hcase). split; [exact Hknown|].
  intros tenant client Htenant Hsf.
  unfold Tools.execute, Js.try_catch at 1.
  change (Tools.dispatch w "get_cart" input' context') with (Tools.getCart w context').
  unfold Tools.getCart, Js.bind at 1.
  unfold known_cart in Hknown. unfold Tools.getCartId in *. rewrite Hknown.
  unfold Js.bind at 1, Tools.call at 1. cbn [Tools.log Tools.cartStore].
  fold tid. rewrite Htenant, Hsf.
  unfold Js.try_catch, Js.bind, Tools.call. cbn [Tools.log Tools.cartStore].
  destruct (Tools.storefront_getCart w (Tools.log s1 ++ [Tools.GetTenant tid]) client c)
    as [cart2|e] eqn:Hcall; unfold Js.ret; eexists _, _;
    (split; [reflexivity|]); cbn [Tools.log Tools.cartStore];
    (split; [by rewrite <- app_assoc|]); (split; [reflexivity|]).
  - split; [reflexivity|]. cbn [Tools.formatCart Tools.fc_cartId].
    by apply Hget in Hcall.
  - reflexivity.
Qed.

Lemma demo_tools_echo : echoes_cart_id demo_tools.
Proof.
  split.
  - intros h client id lines cart [= <-]. reflexivity.
  - intros h client id cart [= <-]. reflexivity.
Qed.

(** A fresh session: add_to_cart creates cart c1, get_cart asks for it
    and reports it. *)
Lemma cart_continuity_witness :
  known_cart demo_context demo_after_add = Some "gid://shopify/Cart/c1"
  /\ Tools.cartStore demo_after_add !! "t1:s1" = Some "gid://shopify/Cart/c1"
  /\ exists s2 cart2,
       Tools.execute demo_tools "get_cart" ∅ demo_context demo_after_add
       = (s2, Js.Ok (Tools.succeed (Tools.CartContents cart2)))
       /\ Tools.fc_cartId cart2 = "gid://shopify/Cart/c1"
       /\ Tools.log s2
          = Tools.log demo_after_add
              ++ [Tools.GetTenant "t1";
                  Tools.StorefrontGetCart demo_storefront "gid://shopify/Cart/c1"].
Proof.
  assert (Hexec : Tools.execute demo_tools "add_to_cart" one_variant demo_context Tools.init
                  = (demo_after_add,
                     Js.Ok (Tools.succeed (Tools.CartAdded demo_cart (Js.Number (Js.Num 1))))))
    by (vm_compute; reflexivity).
  assert (Hne : Tools.fc_cartId demo_cart <> "") by discriminate.
  destruct (cart_continuity demo_tools one_variant ∅ demo_context demo_context
              Tools.init demo_after_add demo_cart (Js.Number (Js.Num 1))
              demo_tools_echo eq_refl eq_refl Hexec Hne) as (Hstore & _ & Hrest).
  destruct (Hrest (or_intror (or_introl eq_refl))) as [Hknown Hget].
  split; [exact Hknown|]. split; [exact (Hstore eq_refl)|].
  destruct (Hget demo_tenant demo_storefront eq_refl eq_refl)
    as (s2 & r2 & Hrun & Hlog & _ & Hres).
  cbn in Hres. destruct Hres as [-> Hid].
  eexists s2, _. split; [exact Hrun|]. split; [exact Hid|exact Hlog].
Defined.

(** ** The iteration cap of the tool loop *)

(** The error boundary of the executor, shared by the orchestrator
    proofs. *)
Lemma execute_returns w toolName input context s :
  exists s' r, Tools.execute w toolName input context s = (s', Js.Ok r).
Proof.
  unfold Tools.execute, Js.try_catch.
  destruct (Tools.dispatch w toolName input context s) as [s' [r|e]]; eauto.
Qed.

(** Running the tool blocks of one model turn never throws, sends
    nothing to the model and logs one tool call per block. *)
Lemma run_tool_blocks_returns w context blocks : forall v results s,
  exists s' v' results',
    Agent.run_tool_blocks w context blocks v results s = (s', Js.Ok (v', results'))
    /\ Agent.requests s' = Agent.requests s
    /\ length (Agent.allToolCalls v') = (length (Agent.allToolCalls v) + length blocks)%nat.
Proof.
  induction blocks as [|b blocks IH]; intros v results s; simpl.
  - eexists _, _, _. split; [reflexivity|]. split; [done|]. lia.
  - unfold Js.bind at 1. unfold Agent.on_executor.
    destruct (execute_returns (Agent.tools w) (Agent.tu_name b) (Agent.tu_input b)
                {| Tools.tenantId := Tools.tenantId context;
                   Tools.sessionId := Tools.sessionId context;
                   Tools.ctx_cartId := Agent.v_cartId v |} (Agent.executor s))
      as (e' & r & ->).
    edestruct IH as (s' & v' & results' & -> & Hreq & Hlen).
    eexists _, _, _. split; [reflexivity|]. split; [exact Hreq|].
    rewrite Hlen. unfold Agent.record_result. simpl. rewrite length_app. simpl. lia.
Qed.

(** With a model that asks for a tool every time, the loop runs for all
    the rounds it is allowed. *)
Lemma tool_loop_exhausts w context systemPrompt :
  always_requests_tool w ->
  forall remaining claudeResponse conversationMessages v s,
    Agent.stop_reason claudeResponse = Agent.tool_use ->
    exists s' final v' rounds,
      Agent.tool_loop w context systemPrompt remaining claudeResponse
        conversationMessages v s = (s', Js.Ok (final, v'))
      /\ Agent.requests s' = Agent.requests s ++ rounds
      /\ length rounds = remaining
      /\ Forall is_tool_round rounds
      /\ (one_tool_per_turn w ->
          length (Agent.extractToolUse (Agent.content claudeResponse)) = 1%nat ->
          length (Agent.allToolCalls v')
          = (length (Agent.allToolCalls v) + remaining)%nat)
      /\ match remaining with
         | O => final = claudeResponse
         | S _ => exists h c, Agent.requests s' = h ++ [c]
                              /\ Agent.claude w h c = Js.Ok final
         end.
Proof.
  intros Hmodel. induction remaining as [|n IH];
    intros claudeResponse conversationMessages v s Hstop; simpl.
  - eexists _, _, _, []. rewrite app_nil_r.
    split; [reflexivity|]. split; [done|]. split; [done|]. split; [done|].
    split; [intros; lia|done].
  - rewrite Hstop. simpl. unfold Js.bind at 1.
    destruct (run_tool_blocks_returns w context
                (Agent.extractToolUse (Agent.content claudeResponse)) v [] s)
      as (s1 & v1 & results & -> & Hreq1 & Hlen1).
    unfold Js.bind at 1. unfold Agent.callClaudeWithToolResults, Agent.ask.
    match goal with
    | |- context [Agent.claude w ?h ?c] =>
        destruct (Hmodel h c) as (next & Hnext & Hstop'); rewrite Hnext
    end.
    edestruct (IH next) as (s' & final & v' & rounds & -> & Hreq & Hlen & Hall & Hcalls & Hlast);
      [exact Hstop'|].
    simpl in Hreq. rewrite Hreq1 in Hreq. rewrite <- app_assoc in Hreq.
    eexists _, _, _, (_ :: rounds). split; [reflexivity|].
    split; [exact Hreq|]. split; [simpl; by rewrite Hlen|].
    split; [by constructor|]. split.
    + intros Hone Hfirst. rewrite Hcalls, Hlen1, Hfirst; [lia|exact Hone|].
      eapply Hone. exact Hnext.
    + destruct n as [|n'].
      * subst final. destruct rounds; [|discriminate Hlen].
        eexists _, _. split; [exact Hreq|]. rewrite <- Hreq1. exact Hnext.
      * exact Hlast.
Qed.

(** C1. When every model response asks for a tool, [processMessage]
    returns normally after exactly [MAX_TOOL_ITERATIONS] = 5 tool-calling
    round-trips: 5 requests carrying tool results follow the initial
    request, and the reply is the text of the last model response,
    whatever it is.  With one tool invocation per model turn, the
    returned [toolCalls] list has 5 entries. *)
Theorem iteration_cap_terminates
    (w : Agent.World) (messages : list Agent.ChatMessage)
    (context : Tools.AgentContext) (s s0 : Agent.St) (systemPrompt : Agent.SystemPrompt) :
  always_requests_tool w ->
  Agent.buildPrompt w context (Agent.userQuery messages) s = (s0, Js.Ok systemPrompt) ->
  exists s' response rounds final,
    Agent.processMessage w messages context s = (s', Js.Ok response)
    /\ Agent.MAX_TOOL_ITERATIONS = 5%nat
    /\ Agent.requests s'
       = Agent.requests s ++ Agent.CallClaude messages systemPrompt :: rounds
    /\ length rounds = Agent.MAX_TOOL_ITERATIONS
    /\ Forall is_tool_round rounds
    /\ (exists h c, Agent.requests s' = h ++ [c] /\ Agent.claude w h c = Js.Ok final)
    /\ Agent.reply response = Agent.extractText (Agent.content final)
    /\ (one_tool_per_turn w ->
        exists calls, Agent.toolCalls response = Some calls
                      /\ length calls = Agent.MAX_TOOL_ITERATIONS).
Proof.
  intros Hmodel Hprompt. unfold Agent.processMessage.
  unfold Js.bind at 1. rewrite Hprompt.
  unfold Js.bind at 1. unfold Agent.callClaude, Agent.ask.
  destruct (Hmodel (Agent.requests s0) (Agent.CallClaude messages systemPrompt))
    as (first & Hfirst & Hstop). rewrite Hfirst.
  unfold Js.bind at 1.
  edestruct (tool_loop_exhausts w context systemPrompt Hmodel Agent.MAX_TOOL_ITERATIONS first)
    as (s' & final & v' & rounds & -> & Hreq & Hlen & Hall & Hcalls & Hlast);
    [exact Hstop|].
  simpl in Hreq, Hcalls, Hlast.
  assert (Hs0 : Agent.requests s0 = Agent.requests s).
  { revert Hprompt. unfold Agent.buildPrompt, Js.bind, Agent.on_executor, Tools.call.
    simpl. destruct (Tools.tenant_getTenant _ _ _); [|intros [=]].
    destruct (Tools.rag_search _ _ _ _); intros [= <- _]; done. }
  rewrite Hs0, <- app_assoc in Hreq. simpl in Hreq.
  unfold Js.ret.
  eexists _, _, rounds, final. split; [reflexivity|]. cbn [Agent.reply Agent.toolCalls].
  split; [reflexivity|]. split; [exact Hreq|]. split; [exact Hlen|].
  split; [exact Hall|]. split; [exact Hlast|]. split; [reflexivity|].
  intros Hone. rewrite (Hcalls Hone (Hone _ _ _ Hfirst)). simpl. eauto.
Qed.

Lemma cart_loop_always : always_requests_tool cart_loop_world.
Proof. intros h c. by exists cart_loop_response. Qed.

Lemma cart_loop_one_tool : one_tool_per_turn cart_loop_world.
Proof. intros h c r [= <-]. reflexivity. Qed.

(** A model that asks for the cart on every round: five tool calls, six
    requests, and the text of the sixth response as the reply. *)
Lemma iteration_cap_terminates_witness :
  exists s' response calls,
    Agent.processMessage cart_loop_world demo_messages demo_context Agent.init
    = (s', Js.Ok response)
    /\ Agent.toolCalls response = Some calls
    /\ length calls = 5%nat
    /\ length (Agent.requests s') = 6%nat
    /\ Agent.reply response = "Let me check your cart.".
Proof.
  destruct (iteration_cap_terminates cart_loop_world demo_messages demo_context Agent.init
              (fst (Agent.buildPrompt cart_loop_world demo_context
                      (Agent.userQuery demo_messages) Agent.init))
              {| Agent.tenantPrompt := None;
                 Agent.ragContext := {| Rag.products := []; Rag.faqs := [] |} |}
              cart_loop_always eq_refl)
    as (s' & response & rounds & final & Hrun & Hcap & Hreq
        & Hrounds & _ & (h & c & _ & Hfinal) & Hreply & Hone).
  destruct (Hone cart_loop_one_tool) as (calls & Hcalls & Hlen).
  exists s', response, calls. split; [exact Hrun|]. split; [exact Hcalls|].
  split; [by rewrite Hlen|]. split.
  - rewrite Hreq. simpl. rewrite Hrounds. reflexivity.
  - rewrite Hreply. injection Hfinal as <-. reflexivity.
Defined.

(** ** The streaming variant against the synchronous one *)

Lemma substring_empty i n : String.substring i n "" = "".
Proof. by destruct i, n. Qed.

Lemma substring_zero s : forall i, String.substring i 0 s = "".
Proof. induction s as [|c s IH]; intros [|i]; simpl; auto. Qed.

Lemma append_cons c x y : String c x +:+ y = String c (x +:+ y).
Proof. reflexivity. Qed.

Lemma substring_split s : forall i a b,
  String.substring i a s +:+ String.substring (i + a) b s = String.substring i (a + b) s.
Proof.
  induction s as [|c s IH]; intros i a b.
  - by rewrite !substring_empty.
  - destruct i as [|i]; simpl.
    + destruct a as [|a]; simpl; [done|]. rewrite append_cons. f_equal. exact (IH 0%nat a b).
    + apply IH.
Qed.

Lemma substring_to_end s : forall i n,
  (String.length s - i <= n)%nat ->
  String.substring i n s = String.substring i (String.length s - i) s.
Proof.
  induction s as [|c s IH]; intros i n Hn.
  - by rewrite !substring_empty.
  - destruct i as [|i]; simpl in *.
    + destruct n as [|n]; [lia|]. f_equal. rewrite (IH 0%nat n) by lia.
      by rewrite Nat.sub_0_r.
    + by apply IH.
Qed.

Lemma substring_all s : String.substring 0 (String.length s) s = s.
Proof. induction s as [|c s IH]; simpl; [done|]. by rewrite IH. Qed.

Lemma append_empty_r s : s +:+ "" = s.
Proof. induction s as [|c s IH]; [done|]. by rewrite append_cons, IH. Qed.

Lemma concat_cons x l : String.concat "" (x :: l) = x +:+ String.concat "" l.
Proof. destruct l; simpl; [by rewrite append_empty_r|done]. Qed.

(** Joining the chunks produced from position [i] gives the rest of the
    reply from [i] on. *)
Lemma text_chunks_join reply i :
  String.concat "" (Agent.text_chunks reply i)
  = String.substring i (String.length reply - i) reply.
Proof.
  funelim (Agent.text_chunks reply i); clear Heqcall.
  - rewrite concat_cons, H. unfold Js.slice.
    destruct (decide (String.length reply - i <= Agent.chunkSize)%nat) as [Hle|Hgt].
    + rewrite (substring_to_end reply i Agent.chunkSize Hle).
      replace (String.length reply - (i + Agent.chunkSize))%nat with 0%nat by lia.
      by rewrite substring_zero, append_empty_r.
    + rewrite substring_split. f_equal. lia.
  - replace (String.length reply - i)%nat with 0%nat by lia.
    by rewrite substring_zero.
Qed.

Lemma text_chunks_concat reply : String.concat "" (Agent.text_chunks reply 0) = reply.
Proof. by rewrite text_chunks_join, Nat.sub_0_r, substring_all. Qed.

Lemma omap_map_none {A B C} (f : B -> option C) (g : A -> B) (l : list A) :
  (forall a, f (g a) = None) -> omap f (map g l) = [].
Proof. intros H. induction l as [|a l IH]; [done|]. cbn. by rewrite H. Qed.

Lemma omap_map_some {A B} (f : B -> option A) (g : A -> B) (l : list A) :
  (forall a, f (g a) = Some a) -> omap f (map g l) = l.
Proof. intros H. induction l as [|a l IH]; [done|]. cbn. by rewrite H, IH. Qed.

(** C5. On the same history, context and scripted collaborators, when
    [processMessage] returns a response the stream ends in the same
    state, the payloads of its [text] events concatenated in emission
    order are the reply, its last event is the [done] event carrying
    that very response, and its [tool] events are the response's tool
    calls; when [processMessage] throws, the stream is a single [error]
    event. *)
Theorem stream_sync_equivalence
    (w : Agent.World) (messages : list Agent.ChatMessage)
    (context : Tools.AgentContext) (s : Agent.St) :
  match Agent.processMessage w messages context s with
  | (s', Js.Ok response) =>
      let '(s'', events) := Agent.processMessageStream w messages context s in
      s'' = s'
      /\ String.concat "" (text_payloads events) = Agent.reply response
      /\ last events = Some (Agent.done_event response)
      /\ omap (fun e => match e with Agent.done_event r => Some r | _ => None end) events
         = [response]
      /\ omap (fun e => match e with Agent.tool_event c => Some c | _ => None end) events
         = default [] (Agent.toolCalls response)
  | (s', Js.Throw e) =>
      Agent.processMessageStream w messages context s
      = (s', [Agent.error_event (Js.message_or "Unknown error" e)])
  end.
Proof.
  unfold Agent.processMessageStream.
  destruct (Agent.processMessage w messages context s) as [s' [response|e]]; [|done].
  split; [done|]. split; [|split; [|split]].
  - unfold text_payloads. rewrite !omap_app.
    rewrite (omap_map_none _ Agent.tool_event) by done.
    rewrite (omap_map_some _ Agent.text_event) by done.
    cbn. rewrite app_nil_r. apply text_chunks_concat.
  - by rewrite app_assoc, last_snoc.
  - rewrite !omap_app.
    rewrite (omap_map_none _ Agent.tool_event) by done.
    rewrite (omap_map_none _ Agent.text_event) by done.
    done.
  - rewrite !omap_app.
    rewrite (omap_map_some _ Agent.tool_event) by done.
    rewrite (omap_map_none _ Agent.text_event) by done.
    cbn. by rewrite app_nil_r.
Qed.

(** A reply of 108 characters is streamed as three chunks which join
    back to it. *)
Lemma stream_sync_equivalence_witness :
  let events := snd (Agent.processMessageStream direct_world demo_messages demo_context
                       Agent.init) in
  length (text_payloads events) = 3%nat
  /\ String.concat "" (text_payloads events) = long_reply.
Proof.
  split; [vm_compute; reflexivity|].
  pose proof (stream_sync_equivalence direct_world demo_messages demo_context Agent.init)
    as H.
  destruct (Agent.processMessage direct_world demo_messages demo_context Agent.init)
    as [s' [response|e]] eqn:E; [|vm_compute in E; discriminate E].
  destruct (Agent.processMessageStream _ _ _ _) as [s'' events].
  simpl. destruct H as (_ & -> & _).
  vm_compute in E. by injection E as _ <-.
Defined.

(** ** Retry policy of the embedding gateway *)

(** C6 (the code departs from the specification). A response that is neither 2xx
    nor 429 is retried when its error text contains "fetch" (or "429"):
    here a 500 is requested three times, with the back-off pauses in
    between, before the error carrying status 500 is raised. *)
Theorem hard_failure_is_retried :
  Embeddings.embed overloaded_provider "hello" []
  = ([Embeddings.Fetched (document_request "hello");
      Embeddings.Slept (Js.Num 1000);
      Embeddings.Fetched (document_request "hello");
      Embeddings.Slept (Js.Num 2000);
      Embeddings.Fetched (document_request "hello")],
     Js.Throw (Js.Error "Voyage AI Embeddings API error 500: upstream fetch failed")).
Proof. vm_compute. reflexivity. Qed.

(** The part of the retry policy the code does implement. *)

Lemma ok_not_429 r : Embeddings.ok r = true -> (Embeddings.status r =? 429) = false.
Proof.
  unfold Embeddings.ok. intros [_ Hle%Z.leb_le]%andb_true_iff. apply Z.eqb_neq. lia.
Qed.

(** One pass through the [try] block, case by case. *)
Lemma attempt_once_throttled w req attempt log r :
  Embeddings.fetch w log req = Embeddings.Responded r ->
  Embeddings.status r = 429 -> (attempt < 2)%nat ->
  Embeddings.attempt_once w req attempt log
  = ((log ++ [Embeddings.Fetched req])
       ++ [Embeddings.Slept (Embeddings.delayMs (Embeddings.retryAfter r) attempt)],
     Js.Ok Embeddings.Continue).
Proof.
  intros Hf Hs Ha. unfold Embeddings.attempt_once. rewrite Hf, Hs.
  replace (attempt <? Embeddings.MAX_RETRIES - 1)%nat with true; [done|].
  symmetry. apply Nat.ltb_lt. unfold Embeddings.MAX_RETRIES. lia.
Qed.

Lemma attempt_once_served w req attempt log r items :
  Embeddings.fetch w log req = Embeddings.Responded r ->
  Embeddings.ok r = true -> Embeddings.body r = Embeddings.ListBody items ->
  Embeddings.attempt_once w req attempt log
  = (log ++ [Embeddings.Fetched req],
     Js.Ok (Embeddings.Return (Js.Ok {| Embeddings.data := Some items |}))).
Proof.
  intros Hf Hok Hbody. unfold Embeddings.attempt_once.
  by rewrite Hf, (ok_not_429 r Hok), Hok, Hbody.
Qed.

Lemma attempt_once_refused w req attempt log r detail :
  Embeddings.fetch w log req = Embeddings.Responded r ->
  (Embeddings.status r =? 429) && (attempt <? Embeddings.MAX_RETRIES - 1)%nat = false ->
  Embeddings.ok r = false -> Embeddings.body r = Embeddings.ErrorBody detail ->
  Embeddings.attempt_once w req attempt log
  = (log ++ [Embeddings.Fetched req],
     Js.Throw (Embeddings.api_error (Embeddings.status r) detail)).
Proof.
  intros Hf Hs Hok Hbody. unfold Embeddings.attempt_once.
  by rewrite Hf, Hs, Hok, Hbody.
Qed.

(** X1. Throttled twice, then served: three requests, two pauses (each as
    long as the provider asked for, or the exponential back-off), and
    the response is returned. *)
Lemma throttled_twice_then_served (w : Embeddings.World) (req : Embeddings.Request)
    (log : list Embeddings.Event)
    (r1 r2 r3 : Embeddings.Response) (items : list Embeddings.Item) :
  let pause1 := Embeddings.Slept (Embeddings.delayMs (Embeddings.retryAfter r1) 0) in
  let pause2 := Embeddings.Slept (Embeddings.delayMs (Embeddings.retryAfter r2) 1) in
  Embeddings.fetch w log req = Embeddings.Responded r1 -> Embeddings.status r1 = 429 ->
  Embeddings.fetch w (log ++ [Embeddings.Fetched req; pause1]) req = Embeddings.Responded r2 ->
  Embeddings.status r2 = 429 ->
  Embeddings.fetch w (log ++ [Embeddings.Fetched req; pause1; Embeddings.Fetched req; pause2])
    req = Embeddings.Responded r3 ->
  Embeddings.ok r3 = true ->
  Embeddings.body r3 = Embeddings.ListBody items ->
  Embeddings.fetchWithRetry w req log
  = (log ++ [Embeddings.Fetched req; pause1; Embeddings.Fetched req; pause2;
             Embeddings.Fetched req],
     Js.Ok {| Embeddings.data := Some items |}).
Proof.
  intros pause1 pause2 H1 Hs1 H2 Hs2 H3 Hok3 Hbody3.
  unfold Embeddings.fetchWithRetry, Embeddings.MAX_RETRIES.
  cbn [Embeddings.retry_loop].
  rewrite (attempt_once_throttled _ _ _ _ _ H1 Hs1) by lia.
  rewrite <- app_assoc. cbn [app]. fold pause1.
  rewrite (attempt_once_throttled _ _ _ _ _ H2 Hs2) by lia.
  rewrite <- !app_assoc. cbn [app]. fold pause2.
  rewrite (attempt_once_served _ _ _ _ _ _ H3 Hok3 Hbody3).
  by rewrite <- !app_assoc.
Qed.

(** X2. Throttled on all three attempts: the third 429 ends the call with an
    error that carries the status. *)
Lemma throttling_exhausts_retries (w : Embeddings.World) (req : Embeddings.Request)
    (log : list Embeddings.Event) (detail : option string) :
  (forall log req, Embeddings.fetch w log req
     = Embeddings.Responded {| Embeddings.status := 429; Embeddings.retryAfter := None;
                               Embeddings.body := Embeddings.ErrorBody detail |}) ->
  Embeddings.fetchWithRetry w req log
  = (log ++ [Embeddings.Fetched req; Embeddings.Slept (Js.Num 1000);
             Embeddings.Fetched req; Embeddings.Slept (Js.Num 2000);
             Embeddings.Fetched req],
     Js.Throw (Embeddings.api_error 429 detail)).
Proof.
  intros Hw. unfold Embeddings.fetchWithRetry, Embeddings.MAX_RETRIES.
  cbn [Embeddings.retry_loop].
  rewrite (attempt_once_throttled _ _ _ _ _ (Hw _ _) eq_refl) by lia.
  rewrite (attempt_once_throttled _ _ _ _ _ (Hw _ _) eq_refl) by lia.
  rewrite (attempt_once_refused _ _ _ _ _ detail (Hw _ _)) by done.
  cbn. by rewrite <- !app_assoc.
Qed.

(** Any other failure whose error text mentions neither "429" nor
    "fetch" ends the call at once: one request, no pause. *)
Lemma hard_failure_fails_fast (w : Embeddings.World) (req : Embeddings.Request)
    (log : list Embeddings.Event) (r : Embeddings.Response) (detail : option string) :
  Embeddings.fetch w log req = Embeddings.Responded r ->
  Embeddings.status r <> 429 -> Embeddings.ok r = false ->
  Embeddings.body r = Embeddings.ErrorBody detail ->
  Embeddings.isRetryable (Embeddings.api_error (Embeddings.status r) detail) = false ->
  Embeddings.fetchWithRetry w req log
  = (log ++ [Embeddings.Fetched req],
     Js.Throw (Embeddings.api_error (Embeddings.status r) detail)).
Proof.
  intros Hf Hs Hok Hbody Hretry.
  unfold Embeddings.fetchWithRetry, Embeddings.MAX_RETRIES.
  cbn [Embeddings.retry_loop].
  rewrite (attempt_once_refused _ _ _ _ _ detail Hf); [| |done..].
  - change (Js.as_error (Embeddings.api_error (Embeddings.status r) detail))
      with (Embeddings.api_error (Embeddings.status r) detail).
    by rewrite Hretry.
  - apply Z.eqb_neq in Hs. by rewrite Hs.
Qed.

(** The scenario of the specification: 429, 429, then success. *)
Lemma embed_after_two_throttles :
  Embeddings.embed throttled_provider "hello" []
  = ([Embeddings.Fetched (document_request "hello"); Embeddings.Slept (Js.Num 2000);
      Embeddings.Fetched (document_request "hello"); Embeddings.Slept (Js.Num 2000);
      Embeddings.Fetched (document_request "hello")],
     Js.Ok [1 # 2; 1 # 3]).
Proof.
  change (Embeddings.embed throttled_provider "hello" [])
    with (Js.bind (Embeddings.fetchWithRetry throttled_provider (document_request "hello"))
            (fun response => Js.lift (Embeddings.first_embedding response)) []).
  unfold Js.bind.
  rewrite (throttled_twice_then_served throttled_provider (document_request "hello") []
             throttle_with_hint throttle_plain served [served_item]); reflexivity.
Defined.

(** ** Batch embedding and the order of the provider's answer *)

(** C3 (the code departs from the specification). The provider tags each vector
    with the index of its input and lists them in another order; the
    results are paired with the inputs by position in the response, so
    the first output vector is the one of the second text. *)
Theorem embedBatch_pairs_by_position :
  Embeddings.fetch reversing_provider []
    {| Embeddings.input := Embeddings.Many ["alpha"; "be"];
       Embeddings.input_type := Embeddings.document |}
  = Embeddings.Responded
      {| Embeddings.status := 200; Embeddings.retryAfter := None;
         Embeddings.body :=
           Embeddings.ListBody
             [{| Embeddings.embedding := vec_of "be"; Embeddings.index := 1 |};
              {| Embeddings.embedding := vec_of "alpha"; Embeddings.index := 0 |}] |}
  /\ Embeddings.embedBatch reversing_provider ["alpha"; "be"] []
     = ([batch_request ["alpha"; "be"]], Js.Ok [vec_of "be"; vec_of "alpha"])
  /\ vec_of "be" <> vec_of "alpha".
Proof.
  split; [reflexivity|]. split; [vm_compute; reflexivity|]. vm_compute. discriminate.
Qed.

(** What the code does achieve: with a provider that lists the vectors
    in request order, the output follows the input. *)

Lemma fetchWithRetry_in_order w E log texts :
  answers_in_order w E ->
  exists items,
    Embeddings.fetchWithRetry w
      {| Embeddings.input := Embeddings.Many texts;
         Embeddings.input_type := Embeddings.document |} log
    = (log ++ [batch_request texts], Js.Ok {| Embeddings.data := Some items |})
    /\ map Embeddings.embedding items = map E texts.
Proof.
  intros Hw. destruct (Hw log texts) as (r & items & Hf & Hok & Hbody & Hitems).
  exists items. split; [|done].
  unfold Embeddings.fetchWithRetry, Embeddings.MAX_RETRIES. cbn [Embeddings.retry_loop].
  by rewrite (attempt_once_served _ _ _ _ _ _ Hf Hok Hbody).
Qed.

(** Pairing a response with its chunk by position. *)
Lemma collect_in_order E chunk : forall items done results,
  map Embeddings.embedding items = map E (map Embeddings.t_text (drop done chunk)) ->
  Embeddings.collect chunk items done results
  = Js.Ok (results ++ map (tag_with E) (drop done chunk)).
Proof.
  induction items as [|item items IH]; intros done results Hmap.
  - destruct (drop done chunk); [|discriminate]. by rewrite app_nil_r.
  - destruct (drop done chunk) as [|t rest] eqn:Hdrop; [discriminate|].
    simpl in Hmap. injection Hmap as Hitem Hrest. simpl.
    assert (Hlook : chunk !! done = Some t).
    { pose proof (lookup_drop chunk done 0) as Hl.
      rewrite Hdrop, Nat.add_0_r in Hl. by rewrite <- Hl. }
    assert (Hnext : drop (S done) chunk = rest).
    { pose proof (drop_drop chunk 1 done) as Hd.
      rewrite Hdrop in Hd. simpl in Hd. rewrite drop_0 in Hd.
      by rewrite Hd, Nat.add_1_r. }
    rewrite Hlook, IH by (by rewrite Hnext).
    rewrite Hnext, <- app_assoc. simpl. unfold tag_with at 2. by rewrite Hitem.
Qed.

(** The number of requests for [n] texts: [ceil (n / 128)]. *)
Lemma chunk_count_step n :
  (0 < n)%nat ->
  ((n + 127) / 128 = S ((n - 128 + 127) / 128))%nat.
Proof.
  intros Hn. destruct (decide (n <= 128)%nat) as [Hle|Hgt].
  - replace (n - 128 + 127)%nat with 127%nat by lia.
    change (127 / 128)%nat with 0%nat.
    symmetry. apply Nat.div_unique with (r := (n - 1)%nat); lia.
  - replace (n + 127)%nat with ((n - 128 + 127) + 1 * 128)%nat by lia.
    rewrite Nat.div_add by lia. lia.
Qed.

Lemma chunk_loop_in_order w E :
  answers_in_order w E ->
  forall nonEmpty i results log,
  exists batches,
    Embeddings.chunk_loop w nonEmpty i results log
    = (log ++ map batch_request batches,
       Js.Ok (results ++ map (tag_with E) (drop i nonEmpty)))
    /\ concat batches = map Embeddings.t_text (drop i nonEmpty)
    /\ Forall (fun b => (0 < length b <= Embeddings.MAX_BATCH_SIZE)%nat) batches
    /\ length batches = ((length nonEmpty - i + 127) / 128)%nat.
Proof.
  intros Hw nonEmpty i results log.
  funelim (Embeddings.chunk_loop w nonEmpty i results log); clear Heqcall.
  - (* one more chunk *)
    set (chunk := take Embeddings.MAX_BATCH_SIZE (drop i nonEmpty)) in *.
    destruct (fetchWithRetry_in_order w E log (map Embeddings.t_text chunk) Hw)
      as (items & Hfetch & Hitems).
    unfold batch_request in Hfetch. rewrite Hfetch.
    unfold Embeddings.collect_response. cbn [Embeddings.data].
    rewrite (collect_in_order E chunk items 0 results) by (by rewrite drop_0).
    rewrite drop_0.
    destruct (H (log ++ [batch_request (map Embeddings.t_text chunk)])
                (Js.Ok {| Embeddings.data := Some items |})
                {| Embeddings.data := Some items |}
                (results ++ map (tag_with E) chunk) E Hw)
      as (batches & Hloop & Hcat & Hsmall & Hcount).
    unfold batch_request in Hloop. rewrite Hloop.
    exists (map Embeddings.t_text chunk :: batches).
    assert (Hsplit : drop i nonEmpty = chunk ++ drop (i + Embeddings.MAX_BATCH_SIZE) nonEmpty).
    { unfold chunk. rewrite <- drop_drop. by rewrite take_drop. }
    split; [|split; [|split]].
    + rewrite <- !app_assoc. simpl. rewrite Hsplit, map_app. reflexivity.
    + simpl. rewrite Hcat, Hsplit, map_app. reflexivity.
    + constructor; [|done]. rewrite length_map. unfold chunk.
      rewrite length_take, length_drop. unfold Embeddings.MAX_BATCH_SIZE. lia.
    + cbn [length]. rewrite Hcount. unfold Embeddings.MAX_BATCH_SIZE.
      rewrite (chunk_count_step (length nonEmpty - i)) by lia.
      do 3 f_equal. lia.
  - (* past the end *)
    exists []. rewrite drop_ge by lia. cbn [map concat length]. rewrite !app_nil_r.
    split; [done|]. split; [done|]. split; [done|].
    replace (length nonEmpty - i)%nat with 0%nat by lia. reflexivity.
Qed.

(** [validTexts], with the numbering starting at [k]. *)
Lemma validTexts_from_cons k t texts :
  imap (fun i t => {| Embeddings.t_text := Js.trim t; Embeddings.t_index := k + i |})
    (t :: texts)
  = {| Embeddings.t_text := Js.trim t; Embeddings.t_index := k |}
    :: imap (fun i t => {| Embeddings.t_text := Js.trim t; Embeddings.t_index := S k + i |})
         texts.
Proof.
  rewrite imap_cons, Nat.add_0_r. f_equal.
  apply imap_ext. intros i x _. simpl. do 2 f_equal. lia.
Qed.

(** The kept entries carry the kept texts, in order, and their indices
    are already sorted, so the final sort changes nothing. *)
Lemma kept_entries E texts : forall k,
  let kept :=
    List.filter (fun t => (0 <? String.length (Embeddings.t_text t))%nat)
      (imap (fun i t => {| Embeddings.t_text := Js.trim t; Embeddings.t_index := k + i |})
         texts) in
  map Embeddings.t_text kept = kept_texts texts
  /\ Embeddings.sort_by_index (map (tag_with E) kept) = map (tag_with E) kept
  /\ Forall (fun t => (k <= Embeddings.t_index t)%nat) kept.
Proof.
  induction texts as [|t texts IH]; intros k; [by repeat split|].
  cbn zeta. rewrite validTexts_from_cons. unfold kept_texts. cbn [map List.filter].
  destruct (IH (S k)) as (Htexts & Hsorted & Hbound). cbn zeta in *.
  cbn [Embeddings.t_text].
  destruct (0 <? String.length (Js.trim t))%nat.
  - cbn [map]. split; [by rewrite Htexts|]. split.
    + unfold Embeddings.sort_by_index in *. cbn [foldr]. rewrite Hsorted.
      destruct (List.filter _ _) as [|t' kept'] eqn:Hk; [done|].
      cbn [map Embeddings.insert_by_index tag_with Embeddings.index Embeddings.t_index].
      apply Forall_cons in Hbound as [Hb _].
      replace (k <=? Embeddings.t_index t')%nat with true; [done|].
      symmetry. apply Nat.leb_le. lia.
    + constructor; [simpl; lia|]. eapply Forall_impl; [exact Hbound|].
      intros x Hx. simpl in Hx. lia.
  - split; [exact Htexts|]. split; [exact Hsorted|].
    eapply Forall_impl; [exact Hbound|]. intros x Hx. simpl in Hx. lia.
Qed.

(** With a provider that answers in request order, [embedBatch] returns
    the vectors of the non-blank texts (trimmed) in input order, after
    one request per chunk of at most 128 texts. *)
Lemma embedBatch_in_order (w : Embeddings.World) (E : string -> Embeddings.Vector)
    (texts : list string) (log : list Embeddings.Event) :
  answers_in_order w E ->
  kept_texts texts <> [] ->
  exists batches,
    Embeddings.embedBatch w texts log
    = (log ++ map batch_request batches, Js.Ok (map E (kept_texts texts)))
    /\ concat batches = kept_texts texts
    /\ Forall (fun b => (0 < length b <= Embeddings.MAX_BATCH_SIZE)%nat) batches
    /\ length batches = ((length (kept_texts texts) + 127) / 128)%nat.
Proof.
  intros Hw Hkept.
  destruct (kept_entries E texts 0) as (Htexts & Hsorted & _). cbn zeta in *.
  change (imap _ texts) with (Embeddings.validTexts texts) in Htexts, Hsorted.
  fold (Embeddings.nonEmpty texts) in Htexts, Hsorted.
  unfold Embeddings.embedBatch.
  assert (Hne : length texts <> 0%nat) by (by destruct texts).
  apply Nat.eqb_neq in Hne. rewrite Hne.
  assert (Hlen : length (Embeddings.nonEmpty texts) = length (kept_texts texts))
    by (by rewrite <- Htexts, length_map).
  replace (length (Embeddings.nonEmpty texts) =? 0)%nat with false.
  2:{ symmetry. apply Nat.eqb_neq. rewrite Hlen. by destruct (kept_texts texts). }
  unfold Js.bind.
  destruct (chunk_loop_in_order w E Hw (Embeddings.nonEmpty texts) 0 [] log)
    as (batches & Hloop & Hcat & Hsmall & Hcount).
  rewrite Hloop. rewrite drop_0 in *. cbn [app]. unfold Js.ret.
  exists batches. rewrite Hsorted, Nat.sub_0_r, Hlen in *.
  split; [|by rewrite Hcat, Htexts].
  do 2 f_equal. rewrite <- Htexts, !map_map. reflexivity.
Qed.

(** X3. In particular, when no text is blank, the [i]-th output is the
    vector of the [i]-th text. *)
Lemma embedBatch_in_order_lookup (w : Embeddings.World) (E : string -> Embeddings.Vector)
    (texts : list string) (log : list Embeddings.Event) :
  answers_in_order w E ->
  texts <> [] ->
  Forall (fun t => Js.trim t <> "") texts ->
  exists log' vectors,
    Embeddings.embedBatch w texts log = (log', Js.Ok vectors)
    /\ length vectors = length texts
    /\ forall i t, texts !! i = Some t -> vectors !! i = Some (E (Js.trim t)).
Proof.
  intros Hw Hne Hall.
  assert (Hk : kept_texts texts = map Js.trim texts).
  { clear Hne. unfold kept_texts. induction Hall as [|t l Ht _ IH]; [done|].
    cbn [map List.filter]. rewrite IH.
    destruct (Js.trim t) eqn:Et; [done|reflexivity]. }
  destruct (embedBatch_in_order w E texts log Hw) as (batches & Hrun & _).
  { rewrite Hk. by destruct texts. }
  eexists _, _. split; [exact Hrun|]. rewrite Hk. split.
  - by rewrite !length_map.
  - intros i t Hi. by rewrite !list_lookup_fmap, Hi.
Qed.

Lemma ordered_provider_in_order : answers_in_order ordered_provider vec_of.
Proof.
  intros log texts. eexists _, _. split; [reflexivity|]. split; [reflexivity|].
  split; [reflexivity|]. simpl.
  assert (forall k, map Embeddings.embedding
            (imap (fun i t => {| Embeddings.embedding := vec_of t;
                                 Embeddings.index := k + i |}) texts)
          = map vec_of texts) as H.
  { induction texts as [|t l IH]; intros k; [done|].
    rewrite imap_cons. simpl. f_equal. rewrite <- (IH (S k)). f_equal.
    apply imap_ext. intros i x _. simpl. f_equal. lia. }
  exact (H 0%nat).
Qed.

(** A blank entry is dropped; the others keep their order. *)
Lemma embedBatch_in_order_example :
  Embeddings.embedBatch ordered_provider ["alpha"; "  "; " be "] []
  = ([batch_request ["alpha"; "be"]], Js.Ok [vec_of "alpha"; vec_of "be"]).
Proof.
  destruct (embedBatch_in_order ordered_provider vec_of ["alpha"; "  "; " be "] []
              ordered_provider_in_order) as (batches & Hrun & Hcat & Hsmall & Hlen).
  { discriminate. }
  rewrite Hrun. f_equal.
  change (kept_texts ["alpha"; "  "; " be "]) with ["alpha"; "be"] in *.
  destruct batches as [|b [|b' bs]]; [discriminate Hlen| |discriminate Hlen].
  simpl in Hcat. rewrite app_nil_r in Hcat. by subst b.
Defined.

(** * Part IV: further properties of the code *)

(** ** The embedding gateway: how often and what it asks *)

(** One pass through the loop body leaves a request in the log, and a
    pause after it exactly when the loop goes on. *)
Lemma attempt_once_trace w req attempt log :
  (exists ms, (attempt < Embeddings.MAX_RETRIES - 1)%nat
     /\ Embeddings.attempt_once w req attempt log
        = (log ++ [Embeddings.Fetched req; Embeddings.Slept ms], Js.Ok Embeddings.Continue))
  \/ (exists r, Embeddings.attempt_once w req attempt log
                = (log ++ [Embeddings.Fetched req], Js.Ok (Embeddings.Return r)))
  \/ (exists e, Embeddings.attempt_once w req attempt log
                = (log ++ [Embeddings.Fetched req], Js.Throw e)).
Proof.
  unfold Embeddings.attempt_once.
  destruct (Embeddings.fetch w log req) as [e|r]; [by right; right; exists e|].
  destruct ((Embeddings.status r =? 429)
            && (attempt <? Embeddings.MAX_RETRIES - 1)%nat) eqn:Hthrottle.
  - left. apply andb_true_iff in Hthrottle as [_ Hlt%Nat.ltb_lt].
    eexists. split; [exact Hlt|]. by rewrite <- app_assoc.
  - right. destruct (negb (Embeddings.ok r)).
    + right. destruct (Embeddings.body r); by eexists.
    + left. by eexists.
Qed.

Lemma retry_loop_trace w req : forall remaining attempt lastError log,
  (attempt + remaining = Embeddings.MAX_RETRIES)%nat -> (0 < remaining)%nat ->
  exists pauses,
    (length pauses < remaining)%nat
    /\ (Embeddings.retry_loop w req remaining attempt lastError log).1
       = log ++ attempts req pauses.
Proof.
  induction remaining as [|remaining IH]; intros attempt lastError log Hsum Hpos; [lia|].
  cbn [Embeddings.retry_loop].
  destruct (attempt_once_trace w req attempt log)
    as [(ms & Hlt & ->)|[(r & ->)|(e & ->)]].
  - destruct (IH (S attempt) lastError
                (log ++ [Embeddings.Fetched req; Embeddings.Slept ms]))
      as (pauses & Hlen & ->); [lia|lia|].
    exists (ms :: pauses). split; [simpl; lia|].
    by rewrite <- app_assoc.
  - exists []. split; [simpl; lia|done].
  - destruct (negb (Embeddings.isRetryable (Js.as_error e))
              || (Embeddings.MAX_RETRIES - 1 <=? attempt)%nat) eqn:Hstop.
    + exists []. split; [simpl; lia|done].
    + apply orb_false_iff in Hstop as [_ Hlt%Nat.leb_gt].
      destruct (IH (S attempt) (Some (Js.as_error e))
                  ((log ++ [Embeddings.Fetched req])
                     ++ [Embeddings.Slept (Embeddings.backoff attempt)]))
        as (pauses & Hlen & ->); [lia|lia|].
      exists (Embeddings.backoff attempt :: pauses). split; [simpl; lia|].
      by rewrite <- !app_assoc.
Qed.

(** The trace of a whole call. *)
Lemma fetchWithRetry_trace_aux w req log :
  exists pauses,
    (S (length pauses) <= Embeddings.MAX_RETRIES)%nat
    /\ (Embeddings.fetchWithRetry w req log).1 = log ++ attempts req pauses.
Proof.
  destruct (retry_loop_trace w req Embeddings.MAX_RETRIES 0 None log)
    as (pauses & Hlen & Hlog); [done|unfold Embeddings.MAX_RETRIES; lia|].
  exists pauses. split; [lia|exact Hlog].
Qed.

(** X4. Whatever the provider does, one call of [fetchWithRetry] sends
    the same request between one and [MAX_RETRIES] = 3 times, pauses
    between two consecutive requests and nowhere else, and leaves the
    earlier history untouched. *)
Theorem fetchWithRetry_bounded (w : Embeddings.World) (req : Embeddings.Request)
    (log : list Embeddings.Event) :
  exists pauses,
    (length pauses < Embeddings.MAX_RETRIES)%nat
    /\ (Embeddings.fetchWithRetry w req log).1 = log ++ attempts req pauses.
Proof.
  destruct (fetchWithRetry_trace_aux w req log) as (pauses & Hlen & Hlog).
  exists pauses. split; [lia|exact Hlog].
Qed.

Lemma requests_of_attempts req pauses :
  requests_of (attempts req pauses) = replicate (S (length pauses)) req.
Proof.
  unfold attempts, requests_of. cbn [omap list_omap replicate]. f_equal.
  induction pauses as [|ms pauses IH]; [done|].
  cbn [map concat app omap list_omap length replicate]. by rewrite IH.
Qed.

(** X5. [embed] asks for a [document] embedding of the one text it was
    given, [embedQuery] for a [query] embedding, at most three times;
    a text that is blank after trimming is refused before anything is
    sent. *)
Theorem embed_request_shape (w : Embeddings.World) (text : string)
    (log : list Embeddings.Event) :
  (exists new n,
     (Embeddings.embed w text log).1 = log ++ new
     /\ requests_of new = replicate n (document_request text)
     /\ (n <= Embeddings.MAX_RETRIES)%nat
     /\ (Embeddings.blank text = true ->
         new = [] /\ (Embeddings.embed w text log).2
                     = Js.Throw (Js.Error "Text cannot be empty")))
  /\ (exists new n,
     (Embeddings.embedQuery w text log).1 = log ++ new
     /\ requests_of new = replicate n (query_request text)
     /\ (n <= Embeddings.MAX_RETRIES)%nat
     /\ (Embeddings.blank text = true ->
         new = [] /\ (Embeddings.embedQuery w text log).2
                     = Js.Throw (Js.Error "Query text cannot be empty"))).
Proof.
  unfold Embeddings.embed, Embeddings.embedQuery.
  destruct (Embeddings.blank text).
  - split; exists [], 0%nat; rewrite app_nil_r;
      (split; [done|split; [done|split; [unfold Embeddings.MAX_RETRIES; lia|done]]]).
  - split.
    + destruct (fetchWithRetry_trace_aux w (document_request text) log)
        as (pauses & Hlen & Hlog).
      exists (attempts (document_request text) pauses), (S (length pauses)).
      split; [|split; [apply requests_of_attempts|split; [exact Hlen|done]]].
      unfold Js.bind, Js.lift. fold (document_request text).
      by destruct (Embeddings.fetchWithRetry _ _ _) as [log' [r|e]].
    + destruct (fetchWithRetry_trace_aux w (query_request text) log)
        as (pauses & Hlen & Hlog).
      exists (attempts (query_request text) pauses), (S (length pauses)).
      split; [|split; [apply requests_of_attempts|split; [exact Hlen|done]]].
      unfold Js.bind, Js.lift. fold (query_request text).
      by destruct (Embeddings.fetchWithRetry _ _ _) as [log' [r|e]].
Qed.

(** X6. A request that fails on the network: when the error text is one
    the loop retries (it mentions "fetch" or "429"), the request is sent
    again after the first back-off pause of one second, and an answer to
    the second attempt is returned; otherwise the call ends at once with
    the error, wrapped in an [Error] when it was not one. *)
Theorem network_failure_policy (w : Embeddings.World) (req : Embeddings.Request)
    (log : list Embeddings.Event) (e : Js.exn) :
  Embeddings.fetch w log req = Embeddings.NetworkError e ->
  (Embeddings.isRetryable (Js.as_error e) = false ->
   Embeddings.fetchWithRetry w req log
   = (log ++ [Embeddings.Fetched req], Js.Throw (Js.as_error e)))
  /\ (Embeddings.isRetryable (Js.as_error e) = true ->
      forall r items,
        Embeddings.fetch w
          (log ++ [Embeddings.Fetched req; Embeddings.Slept (Js.Num 1000)]) req
        = Embeddings.Responded r ->
        Embeddings.ok r = true -> Embeddings.body r = Embeddings.ListBody items ->
        Embeddings.fetchWithRetry w req log
        = (log ++ [Embeddings.Fetched req; Embeddings.Slept (Js.Num 1000);
                   Embeddings.Fetched req],
           Js.Ok {| Embeddings.data := Some items |})).
Proof.
  intros Hf.
  assert (Hfirst : Embeddings.attempt_once w req 0 log
                   = (log ++ [Embeddings.Fetched req], Js.Throw e)).
  { unfold Embeddings.attempt_once. by rewrite Hf. }
  unfold Embeddings.fetchWithRetry, Embeddings.MAX_RETRIES. split.
  - intros Hno. cbn [Embeddings.retry_loop]. by rewrite Hfirst, Hno.
  - intros Hyes r items Hf2 Hok Hbody. cbn [Embeddings.retry_loop].
    rewrite Hfirst, Hyes. cbn [negb orb Nat.sub Nat.leb].
    change (Embeddings.backoff 0) with (Js.Num 1000).
    rewrite <- app_assoc. cbn [app].
    rewrite (attempt_once_served _ _ _ _ _ _ Hf2 Hok Hbody).
    by rewrite <- app_assoc.
Qed.

Lemma network_failure_policy_witness :
  Embeddings.fetchWithRetry flaky_provider (document_request "hello") []
  = ([Embeddings.Fetched (document_request "hello"); Embeddings.Slept (Js.Num 1000);
      Embeddings.Fetched (document_request "hello")],
     Js.Ok {| Embeddings.data := Some [served_item] |}).
Proof.
  exact (proj2 (network_failure_policy flaky_provider (document_request "hello") []
                  (Js.Error "fetch failed") eq_refl)
           eq_refl served [served_item] eq_refl eq_refl eq_refl).
Defined.

Lemma throttling_exhausts_retries_witness :
  Embeddings.fetchWithRetry throttling_provider (document_request "hello") []
  = ([Embeddings.Fetched (document_request "hello"); Embeddings.Slept (Js.Num 1000);
      Embeddings.Fetched (document_request "hello"); Embeddings.Slept (Js.Num 2000);
      Embeddings.Fetched (document_request "hello")],
     Js.Throw (Js.Error "Voyage AI Embeddings API error 429: rate limited")).
Proof.
  exact (throttling_exhausts_retries throttling_provider (document_request "hello") []
           (Some "rate limited") (fun _ _ => eq_refl)).
Defined.

(** ** Batches *)

Lemma nonEmpty_kept_texts texts :
  map Embeddings.t_text (Embeddings.nonEmpty texts) = kept_texts texts.
Proof. exact (proj1 (kept_entries (fun _ => []) texts 0)). Qed.

(** X7. A list without any text to embed never reaches the provider:
    the empty list gives the empty list, a list of blank texts is
    refused. *)
Theorem embedBatch_nothing_to_send (w : Embeddings.World) (texts : list string)
    (log : list Embeddings.Event) :
  kept_texts texts = [] ->
  Embeddings.embedBatch w texts log
  = (log, match texts with
          | [] => Js.Ok []
          | _ :: _ => Js.Throw (Js.Error "All texts are empty")
          end).
Proof.
  intros Hkept. unfold Embeddings.embedBatch.
  destruct texts as [|t texts]; [done|]. cbn [length Nat.eqb].
  pose proof (nonEmpty_kept_texts (t :: texts)) as Hmap. rewrite Hkept in Hmap.
  apply map_eq_nil in Hmap. by rewrite Hmap.
Qed.

Lemma embedBatch_nothing_to_send_witness :
  Embeddings.embedBatch rejecting_provider [" "; ""] []
  = ([], Js.Throw (Js.Error "All texts are empty")).
Proof. exact (embedBatch_nothing_to_send rejecting_provider [" "; ""] [] eq_refl). Defined.

(** X8. With a provider that answers in request order, [embedBatch]
    sends [ceil (n / 128)] requests for the [n] texts that are not
    blank, none of them for more than 128 texts, and returns [n]
    vectors. *)
Theorem embedBatch_request_count (w : Embeddings.World) (E : string -> Embeddings.Vector)
    (texts : list string) (log : list Embeddings.Event) :
  answers_in_order w E ->
  kept_texts texts <> [] ->
  exists new vectors,
    Embeddings.embedBatch w texts log = (log ++ new, Js.Ok vectors)
    /\ length vectors = length (kept_texts texts)
    /\ length new = ((length (kept_texts texts) + 127) / 128)%nat
    /\ Forall (fun e => exists batch,
                 e = batch_request batch
                 /\ (0 < length batch <= Embeddings.MAX_BATCH_SIZE)%nat) new.
Proof.
  intros Hw Hkept.
  destruct (embedBatch_in_order w E texts log Hw Hkept)
    as (batches & Hrun & _ & Hsmall & Hcount).
  exists (map batch_request batches), (map E (kept_texts texts)).
  split; [exact Hrun|]. rewrite !length_map. split; [done|]. split; [exact Hcount|].
  apply Forall_fmap. eapply Forall_impl; [exact Hsmall|].
  intros batch Hb. by exists batch.
Qed.

Lemma embedBatch_request_count_witness :
  exists new vectors,
    Embeddings.embedBatch ordered_provider ["alpha"; "  "; " be "] [] = (new, Js.Ok vectors)
    /\ length vectors = 2%nat /\ length new = 1%nat.
Proof.
  destruct (embedBatch_request_count ordered_provider vec_of ["alpha"; "  "; " be "] []
              ordered_provider_in_order) as (new & vectors & Hrun & Hv & Hn & _).
  { discriminate. }
  exists new, vectors. split; [exact Hrun|]. split; [exact Hv|exact Hn].
Defined.

Lemma embedBatch_in_order_lookup_witness :
  exists log' vectors,
    Embeddings.embedBatch ordered_provider ["alpha"; " be "] [] = (log', Js.Ok vectors)
    /\ vectors !! 1%nat = Some (vec_of "be").
Proof.
  destruct (embedBatch_in_order_lookup ordered_provider vec_of ["alpha"; " be "] []
              ordered_provider_in_order) as (log' & vectors & Hrun & _ & Hlook).
  { discriminate. }
  { repeat constructor; discriminate. }
  exists log', vectors. split; [exact Hrun|]. exact (Hlook 1%nat " be " eq_refl).
Defined.

(** ** The indexing script sorts the answer *)

Lemma insert_by_index_perm x l : Embeddings.insert_by_index x l ≡ₚ x :: l.
Proof.
  induction l as [|y l IH]; [done|]. simpl.
  destruct (Embeddings.index x <=? Embeddings.index y)%nat; [done|].
  by rewrite IH, Permutation_swap.
Qed.

Lemma sort_by_index_perm l : Embeddings.sort_by_index l ≡ₚ l.
Proof.
  induction l as [|x l IH]; [done|]. unfold Embeddings.sort_by_index in *.
  cbn [foldr]. by rewrite insert_by_index_perm, IH.
Qed.

Lemma insert_by_index_sorted x l :
  Sorted by_index l -> Sorted by_index (Embeddings.insert_by_index x l).
Proof.
  induction 1 as [|y l Hl IH Hhd]; [by repeat constructor|]. simpl.
  destruct (Embeddings.index x <=? Embeddings.index y)%nat eqn:Hle.
  - apply Nat.leb_le in Hle. by repeat constructor.
  - apply Nat.leb_gt in Hle. constructor; [exact IH|].
    destruct Hhd as [|z l' Hz]; simpl.
    + constructor. unfold by_index. lia.
    + destruct (Embeddings.index x <=? Embeddings.index z)%nat;
        constructor; unfold by_index in *; lia.
Qed.

Lemma sort_by_index_sorted l : Sorted by_index (Embeddings.sort_by_index l).
Proof.
  induction l as [|x l IH]; [constructor|]. by apply insert_by_index_sorted.
Qed.

Lemma tagged_vectors_from (E : string -> Embeddings.Vector) texts : forall k,
  let items := imap (fun i t => {| Embeddings.embedding := E t;
                                   Embeddings.index := k + i |}) texts in
  map Embeddings.embedding items = map E texts
  /\ Sorted by_index items
  /\ Forall (fun x => (k <= Embeddings.index x)%nat) items
  /\ NoDup (map Embeddings.index items).
Proof.
  induction texts as [|t texts IH]; intros k; cbn zeta.
  { repeat split; constructor. }
  rewrite imap_cons. destruct (IH (S k)) as (Hmap & Hsorted & Hbound & Hnodup).
  cbn zeta in *.
  assert (Hext : imap ((fun i t => {| Embeddings.embedding := E t;
                                      Embeddings.index := k + i |}) ∘ S) texts
                 = imap (fun i t => {| Embeddings.embedding := E t;
                                       Embeddings.index := S k + i |}) texts).
  { apply imap_ext. intros i x _. simpl. f_equal. lia. }
  rewrite Hext. cbn [map]. rewrite Hmap, Nat.add_0_r.
  split; [done|]. split; [|split].
  - constructor; [exact Hsorted|].
    destruct Hbound as [|x l Hx _]; constructor. unfold by_index. simpl. lia.
  - constructor; [simpl; lia|]. eapply Forall_impl; [exact Hbound|].
    intros x Hx. simpl in Hx. lia.
  - cbn [Embeddings.index]. constructor; [|exact Hnodup].
    intros Hin. apply list_elem_of_fmap in Hin as (x & Hx & Hin).
    rewrite Forall_forall in Hbound. specialize (Hbound x Hin). lia.
Qed.

#[local] Instance by_index_transitive : Transitive by_index.
Proof. unfold by_index. intros x y z. lia. Qed.

(** Sorting by index undoes any reordering of an answer whose entries
    carry the positions of their inputs. *)
Lemma sort_by_index_restores E texts items :
  items ≡ₚ tagged_vectors E texts ->
  Embeddings.sort_by_index items = tagged_vectors E texts.
Proof.
  intros Hperm.
  destruct (tagged_vectors_from E texts 0) as (_ & Hsorted & _ & Hnodup).
  cbn zeta in *. change (imap _ texts) with (tagged_vectors E texts) in *.
  apply (Sorted_unique_strong by_index);
    [|apply sort_by_index_sorted|exact Hsorted|by rewrite sort_by_index_perm].
  intros x1 x2 Hx1 Hx2 H12 H21.
  rewrite sort_by_index_perm, Hperm in Hx1.
  assert (Hidx : Embeddings.index x1 = Embeddings.index x2)
    by (unfold by_index in *; lia).
  clear -Hx1 Hx2 Hidx Hnodup.
  apply list_elem_of_lookup in Hx1 as (i & Hi), Hx2 as (j & Hj).
  assert (i = j) as ->; [|congruence].
  eapply NoDup_lookup; [exact Hnodup|..];
    rewrite list_lookup_fmap; [by rewrite Hi|by rewrite Hj, Hidx].
Qed.

(** X9. [callVoyageApi] puts the vectors back in input order whatever
    the order in which a successful response lists them, as long as
    each carries the index of its text. *)
Theorem callVoyageApi_sorts_by_index (w : GenerateEmbeddings.World)
    (E : string -> Embeddings.Vector) (texts : list string) (log : list (list string))
    (response : GenerateEmbeddings.HttpResponse) (items : list Embeddings.Item) :
  GenerateEmbeddings.fetch w log texts = Js.Ok response ->
  GenerateEmbeddings.ok response = true ->
  GenerateEmbeddings.json response = Js.Ok items ->
  items ≡ₚ tagged_vectors E texts ->
  GenerateEmbeddings.callVoyageApi w texts log = (log ++ [texts], Js.Ok (map E texts)).
Proof.
  intros Hf Hok Hjson Hperm. unfold GenerateEmbeddings.callVoyageApi.
  rewrite Hf, Hok, Hjson. cbn [negb].
  rewrite (sort_by_index_restores E texts items Hperm).
  pose proof (proj1 (tagged_vectors_from E texts 0)) as Hmap. cbn zeta in Hmap.
  change (imap _ texts) with (tagged_vectors E texts) in Hmap. by rewrite Hmap.
Qed.

Lemma callVoyageApi_sorts_by_index_witness :
  GenerateEmbeddings.callVoyageApi reversing_endpoint ["alpha"; "be"] []
  = ([["alpha"; "be"]], Js.Ok [vec_of "alpha"; vec_of "be"]).
Proof.
  apply (callVoyageApi_sorts_by_index reversing_endpoint vec_of ["alpha"; "be"] []
           {| GenerateEmbeddings.status := 200; GenerateEmbeddings.text := "";
              GenerateEmbeddings.json := Js.Ok (rev (tagged_vectors vec_of ["alpha"; "be"])) |}
           (rev (tagged_vectors vec_of ["alpha"; "be"])));
    [reflexivity..|].
  symmetry. apply Permutation_rev.
Defined.

(** ** The retriever: what it asks, and of whom *)

(** X10. Tenant isolation of the retriever.  Whatever the collaborators
    answer, the calls made by [searchProducts], [searchFaqs] and
    [search] are: at most one embedding request, for the query itself,
    and store procedures called with the caller's tenant id only. *)
Theorem rag_calls_scoped_to_tenant (w : Rag.World) (cfg : Rag.Config)
    (tenantId query : string) (limit : option Js.num) (log : list Rag.Call) :
  let scoped new :=
    Forall (scoped_to tenantId query) new
    /\ (length (List.filter is_embedding new) <= 1)%nat in
  (exists new, (Rag.searchProducts w cfg tenantId query limit log).1 = log ++ new
               /\ scoped new)
  /\ (exists new, (Rag.searchFaqs w cfg tenantId query limit log).1 = log ++ new
                  /\ scoped new)
  /\ (exists new, (Rag.search w cfg tenantId query log).1 = log ++ new /\ scoped new).
Proof.
  intros scoped. unfold scoped, Rag.searchProducts, Rag.searchFaqs, Rag.search.
  destruct (Rag.blank query).
  { split; [|split]; exists []; rewrite app_nil_r;
      (split; [done|split; [constructor|simpl; lia]]). }
  unfold Js.bind, Rag.do_embedQuery, Rag.do_rpc_products, Rag.do_rpc_faqs.
  destruct (Rag.embedQuery w log query) as [v|e].
  - split; [|split].
    + eexists [_; _]. rewrite <- app_assoc. split.
      * by destruct (Rag.rpc_error _).
      * split; [by repeat constructor|simpl; lia].
    + eexists [_; _]. rewrite <- app_assoc. split.
      * by destruct (Rag.rpc_error _).
      * split; [by repeat constructor|simpl; lia].
    + eexists [_; _; _]. rewrite <- !app_assoc. split.
      * by repeat destruct (Rag.rpc_error _).
      * split; [by repeat constructor|simpl; lia].
  - split; [|split]; eexists [_]; (split; [done|]);
      (split; [by repeat constructor|simpl; lia]).
Qed.

(** X11. A failing product procedure makes [search] fail with its message
    even when the FAQ procedure answers; both procedures have been
    called by then, with the one embedding of the query and the
    configured limits. *)
Theorem search_product_error_wins (w : Rag.World) (cfg : Rag.Config)
    (tenantId query : string) (log : list Rag.Call) (v : Embeddings.Vector)
    (msg : string) :
  Rag.blank query = false ->
  Rag.embedQuery w log query = Js.Ok v ->
  Rag.rpc_error (Rag.rpc_search_products w (log ++ [Rag.EmbedQuery query]) v tenantId
                   (Rag.cfg_productLimit cfg)) = Some msg ->
  Rag.search w cfg tenantId query log
  = (log ++ [Rag.EmbedQuery query;
             Rag.RpcSearchProducts v tenantId (Rag.cfg_productLimit cfg);
             Rag.RpcSearchFaqs v tenantId (Rag.cfg_faqLimit cfg)],
     Js.Throw (Js.Error ("Product search failed: " +:+ msg))).
Proof.
  intros Hb Hv Herr. unfold Rag.search. rewrite Hb.
  unfold Js.bind, Rag.do_embedQuery, Rag.do_rpc_products, Rag.do_rpc_faqs.
  rewrite Hv, Herr. by rewrite <- !app_assoc.
Qed.

Lemma search_product_error_wins_witness :
  Rag.search broken_products_world (Rag.make_config None) "t1" "shoes" []
  = ([Rag.EmbedQuery "shoes"; Rag.RpcSearchProducts [1 # 2] "t1" (Js.Num 5);
      Rag.RpcSearchFaqs [1 # 2] "t1" (Js.Num 3)],
     Js.Throw (Js.Error "Product search failed: function not found")).
Proof.
  exact (search_product_error_wins broken_products_world (Rag.make_config None)
           "t1" "shoes" [] [1 # 2] "function not found" eq_refl eq_refl eq_refl).
Defined.

Lemma filter_sublist {A} (P : A -> bool) (l : list A) : sublist (List.filter P l) l.
Proof.
  induction l as [|x l IH]; [constructor|]. simpl.
  destruct (P x); by constructor.
Qed.

(** X12. The hits of [searchProducts] are rows of the store's answer, in
    the order of that answer: the retriever drops rows, it never adds,
    repeats or reorders them. *)
Theorem searchProducts_keeps_store_order (w : Rag.World) (cfg : Rag.Config)
    (tenantId query : string) (limit : option Js.num) (log : list Rag.Call)
    (v : Embeddings.Vector) (rows : list Rag.ProductSearchResult) :
  Rag.blank query = false ->
  Rag.embedQuery w log query = Js.Ok v ->
  Rag.rpc_search_products w (log ++ [Rag.EmbedQuery query]) v tenantId
    (default (Rag.cfg_productLimit cfg) limit)
  = {| Rag.rpc_data := Some rows; Rag.rpc_error := None |} ->
  exists hits,
    (Rag.searchProducts w cfg tenantId query limit log).2 = Js.Ok hits
    /\ sublist hits (map Rag.map_product rows)
    /\ (length hits <= length rows)%nat.
Proof.
  intros Hb Hv Hrows. unfold Rag.searchProducts. rewrite Hb.
  unfold Js.bind, Rag.do_embedQuery, Rag.do_rpc_products. rewrite Hv, Hrows.
  cbn [Rag.rpc_error Rag.rpc_data Js.ret snd].
  eexists. split; [reflexivity|]. unfold Rag.keep_products. cbn [default].
  assert (Hsub : sublist (map Rag.map_product
                    (List.filter (fun p => Js.geb (Rag.row_similarity p)
                                             (Rag.cfg_similarityThreshold cfg)) rows))
                   (map Rag.map_product rows))
    by (apply (fmap_sublist Rag.map_product), filter_sublist).
  split; [exact Hsub|].
  apply sublist_length in Hsub. by rewrite !length_map in *.
Qed.

Lemma searchProducts_keeps_store_order_witness :
  exists hits,
    (Rag.searchProducts rag_demo_world (Rag.make_config None) "t1" "shoes" None []).2
    = Js.Ok hits
    /\ sublist hits (map Rag.map_product [rag_strong_row; rag_weak_row])
    /\ (length hits <= 2)%nat.
Proof.
  exact (searchProducts_keeps_store_order rag_demo_world (Rag.make_config None)
           "t1" "shoes" None [] [1 # 2] [rag_strong_row; rag_weak_row]
           eq_refl eq_refl eq_refl).
Defined.

(** ** The context block and the system prompt *)

Lemma buildContext_no_hits show r :
  has_hits r = false -> Rag.buildContext show r = "".
Proof.
  unfold has_hits, Rag.buildContext.
  destruct (Rag.products r), (Rag.faqs r); [done|discriminate..].
Qed.

(** When something was retrieved the block opens with a section title. *)
Lemma buildContext_hits show r :
  has_hits r = true -> exists rest, Rag.buildContext show r = String "*" rest.
Proof.
  unfold has_hits, Rag.buildContext.
  destruct (Rag.products r) as [|p ps], (Rag.faqs r) as [|f fs]; [discriminate|..];
    intros _; cbn [length Nat.ltb Nat.leb app String.concat]; eexists; reflexivity.
Qed.

(** A context that opens with a section title is not blank. *)
Lemma trim_not_blank rest : Js.trim (String "*" rest) <> "".
Proof.
  assert (Hstart : Js.trimStart (String "*" rest) = String "*" rest)
    by (by destruct rest as [|c2 [|c3 rest]]).
  unfold Js.trim. rewrite Hstart. cbn [Js.trimEnd]. by rewrite Hstart.
Qed.

(** X13. The system prompt handed to the model: the tenant's own prompt
    (the default one when the tenant has none; an empty tenant prompt
    is kept as it is), then the block with the retrieved context
    exactly when the retrieval found a product or an FAQ, then the tool
    guidance. *)
Theorem system_prompt_layout (show : Js.num -> string) (p : Agent.SystemPrompt) :
  let base := default Prompts.DEFAULT_SYSTEM_PROMPT (Agent.tenantPrompt p) in
  Prompts.systemPromptText show p
  = (if has_hits (Agent.ragContext p) then
       base +:+ Prompts.context_opening
       +:+ Rag.buildContext show (Agent.ragContext p) +:+ Prompts.context_closing
     else base)
    +:+ Rag.nl +:+ Prompts.buildToolGuidance.
Proof.
  intros base. unfold Prompts.systemPromptText, Prompts.buildSystemPrompt. fold base.
  destruct (has_hits (Agent.ragContext p)) eqn:Hhits.
  - destruct (buildContext_hits show _ Hhits) as [rest ->].
    cbn [String.eqb Ascii.eqb orb]. 
    destruct (String.length (Js.trim (String "*" rest)) =? 0)%nat eqn:Hlen; [|done].
    apply Nat.eqb_eq in Hlen. pose proof (trim_not_blank rest) as Hne.
    by destruct (Js.trim (String "*" rest)).
  - by rewrite (buildContext_no_hits show _ Hhits).
Qed.

(** ** The tenant resolver: cache hits, expiry, failures *)

(** A call that the cache cannot answer goes to the store, once, and
    what the store says decides the result; a tenant or a "not found"
    is stamped with the clock reading taken after the store answered. *)
Lemma getTenant_stale_step w ttl tenantId s :
  Tenant.blank tenantId = false -> stale w s tenantId ->
  let '(s1, r) := Tenant.getTenant w ttl tenantId s in
  let answer := Tenant.store w (Tenant.queries s) tenantId in
  Tenant.queries s1 = Tenant.queries s ++ [tenantId]
  /\ r = store_answer answer
  /\ (Tenant.ticks s <= Tenant.ticks s1 <= Tenant.ticks s + 2)%nat
  /\ match r with
     | Js.Ok found =>
         (Tenant.ticks s < Tenant.ticks s1)%nat
         /\ Tenant.cache s1
            = <[tenantId := {| Tenant.tenant := found;
                               Tenant.expiresAt :=
                                 Tenant.clock w (Tenant.ticks s1 - 1) + ttl |}]>
                (Tenant.cache s)
     | Js.Throw _ => Tenant.cache s1 = Tenant.cache s
     end.
Proof.
  intros Hb Hstale. unfold Tenant.getTenant. rewrite Hb.
  unfold Js.bind, Tenant.fresh_entry. unfold stale in Hstale.
  destruct (Tenant.cache s !! tenantId) as [cached|] eqn:Hc; simpl.
  - destruct (Tenant.expiresAt cached >? _) eqn:Hexp; [lia|]. simpl.
    destruct (Tenant.store w (Tenant.queries s) tenantId) as [row|code msg]; simpl.
    + repeat split; try lia; by rewrite Nat.sub_0_r.
    + destruct (String.eqb code "PGRST116"); simpl; repeat split; try lia;
        by rewrite Nat.sub_0_r.
  - destruct (Tenant.store w (Tenant.queries s) tenantId) as [row|code msg]; simpl.
    + repeat split; try lia; by rewrite Nat.sub_0_r.
    + destruct (String.eqb code "PGRST116"); simpl; repeat split; try lia;
        by rewrite Nat.sub_0_r.
Qed.

(** A call that finds an unexpired entry returns what the entry holds
    and reads nothing but the clock. *)
Lemma getTenant_fresh_step w ttl tenantId s e :
  Tenant.blank tenantId = false ->
  Tenant.cache s !! tenantId = Some e ->
  Tenant.clock w (Tenant.ticks s) < Tenant.expiresAt e ->
  Tenant.getTenant w ttl tenantId s
  = ({| Tenant.cache := Tenant.cache s; Tenant.queries := Tenant.queries s;
        Tenant.ticks := S (Tenant.ticks s) |}, Js.Ok (Tenant.tenant e)).
Proof.
  intros Hb Hc Hlt. unfold Tenant.getTenant. rewrite Hb.
  unfold Js.bind, Tenant.fresh_entry. rewrite Hc. simpl.
  destruct (Tenant.expiresAt e >? _) eqn:Hexp; [done|lia].
Qed.

(** X14. A tenant found in the store is served from the cache afterwards:
    the second of two calls less than one TTL apart returns the tenant
    the first call loaded, without asking the store, whatever the store
    holds by then. *)
Theorem tenant_served_from_cache (w : Tenant.World) (ttl : Z) (tenantId : string)
    (s : Tenant.St) (row : Tenant.TenantRow) :
  Tenant.blank tenantId = false ->
  stale w s tenantId ->
  Tenant.store w (Tenant.queries s) tenantId = Tenant.Found row ->
  within_ttl w ttl s ->
  let '(s1, r1) := Tenant.getTenant w ttl tenantId s in
  let '(s2, r2) := Tenant.getTenant w ttl tenantId s1 in
  r1 = Js.Ok (Some (Tenant.map_row row))
  /\ r2 = Js.Ok (Some (Tenant.map_row row))
  /\ Tenant.queries s2 = Tenant.queries s ++ [tenantId].
Proof.
  intros Hb Hstale Hrow Hwin.
  pose proof (getTenant_stale_step w ttl tenantId s Hb Hstale) as H1.
  destruct (Tenant.getTenant w ttl tenantId s) as [s1 r1].
  destruct H1 as (Hq & -> & Ht & Hcache). rewrite Hrow in *. cbn [store_answer] in *.
  destruct Hcache as [Hpos Hcache].
  rewrite (getTenant_fresh_step w ttl tenantId s1
             {| Tenant.tenant := Some (Tenant.map_row row);
                Tenant.expiresAt := Tenant.clock w (Tenant.ticks s1 - 1) + ttl |} Hb).
  - done.
  - by rewrite Hcache, lookup_insert_eq.
  - cbn [Tenant.expiresAt]. apply Hwin; lia.
Qed.

Lemma tenant_served_from_cache_witness :
  let '(s1, r1) := Tenant.getTenant acme_world 300000 "acme" Tenant.init in
  let '(s2, r2) := Tenant.getTenant acme_world 300000 "acme" s1 in
  r1 = Js.Ok (Some (Tenant.map_row acme_row))
  /\ r2 = Js.Ok (Some (Tenant.map_row acme_row))
  /\ Tenant.queries s2 = ["acme"].
Proof.
  apply (tenant_served_from_cache acme_world 300000 "acme" Tenant.init acme_row);
    [reflexivity|exact I|reflexivity|].
  intros i j Hi Hj. unfold acme_world. simpl in *. lia.
Defined.

(** X15. An entry is served strictly before its expiry only: a call that
    finds no entry, or one whose expiry is at or before the clock
    reading, asks the store once and returns what the store says now
    (the tenant, [null] for "no such row", an error for any other
    failure); a failure leaves the cache as it was, so that it is not
    remembered. *)
Theorem stale_entry_goes_to_store (w : Tenant.World) (ttl : Z) (tenantId : string)
    (s : Tenant.St) :
  Tenant.blank tenantId = false ->
  stale w s tenantId ->
  let '(s1, r) := Tenant.getTenant w ttl tenantId s in
  Tenant.queries s1 = Tenant.queries s ++ [tenantId]
  /\ r = store_answer (Tenant.store w (Tenant.queries s) tenantId)
  /\ (forall e, r = Js.Throw e -> Tenant.cache s1 = Tenant.cache s).
Proof.
  intros Hb Hstale.
  pose proof (getTenant_stale_step w ttl tenantId s Hb Hstale) as H1.
  destruct (Tenant.getTenant w ttl tenantId s) as [s1 r].
  destruct H1 as (Hq & Hr & _ & Hcache). split; [exact Hq|]. split; [exact Hr|].
  intros e He. by rewrite He in Hcache.
Qed.

Lemma stale_entry_goes_to_store_witness :
  let s1 := (Tenant.getTenant acme_world 500 "acme" Tenant.init).1 in
  let '(s2, r) := Tenant.getTenant acme_world 500 "acme" s1 in
  Tenant.queries s2 = ["acme"; "acme"]
  /\ r = Js.Ok (Some (Tenant.map_row acme_renamed)).
Proof.
  intros s1.
  pose proof (stale_entry_goes_to_store acme_world 500 "acme" s1 eq_refl) as H.
  assert (Hstale : stale acme_world s1 "acme") by (vm_compute; discriminate).
  specialize (H Hstale). destruct (Tenant.getTenant acme_world 500 "acme" s1) as [s2 r].
  destruct H as (Hq & Hr & _). split; [exact Hq|exact Hr].
Defined.

(** X16. [clearCache(id)] makes the next lookup of [id] go to the store
    and leaves the entries of the other tenants alone; without an id,
    or with the empty id, every entry goes. *)
Theorem clearCache_forces_reload (w : Tenant.World) (ttl : Z) (tenantId : string)
    (s : Tenant.St) :
  Tenant.blank tenantId = false ->
  let s1 := (Tenant.clearCache (Some tenantId) s).1 in
  Tenant.queries (Tenant.getTenant w ttl tenantId s1).1 = Tenant.queries s ++ [tenantId]
  /\ (forall other, other <> tenantId ->
        Tenant.cache s1 !! other = Tenant.cache s !! other)
  /\ Tenant.cache (Tenant.clearCache None s).1 = ∅
  /\ Tenant.cache (Tenant.clearCache (Some "") s).1 = ∅.
Proof.
  intros Hb s1.
  assert (Hne : String.eqb tenantId "" = false).
  { unfold Tenant.blank in Hb. by apply orb_false_iff in Hb as [-> _]. }
  assert (Hs1 : Tenant.cache s1 = delete tenantId (Tenant.cache s)).
  { unfold s1, Tenant.clearCache. simpl. by rewrite Hne. }
  split; [|split; [|done]].
  - pose proof (getTenant_stale_step w ttl tenantId s1 Hb) as H.
    destruct (Tenant.getTenant w ttl tenantId s1) as [s2 r].
    apply H. unfold stale. by rewrite Hs1, lookup_delete_eq.
  - intros other Hother. by rewrite Hs1, lookup_delete_ne.
Qed.

Lemma clearCache_forces_reload_witness :
  let s0 := (Tenant.getTenant acme_world 300000 "acme" Tenant.init).1 in
  let s1 := (Tenant.clearCache (Some "acme") s0).1 in
  Tenant.queries (Tenant.getTenant acme_world 300000 "acme" s1).1 = ["acme"; "acme"].
Proof.
  intros s0 s1.
  exact (proj1 (clearCache_forces_reload acme_world 300000 "acme" s0 eq_refl)).
Defined.

(** X17. For an id the store does not know, in every state the service
    can reach: the tenant is not valid, its system prompt is the
    default handed in, and its widget configuration is empty. *)
Theorem unknown_tenant_defaults (w : Tenant.World) (ttl : Z) (tenantId : string)
    (s : Tenant.St) (defaultPrompt : string) :
  reachable w ttl s ->
  absent w tenantId ->
  (Tenant.validateTenant w ttl tenantId s).2 = Js.Ok false
  /\ (Tenant.getSystemPrompt w ttl tenantId defaultPrompt s).2 = Js.Ok defaultPrompt
  /\ (Tenant.getWidgetConfig w ttl tenantId s).2 = Js.Ok (Js.Obj []).
Proof.
  intros Hreach Habs.
  assert (Hnone : (Tenant.getTenant w ttl tenantId s).2 = Js.Ok None).
  { destruct (Tenant.blank tenantId) eqn:Hb.
    - unfold Tenant.getTenant. by rewrite Hb.
    - pose proof (getTenant_absent_step w ttl tenantId s Hb Habs
                    (reachable_no_tenant _ _ _ _ Habs Hreach)) as H.
      destruct (Tenant.getTenant w ttl tenantId s) as [s1 r]. by destruct H as [-> _]. }
  unfold Tenant.validateTenant, Tenant.getSystemPrompt, Tenant.getWidgetConfig, Js.bind.
  destruct (Tenant.getTenant w ttl tenantId s) as [s1 r]. simpl in Hnone. by subst r.
Qed.

Lemma unknown_tenant_defaults_witness :
  (Tenant.getSystemPrompt tenant_demo_world 300000 "ghost" "Be kind." Tenant.init).2
  = Js.Ok "Be kind.".
Proof.
  refine (proj1 (proj2 (unknown_tenant_defaults tenant_demo_world 300000 "ghost"
                          Tenant.init "Be kind." (reach_init _ _) _))).
  intros h. by exists "no rows".
Defined.

(** A lookup changes the entry of the id looked up, at most. *)
Lemma getTenant_frame w ttl tenantId s other :
  other <> tenantId ->
  Tenant.cache (Tenant.getTenant w ttl tenantId s).1 !! other = Tenant.cache s !! other.
Proof.
  intros Hne. unfold Tenant.getTenant.
  destruct (Tenant.blank tenantId); [done|].
  unfold Js.bind, Tenant.fresh_entry.
  destruct (Tenant.cache s !! tenantId) as [cached|]; simpl.
  - destruct (Tenant.expiresAt cached >? _); simpl; [done|].
    destruct (Tenant.store w (Tenant.queries s) tenantId) as [row|code msg]; simpl.
    + by rewrite lookup_insert_ne.
    + destruct (String.eqb code "PGRST116"); simpl; [by rewrite lookup_insert_ne|done].
  - destruct (Tenant.store w (Tenant.queries s) tenantId) as [row|code msg]; simpl.
    + by rewrite lookup_insert_ne.
    + destruct (String.eqb code "PGRST116"); simpl; [by rewrite lookup_insert_ne|done].
Qed.

(** What a lookup leaves under the id looked up: the entry that was
    there, or one made of the store's answer to this very call. *)
Lemma getTenant_entry w ttl tenantId s e :
  Tenant.cache (Tenant.getTenant w ttl tenantId s).1 !! tenantId = Some e ->
  Tenant.cache s !! tenantId = Some e
  \/ Tenant.tenant e = None
  \/ exists row, Tenant.store w (Tenant.queries s) tenantId = Tenant.Found row
                 /\ Tenant.tenant e = Some (Tenant.map_row row).
Proof.
  unfold Tenant.getTenant.
  destruct (Tenant.blank tenantId); [by left|].
  unfold Js.bind, Tenant.fresh_entry.
  destruct (Tenant.cache s !! tenantId) as [cached|] eqn:Hc; simpl.
  - destruct (Tenant.expiresAt cached >? _); simpl; [rewrite Hc; by left|].
    destruct (Tenant.store w (Tenant.queries s) tenantId) as [row|code msg]; simpl.
    + rewrite lookup_insert_eq. intros [= <-]. right. right. by exists row.
    + destruct (String.eqb code "PGRST116"); simpl.
      * rewrite lookup_insert_eq. intros [= <-]. by right; left.
      * rewrite Hc. by left.
  - destruct (Tenant.store w (Tenant.queries s) tenantId) as [row|code msg]; simpl.
    + rewrite lookup_insert_eq. intros [= <-]. right. right. by exists row.
    + destruct (String.eqb code "PGRST116"); simpl.
      * rewrite lookup_insert_eq. intros [= <-]. by right; left.
      * rewrite Hc. by left.
Qed.

(** X18. The cache only ever holds what the store said: in every state
    the service can reach, a tenant cached under an id is a row the
    store returned for that id. *)
Theorem cache_holds_store_rows (w : Tenant.World) (ttl : Z) (s : Tenant.St) :
  reachable w ttl s -> cache_from_store w s.
Proof.
  induction 1 as [|s tenantId Hreach IH|s o Hreach IH]; intros k e t He Ht.
  - unfold Tenant.init in He. simpl in He. by rewrite lookup_empty in He.
  - destruct (decide (k = tenantId)) as [->|Hne].
    + apply getTenant_entry in He as [He|[Hnone|(row & Hrow & Hsome)]].
      * by apply (IH tenantId e t).
      * congruence.
      * exists (Tenant.queries s), row. split; [done|congruence].
    + rewrite getTenant_frame in He by done. by apply (IH k e t).
  - apply (IH k e t); [|done]. unfold Tenant.clearCache in He. simpl in He.
    destruct o as [id|]; [destruct (String.eqb id "")|];
      try (by rewrite lookup_empty in He).
    apply lookup_delete_Some in He. tauto.
Qed.

Lemma cache_holds_store_rows_witness :
  cache_from_store acme_world (Tenant.getTenant acme_world 300000 "acme" Tenant.init).1.
Proof.
  exact (cache_holds_store_rows acme_world 300000 _
           (reach_getTenant acme_world 300000 Tenant.init "acme" (reach_init _ _))).
Defined.

(** ** The tool executor: orders, carts and sessions *)

(** X19. [create_order] without a usable address: when the email is
    missing or is a string without an "@", the tool fails with
    'Valid email address is required' and nothing is looked up, not
    even the cart. *)
Theorem create_order_needs_email (w : Tools.World) (input : gmap string Js.value)
    (context : Tools.AgentContext) (s : Tools.St) :
  input !! "email" = None
  \/ (exists e, input !! "email" = Some (Js.Str e) /\ Js.includes "@" e = false) ->
  Tools.execute w "create_order" input context s
  = (s, Js.Ok (Tools.fail "Valid email address is required")).
Proof.
  intros Hemail. unfold Tools.execute, Js.try_catch.
  change (Tools.dispatch w "create_order" input context)
    with (Tools.createOrder w input context).
  unfold Tools.createOrder, Js.bind, Js.lift, Js.prop.
  destruct Hemail as [->|(e & -> & Hat)]; [done|]. cbn [default from_option id]. unfold Tools.bad_email.
  destruct (Js.truthy (Js.Str e)); [by rewrite Hat|done].
Qed.

Lemma create_order_needs_email_witness :
  Tools.execute stocked_tools "create_order" {[ "email" := Js.Str "ann.example.org" ]}
    returning_context Tools.init
  = (Tools.init, Js.Ok (Tools.fail "Valid email address is required")).
Proof.
  apply create_order_needs_email. right. exists "ann.example.org".
  split; reflexivity.
Defined.

(** X20. [create_order] on a cart with items.  The cart is read from the
    storefront under the id the session resolves to.  Without
    privileged credentials the tool answers with the checkout link of
    that cart and the admin interface is never called; with them, one
    draft order is requested whose lines are the lines of the cart, in
    order, for the address and the note given, and a failure of that
    request becomes a failure result. *)
Theorem create_order_from_cart (w : Tools.World) (input : gmap string Js.value)
    (context : Tools.AgentContext) (s : Tools.St) (e c : string)
    (t : Shopify.TenantConfig) (storefront : Shopify.StorefrontConfig)
    (cart : Shopify.CartResponse) :
  let lookups := [Tools.GetTenant (Tools.tenantId context);
                  Tools.StorefrontGetCart storefront c] in
  input !! "email" = Some (Js.Str e) -> Js.includes "@" e = true ->
  known_cart context s = Some c ->
  Tools.tenant_getTenant w (Tools.log s) (Tools.tenantId context) = Js.Ok (Some t) ->
  Shopify.createStorefrontClient t = Some storefront ->
  Tools.storefront_getCart w (Tools.log s ++ [Tools.GetTenant (Tools.tenantId context)])
    storefront c = Js.Ok cart ->
  Shopify.lines cart <> [] ->
  let '(s', r) := Tools.execute w "create_order" input context s in
  Tools.cartStore s' = Tools.cartStore s
  /\ match Shopify.createAdminClient t with
     | None =>
         Tools.log s' = Tools.log s ++ lookups
         /\ r = Js.Ok (Tools.succeed
                  (Tools.CheckoutLink (Shopify.checkoutUrl cart)
                     "Please complete your order using the checkout link"))
     | Some admin =>
         Tools.log s'
         = Tools.log s ++ lookups
             ++ [Tools.AdminCreateDraftOrder admin (order_lines cart) (Js.Str e)
                   (Js.prop input "note")]
         /\ r = Js.Ok
              match Tools.admin_createDraftOrder w (Tools.log s ++ lookups) admin
                      (order_lines cart) (Js.Str e) (Js.prop input "note") with
              | Js.Ok draftOrder =>
                  Tools.succeed (Tools.DraftOrderCreated draftOrder
                    "Draft order created. Check your email for the invoice.")
              | Js.Throw x => Tools.fail (Js.message_or "Tool execution failed" x)
              end
     end.
Proof.
  intros lookups Hemail Hat Hcart Htenant Hsf Hget Hlines.
  unfold Tools.execute, Js.try_catch.
  change (Tools.dispatch w "create_order" input context)
    with (Tools.createOrder w input context).
  assert (Hprop : Js.prop input "email" = Js.Str e) by (unfold Js.prop; by rewrite Hemail).
  unfold Tools.createOrder, Js.bind, Js.lift. rewrite !Hprop. subst lookups.
  assert (Hbad : Tools.bad_email (Js.Str e) = Js.Ok false).
  { unfold Tools.bad_email. rewrite Hat. by destruct e. }
  rewrite Hbad.
  unfold known_cart in Hcart. unfold Tools.getCartId in *. rewrite Hcart.
  unfold Tools.call at 1. cbn [Tools.log Tools.cartStore]. rewrite Htenant, Hsf.
  unfold Tools.call at 1. cbn [Tools.log Tools.cartStore]. rewrite Hget.
  destruct (Shopify.lines cart) as [|l ls] eqn:El; [done|]. cbn [length Nat.eqb].
  rewrite <- El. fold (order_lines cart).
  destruct (Shopify.createAdminClient t) as [admin|].
  - unfold Tools.call, Js.ret. cbn [Tools.log Tools.cartStore].
    rewrite <- !app_assoc. cbn [app].
    destruct (Tools.admin_createDraftOrder w _ admin _ _ _); cbn; done.
  - unfold Js.ret. cbn. split; [done|]. split; [|done]. by rewrite <- app_assoc.
Qed.

Lemma create_order_from_cart_witness :
  Tools.execute stocked_tools "create_order" order_input returning_context Tools.init
  = ({| Tools.cartStore := ∅;
        Tools.log := [Tools.GetTenant "t1";
                      Tools.StorefrontGetCart demo_storefront "gid://shopify/Cart/c0"] |},
     Js.Ok (Tools.succeed
              (Tools.CheckoutLink "https://shop.myshopify.com/cart/c1"
                 "Please complete your order using the checkout link"))).
Proof.
  pose proof (create_order_from_cart stocked_tools order_input returning_context
                Tools.init "ann@example.org" "gid://shopify/Cart/c0" demo_tenant
                demo_storefront (stocked_cart "gid://shopify/Cart/c0")
                eq_refl eq_refl eq_refl eq_refl eq_refl eq_refl ltac:(discriminate)) as H.
  destruct (Tools.execute stocked_tools "create_order" order_input returning_context
              Tools.init) as [[carts log] r].
  cbn in H. destruct H as (-> & -> & ->). reflexivity.
Defined.

(** X21. A cart the storefront no longer knows is an empty cart, not an
    error: when reading the cart fails, [get_cart] answers with success
    and the message 'Cart is empty or expired'. *)
Theorem get_cart_survives_expiry (w : Tools.World) (input : gmap string Js.value)
    (context : Tools.AgentContext) (s : Tools.St) (c : string)
    (t : Shopify.TenantConfig) (storefront : Shopify.StorefrontConfig) (x : Js.exn) :
  known_cart context s = Some c ->
  Tools.tenant_getTenant w (Tools.log s) (Tools.tenantId context) = Js.Ok (Some t) ->
  Shopify.createStorefrontClient t = Some storefront ->
  Tools.storefront_getCart w (Tools.log s ++ [Tools.GetTenant (Tools.tenantId context)])
    storefront c = Js.Throw x ->
  Tools.execute w "get_cart" input context s
  = ({| Tools.cartStore := Tools.cartStore s;
        Tools.log := Tools.log s ++ [Tools.GetTenant (Tools.tenantId context);
                                     Tools.StorefrontGetCart storefront c] |},
     Js.Ok (Tools.succeed (Tools.EmptyCart "Cart is empty or expired"))).
Proof.
  intros Hcart Htenant Hsf Hget.
  unfold Tools.execute, Js.try_catch at 1.
  change (Tools.dispatch w "get_cart" input context) with (Tools.getCart w context).
  unfold Tools.getCart, Js.bind at 1.
  unfold known_cart in Hcart. unfold Tools.getCartId in *. rewrite Hcart.
  unfold Js.bind at 1, Tools.call at 1. cbn [Tools.log Tools.cartStore].
  rewrite Htenant, Hsf.
  unfold Js.try_catch, Js.bind, Tools.call. cbn [Tools.log Tools.cartStore].
  rewrite Hget. unfold Js.ret. by rewrite <- app_assoc.
Qed.

Lemma get_cart_survives_expiry_witness :
  (Tools.execute expired_cart_tools "get_cart" ∅ returning_context Tools.init).2
  = Js.Ok (Tools.succeed (Tools.EmptyCart "Cart is empty or expired")).
Proof.
  by rewrite (get_cart_survives_expiry expired_cart_tools ∅ returning_context Tools.init
                "gid://shopify/Cart/c0" demo_tenant demo_storefront
                (Js.Error "Cart not found") eq_refl eq_refl eq_refl eq_refl).
Defined.

(** *** Who writes the session-to-cart map *)

Lemma searchProducts_keeps_carts w input context s :
  Tools.cartStore (Tools.searchProducts w input context s).1 = Tools.cartStore s.
Proof. unfold Tools.searchProducts. run_tool. Qed.

Lemma getProductDetails_keeps_carts w input context s :
  Tools.cartStore (Tools.getProductDetails w input context s).1 = Tools.cartStore s.
Proof. unfold Tools.getProductDetails. run_tool. Qed.

Lemma getCart_keeps_carts w context s :
  Tools.cartStore (Tools.getCart w context s).1 = Tools.cartStore s.
Proof. unfold Tools.getCart. run_tool. Qed.

Lemma searchFaqs_keeps_carts w input context s :
  Tools.cartStore (Tools.searchFaqs w input context s).1 = Tools.cartStore s.
Proof. unfold Tools.searchFaqs. run_tool. Qed.

Lemma createOrder_keeps_carts w input context s :
  Tools.cartStore (Tools.createOrder w input context s).1 = Tools.cartStore s.
Proof. unfold Tools.createOrder. run_tool. Qed.

Lemma addToCart_writes_own_key w input context s k :
  k <> Tools.sessionKey context ->
  Tools.cartStore (Tools.addToCart w input context s).1 !! k = Tools.cartStore s !! k.
Proof.
  intros Hk. unfold Tools.addToCart. run_tool; by rewrite lookup_insert_ne.
Qed.

Lemma execute_state w toolName input context s :
  (Tools.execute w toolName input context s).1
  = (Tools.dispatch w toolName input context s).1.
Proof.
  unfold Tools.execute, Js.try_catch.
  by destruct (Tools.dispatch w toolName input context s) as [s' [r|e]].
Qed.

Lemma dispatch_keeps_carts w toolName input context s :
  changes_carts toolName = false ->
  Tools.cartStore (Tools.dispatch w toolName input context s).1 = Tools.cartStore s.
Proof.
  unfold changes_carts, Tools.dispatch. intros ->.
  repeat case_match;
    auto using searchProducts_keeps_carts, getProductDetails_keeps_carts,
      getCart_keeps_carts, searchFaqs_keeps_carts, createOrder_keeps_carts.
Qed.

Lemma execute_writes_own_key w toolName input context s k :
  k <> Tools.sessionKey context ->
  Tools.cartStore (Tools.execute w toolName input context s).1 !! k
  = Tools.cartStore s !! k.
Proof.
  intros Hk. rewrite execute_state.
  destruct (changes_carts toolName) eqn:Htool.
  - apply String.eqb_eq in Htool as ->.
    change (Tools.dispatch w "add_to_cart" input context)
      with (Tools.addToCart w input context).
    by apply addToCart_writes_own_key.
  - by rewrite dispatch_keeps_carts.
Qed.

(** X22. Only [add_to_cart] ever writes the session-to-cart map: every
    other tool name, known or not, leaves the map exactly as it was,
    whatever the input and whatever the collaborators answer. *)
Theorem only_add_to_cart_writes_carts (w : Tools.World) (toolName : string)
    (input : gmap string Js.value) (context : Tools.AgentContext) (s : Tools.St) :
  toolName <> "add_to_cart" ->
  Tools.cartStore (Tools.execute w toolName input context s).1 = Tools.cartStore s.
Proof.
  intros Hname. rewrite execute_state. apply dispatch_keeps_carts.
  by apply String.eqb_neq.
Qed.

Lemma only_add_to_cart_writes_carts_witness :
  Tools.cartStore
    (Tools.execute stocked_tools "create_order" order_input demo_context demo_after_add).1
  = Tools.cartStore demo_after_add.
Proof.
  apply only_add_to_cart_writes_carts. discriminate.
Defined.

Lemma colon_free_cons c s :
  colon_free (String c s) -> c <> ":"%char /\ colon_free s.
Proof.
  unfold colon_free. cbn [Js.includes String.prefix].
  intros [Hp Hs]%orb_false_iff. split; [|exact Hs].
  intros ->. destruct (Ascii.ascii_dec ":" ":") as [_|Hne]; [|done].
  by destruct s.
Qed.

Lemma sessionKey_split t1 : forall t2 s1 s2,
  colon_free t1 -> colon_free t2 ->
  t1 +:+ ":" +:+ s1 = t2 +:+ ":" +:+ s2 -> t1 = t2 /\ s1 = s2.
Proof.
  induction t1 as [|c1 t1 IH]; intros [|c2 t2] s1 s2 H1 H2 Heq;
    cbv [String.app] in Heq; fold String.app in Heq.
  - by injection Heq as ->.
  - apply colon_free_cons in H2 as [Hc _]. injection Heq as <- _. done.
  - apply colon_free_cons in H1 as [Hc _]. injection Heq as -> _. done.
  - apply colon_free_cons in H1 as [_ H1], H2 as [_ H2].
    injection Heq as -> Heq. destruct (IH t2 s1 s2 H1 H2 Heq) as [-> ->]. done.
Qed.

(** X23. Carts are per session.  For tenant ids without a colon, two
    contexts that differ in the tenant or in the session use different
    keys, and no tool call made for one of them changes the cart the
    executor remembers for the other. *)
Theorem carts_are_per_session (w : Tools.World) (toolName : string)
    (input : gmap string Js.value) (a b : Tools.AgentContext) (s : Tools.St) :
  colon_free (Tools.tenantId a) -> colon_free (Tools.tenantId b) ->
  (Tools.tenantId a, Tools.sessionId a) <> (Tools.tenantId b, Tools.sessionId b) ->
  Tools.sessionKey a <> Tools.sessionKey b
  /\ Tools.cartStore (Tools.execute w toolName input a s).1 !! Tools.sessionKey b
     = Tools.cartStore s !! Tools.sessionKey b.
Proof.
  intros Ha Hb Hne.
  assert (Hkeys : Tools.sessionKey a <> Tools.sessionKey b).
  { unfold Tools.sessionKey. intros Heq.
    destruct (sessionKey_split _ _ _ _ Ha Hb Heq) as [Ht Hs]. apply Hne. congruence. }
  split; [exact Hkeys|]. apply execute_writes_own_key. congruence.
Qed.

Lemma carts_are_per_session_witness :
  Tools.cartStore
    (Tools.execute demo_tools "add_to_cart" one_variant demo_context Tools.init).1
  !! Tools.sessionKey other_session = None.
Proof.
  refine (proj2 (carts_are_per_session demo_tools "add_to_cart" one_variant demo_context
                   other_session Tools.init eq_refl eq_refl _)).
  discriminate.
Defined.

(** ** The client factory *)

(** X24. The access checks of the factory agree with what it builds: a
    storefront (admin) client exists exactly when the check says so,
    namely when the tenant has a non-empty store address and a
    non-empty storefront (admin) token, and the client carries exactly
    these two. *)
Theorem factory_access_agrees (tenant : Shopify.TenantConfig) :
  (Shopify.hasStorefrontAccess tenant = true
   <-> is_Some (Shopify.createStorefrontClient tenant))
  /\ (Shopify.hasAdminAccess tenant = true
      <-> is_Some (Shopify.createAdminClient tenant))
  /\ (forall client, Shopify.createStorefrontClient tenant = Some client ->
        exists credentials,
          Shopify.shopifyCredentials tenant = Some credentials
          /\ Shopify.storeUrl credentials = Some (Shopify.sf_storeUrl client)
          /\ Shopify.storefrontToken credentials = Some (Shopify.sf_storefrontToken client)
          /\ Shopify.sf_storeUrl client <> ""
          /\ Shopify.sf_storefrontToken client <> "")
  /\ (forall client, Shopify.createAdminClient tenant = Some client ->
        exists credentials,
          Shopify.shopifyCredentials tenant = Some credentials
          /\ Shopify.storeUrl credentials = Some (Shopify.ad_storeUrl client)
          /\ Shopify.adminToken credentials = Some (Shopify.ad_adminToken client)
          /\ Shopify.ad_storeUrl client <> ""
          /\ Shopify.ad_adminToken client <> "").
Proof.
  unfold Shopify.hasStorefrontAccess, Shopify.hasAdminAccess,
    Shopify.createStorefrontClient, Shopify.createAdminClient.
  destruct (Shopify.shopifyCredentials tenant) as [[url sft adt]|]; cbn [mbind option_bind
    Shopify.storeUrl Shopify.storefrontToken Shopify.adminToken].
  2:{ cbn. repeat split; try done; by intros []. }
  split; [|split; [|split]].
  - destruct (Shopify.present url), (Shopify.present sft); cbn;
      split; try done; try (by intros []); by eauto.
  - destruct (Shopify.present url), (Shopify.present adt); cbn;
      split; try done; try (by intros []); by eauto.
  - intros client. destruct (Shopify.present url) as [u|] eqn:Hu; [|done].
    destruct (Shopify.present sft) as [k|] eqn:Hk; [|done]. intros [= <-].
    apply present_Some_inv in Hu as [-> Hu], Hk as [-> Hk].
    eexists. split; [reflexivity|]. by cbn.
  - intros client. destruct (Shopify.present url) as [u|] eqn:Hu; [|done].
    destruct (Shopify.present adt) as [k|] eqn:Hk; [|done]. intros [= <-].
    apply present_Some_inv in Hu as [-> Hu], Hk as [-> Hk].
    eexists. split; [reflexivity|]. by cbn.
Qed.

(** ** The orchestrator: requests, rounds and where the answer comes from *)

Lemma buildPrompt_requests w context query s :
  Agent.requests (Agent.buildPrompt w context query s).1 = Agent.requests s.
Proof.
  unfold Agent.buildPrompt, Js.bind, Agent.on_executor, Tools.call, Js.ret.
  repeat (simpl; case_match); simplify_eq/=; done.
Qed.

(** One model turn worth of tool blocks: the calls are recorded and the
    results handed back in the order of the blocks, each result under
    the id of its block; the model is not contacted. *)
Lemma run_tool_blocks_trace w context blocks : forall v results s,
  exists s' v' calls new,
    Agent.run_tool_blocks w context blocks v results s
    = (s', Js.Ok (v', results ++ new))
    /\ Agent.requests s' = Agent.requests s
    /\ executed_in_order (Agent.tools w) context blocks (Agent.v_cartId v)
         (Agent.executor s) calls (Agent.executor s')
    /\ new = results_for blocks calls
    /\ Agent.allToolCalls v' = Agent.allToolCalls v ++ calls
    /\ map Agent.tool calls = map Agent.tu_name blocks
    /\ map Agent.tool_use_id new = map Agent.tu_id blocks
    /\ map Agent.tr_content new = map Agent.result_of calls
    /\ (forall ctxCart, cart_from ctxCart (Agent.allToolCalls v) (Agent.v_cartId v) ->
          cart_from ctxCart (Agent.allToolCalls v') (Agent.v_cartId v'))
    /\ (checkout_from (Agent.allToolCalls v) (Agent.v_checkoutUrl v) ->
          checkout_from (Agent.allToolCalls v') (Agent.v_checkoutUrl v')).
Proof.
  induction blocks as [|b blocks IH]; intros v results s; simpl.
  - eexists _, _, [], []. rewrite !app_nil_r.
    split; [done|]. split; [done|]. split; [constructor|]. by repeat split.
  - unfold Js.bind at 1. unfold Agent.on_executor.
    destruct (execute_returns (Agent.tools w) (Agent.tu_name b) (Agent.tu_input b)
                {| Tools.tenantId := Tools.tenantId context;
                   Tools.sessionId := Tools.sessionId context;
                   Tools.ctx_cartId := Agent.v_cartId v |} (Agent.executor s))
      as (e' & r & Hexec). rewrite Hexec.
    set (call := {| Agent.tool := Agent.tu_name b; Agent.result_of := r |}).
    edestruct IH as (s' & v' & calls & new & -> & Hreq & Hrun & Hnew & Hcalls & Hnames
                       & Hids & Hres & Hcart & Hurl).
    eexists _, _, (call :: calls),
      ({| Agent.tool_use_id := Agent.tu_id b; Agent.tr_content := r |} :: new).
    split; [by rewrite <- app_assoc|]. split; [exact Hreq|].
    split; [econstructor; [exact Hexec|exact Hrun]|].
    split; [simpl; by rewrite Hnew|].
    split; [rewrite Hcalls; simpl; by rewrite <- app_assoc|].
    split; [simpl; by rewrite Hnames|]. split; [simpl; by rewrite Hids|].
    split; [simpl; by rewrite Hres|]. split.
    + intros ctxCart Hin. apply Hcart. unfold Agent.record_result. simpl.
      fold call. unfold cart_from in *.
      destruct (if Tools.success r then Tools.data r ≫= Agent.data_cartId else None)
        as [id|] eqn:Hid.
      * right. exists call, id. split; [apply elem_of_app; right; by left|]. by split.
      * destruct Hin as [Hin|(c & id & Hc & Hrep & Hin)]; [by left|].
        right. exists c, id. split; [apply elem_of_app; by left|]. by split.
    + intros Hin. apply Hurl. unfold Agent.record_result. simpl.
      fold call. unfold checkout_from in *.
      destruct (if Tools.success r then Tools.data r ≫= Agent.data_checkoutUrl else None)
        as [u|] eqn:Hu.
      * right. exists call, u. split; [apply elem_of_app; right; by left|]. by split.
      * destruct Hin as [Hin|(c & u & Hc & Hrep & Hin)]; [by left|].
        right. exists c, u. split; [apply elem_of_app; by left|]. by split.
Qed.

(** The loop sends at most one request per round it is allowed, all of
    them carrying tool results, and keeps the provenance of the cart id
    and of the checkout link. *)
Lemma tool_loop_trace w context systemPrompt : forall remaining claudeResponse msgs v s,
  exists rounds,
    let '(s', r) :=
      Agent.tool_loop w context systemPrompt remaining claudeResponse msgs v s in
    Agent.requests s' = Agent.requests s ++ rounds
    /\ (length rounds <= remaining)%nat
    /\ Forall is_tool_round rounds
    /\ match r with
       | Js.Ok (final, v') =>
           (forall ctxCart, cart_from ctxCart (Agent.allToolCalls v) (Agent.v_cartId v) ->
              cart_from ctxCart (Agent.allToolCalls v') (Agent.v_cartId v'))
           /\ (checkout_from (Agent.allToolCalls v) (Agent.v_checkoutUrl v) ->
               checkout_from (Agent.allToolCalls v') (Agent.v_checkoutUrl v'))
       | Js.Throw _ => True
       end.
Proof.
  induction remaining as [|n IH]; intros claudeResponse msgs v s; simpl.
  - exists []. rewrite app_nil_r. by repeat split.
  - destruct (Agent.is_tool_use (Agent.stop_reason claudeResponse)).
    2:{ exists []. rewrite app_nil_r. split; [done|]. split; [simpl; lia|]. by repeat split. }
    unfold Js.bind at 1.
    destruct (run_tool_blocks_trace w context
                (Agent.extractToolUse (Agent.content claudeResponse)) v [] s)
      as (s1 & v1 & calls & new & -> & Hreq1 & _ & _ & _ & _ & _ & _ & Hcart1 & Hurl1).
    unfold Js.bind at 1. unfold Agent.callClaudeWithToolResults, Agent.ask.
    match goal with
    | |- context [Agent.claude w ?h ?c] => destruct (Agent.claude w h c) as [next|e]
    end.
    + match goal with
      | |- context [Agent.tool_loop w context systemPrompt n next ?m v1 ?st] =>
          destruct (IH next m v1 st) as [rounds Hloop];
          destruct (Agent.tool_loop w context systemPrompt n next m v1 st) as [s' r]
      end.
      destruct Hloop as (Hreq & Hlen & Hall & Hprov).
      eexists (_ :: rounds). rewrite Hreq. cbn [Agent.requests].
      rewrite Hreq1, <- app_assoc.
      split; [reflexivity|]. split; [simpl; lia|]. split; [by constructor|].
      destruct r as [[final v']|e]; [|done]. destruct Hprov as [Hc Hu]. split.
      * intros ctxCart Hin. by apply Hc, Hcart1.
      * intros Hin. by apply Hu, Hurl1.
    + eexists [_]. cbn [Agent.requests]. rewrite Hreq1.
      split; [reflexivity|]. split; [simpl; lia|]. split; [by repeat constructor|done].
Qed.

(** X25. Whatever the model and the tools do, one call of
    [processMessage] sends at most [1 + MAX_TOOL_ITERATIONS] = 6
    requests to the model: the initial one with the messages as given,
    then only requests that carry tool results.  Earlier requests stay
    in the history. *)
Theorem llm_request_bound (w : Agent.World) (messages : list Agent.ChatMessage)
    (context : Tools.AgentContext) (s : Agent.St) :
  exists new,
    Agent.requests (Agent.processMessage w messages context s).1
    = Agent.requests s ++ new
    /\ (length new <= 1 + Agent.MAX_TOOL_ITERATIONS)%nat
    /\ match new with
       | [] => True
       | first :: rounds =>
           (exists systemPrompt, first = Agent.CallClaude messages systemPrompt)
           /\ Forall is_tool_round rounds
       end.
Proof.
  unfold Agent.processMessage. unfold Js.bind at 1.
  pose proof (buildPrompt_requests w context (Agent.userQuery messages) s) as Hprompt.
  destruct (Agent.buildPrompt w context (Agent.userQuery messages) s) as [s0 [p|e]];
    simpl in Hprompt.
  2:{ exists []. rewrite app_nil_r. split; [done|]. split; [simpl; lia|done]. }
  unfold Js.bind at 1. unfold Agent.callClaude, Agent.ask. rewrite Hprompt.
  destruct (Agent.claude w (Agent.requests s) (Agent.CallClaude messages p)) as [r|e].
  2:{ eexists [_]. split; [reflexivity|]. split; [simpl; lia|]. split; [eauto|done]. }
  unfold Js.bind at 1.
  match goal with
  | |- context [Agent.tool_loop w context p ?n r ?m ?v ?st] =>
      destruct (tool_loop_trace w context p n r m v st) as [rounds Hloop];
      destruct (Agent.tool_loop w context p n r m v st) as [s' [[final v']|e]]
  end; destruct Hloop as (Hreq & Hlen & Hall & _); cbn [Agent.requests] in Hreq;
    exists (Agent.CallClaude messages p :: rounds);
    (split; [cbn; by rewrite Hreq, <- app_assoc|]); (split; [simpl; lia|]);
    (split; [eauto|done]).
Qed.

(** X26. A response that does not ask for tools ends the turn: the reply
    is its text, no tool is run (even if the response carries tool
    blocks, as one cut off at the token limit may), exactly one request
    has gone to the model, and the cart id of the request context comes
    back unchanged. *)
Theorem direct_answer (w : Agent.World) (messages : list Agent.ChatMessage)
    (context : Tools.AgentContext) (s s0 : Agent.St) (systemPrompt : Agent.SystemPrompt)
    (r : Agent.ClaudeResponse) :
  Agent.buildPrompt w context (Agent.userQuery messages) s = (s0, Js.Ok systemPrompt) ->
  Agent.claude w (Agent.requests s) (Agent.CallClaude messages systemPrompt) = Js.Ok r ->
  Agent.stop_reason r <> Agent.tool_use ->
  Agent.processMessage w messages context s
  = ({| Agent.executor := Agent.executor s0;
        Agent.requests := Agent.requests s ++ [Agent.CallClaude messages systemPrompt] |},
     Js.Ok {| Agent.reply := Agent.extractText (Agent.content r);
              Agent.toolCalls := None;
              Agent.cartId := Tools.ctx_cartId context;
              Agent.checkoutUrl := None |}).
Proof.
  intros Hprompt Hr Hstop.
  pose proof (buildPrompt_requests w context (Agent.userQuery messages) s) as Hreq.
  rewrite Hprompt in Hreq. simpl in Hreq.
  unfold Agent.processMessage. unfold Js.bind at 1. rewrite Hprompt.
  unfold Js.bind at 1. unfold Agent.callClaude, Agent.ask. rewrite Hreq, Hr.
  unfold Agent.MAX_TOOL_ITERATIONS. cbn [Agent.tool_loop].
  destruct (Agent.stop_reason r); done.
Qed.

Lemma direct_answer_witness :
  (Agent.processMessage direct_world demo_messages returning_context Agent.init).2
  = Js.Ok {| Agent.reply := long_reply; Agent.toolCalls := None;
             Agent.cartId := Some "gid://shopify/Cart/c0";
             Agent.checkoutUrl := None |}.
Proof.
  by rewrite (direct_answer direct_world demo_messages returning_context Agent.init
                (Agent.buildPrompt direct_world returning_context
                   (Agent.userQuery demo_messages) Agent.init).1
                {| Agent.tenantPrompt := None; Agent.ragContext := no_hits |}
                {| Agent.content := [Agent.TextBlock long_reply];
                   Agent.stop_reason := Agent.end_turn |} eq_refl eq_refl ltac:(discriminate)).
Defined.

(** X27. A retriever that fails while the prompt is built ends the turn
    before the model is contacted: [processMessage] throws the
    retriever's error, no request has been sent, and the stream
    consists of one error event with the message of that error. *)
Theorem retrieval_failure_aborts_turn (w : Agent.World)
    (messages : list Agent.ChatMessage) (context : Tools.AgentContext) (s : Agent.St)
    (tenant : option Shopify.TenantConfig) (e : Js.exn) :
  let tenantId := Tools.tenantId context in
  let history := Tools.log (Agent.executor s) in
  Tools.tenant_getTenant (Agent.tools w) history tenantId = Js.Ok tenant ->
  Tools.rag_search (Agent.tools w) (history ++ [Tools.GetTenant tenantId]) tenantId
    (Agent.userQuery messages) = Js.Throw e ->
  exists s',
    Agent.processMessage w messages context s = (s', Js.Throw e)
    /\ Agent.requests s' = Agent.requests s
    /\ Agent.processMessageStream w messages context s
       = (s', [Agent.error_event (Js.message_or "Unknown error" e)]).
Proof.
  intros tenantId history Htenant Hrag.
  unfold Agent.processMessageStream, Agent.processMessage.
  unfold Js.bind at 1 3. unfold Agent.buildPrompt.
  unfold Js.bind, Agent.on_executor, Tools.call. cbn [Tools.log Agent.executor].
  fold tenantId history. rewrite Htenant. cbn [Tools.log Agent.executor].
  fold tenantId history. rewrite Hrag.
  eexists. split; [reflexivity|]. split; reflexivity.
Qed.

Lemma retrieval_failure_aborts_turn_witness :
  (Agent.processMessageStream retrieval_down_world demo_messages demo_context Agent.init).2
  = [Agent.error_event "Product search failed: timeout"].
Proof.
  destruct (retrieval_failure_aborts_turn retrieval_down_world demo_messages demo_context
              Agent.init (Some demo_tenant) (Js.Error "Product search failed: timeout")
              eq_refl eq_refl) as (s' & _ & _ & ->).
  reflexivity.
Defined.

(** The loop, one step at a time. *)
Lemma tool_loop_step w context systemPrompt n r msgs v :
  Agent.stop_reason r = Agent.tool_use ->
  Agent.tool_loop w context systemPrompt (S n) r msgs v
  = let withAssistant :=
      msgs ++ [{| Agent.cm_role := Agent.assistant;
                  Agent.cm_content := Agent.Blocks (Agent.content r) |}] in
    let* '(v', toolResults) :=
      Agent.run_tool_blocks w context (Agent.extractToolUse (Agent.content r)) v [] in
    let withResults :=
      withAssistant ++ [{| Agent.cm_role := Agent.user;
                           Agent.cm_content := Agent.ToolResults toolResults |}] in
    let* next := Agent.callClaudeWithToolResults w withResults systemPrompt in
    Agent.tool_loop w context systemPrompt n next withResults v'.
Proof. intros Hstop. cbn [Agent.tool_loop]. by rewrite Hstop. Qed.

Lemma tool_loop_stop w context systemPrompt n r msgs v :
  Agent.stop_reason r <> Agent.tool_use ->
  Agent.tool_loop w context systemPrompt n r msgs v = Js.ret (r, v).
Proof. intros Hstop. destruct n; [done|]. simpl. by destruct (Agent.stop_reason r). Qed.

(** X28. One tool round.  When the first response asks for tools, every
    tool block of it is handed to the executor, in order, under its
    name and with its input, each call seeing the cart id left by the
    calls before it.  The model is then sent the conversation so far,
    its own response, and the result of each call under the id of its
    block, in the same order.  If the model answers that without asking
    again, the reply is the text of that answer, [toolCalls] lists the
    calls in the order of the blocks, and the executor is left as the
    last call left it. *)
Theorem one_tool_round (w : Agent.World) (messages : list Agent.ChatMessage)
    (context : Tools.AgentContext) (s s0 : Agent.St) (systemPrompt : Agent.SystemPrompt)
    (r1 : Agent.ClaudeResponse) :
  let blocks := Agent.extractToolUse (Agent.content r1) in
  let first := Agent.CallClaude messages systemPrompt in
  Agent.buildPrompt w context (Agent.userQuery messages) s = (s0, Js.Ok systemPrompt) ->
  Agent.claude w (Agent.requests s) first = Js.Ok r1 ->
  Agent.stop_reason r1 = Agent.tool_use ->
  exists calls e2,
    executed_in_order (Agent.tools w) context blocks (Tools.ctx_cartId context)
      (Agent.executor s0) calls e2
    /\ length calls = length blocks
    /\ let second :=
         Agent.CallClaudeWithToolResults
           (as_conversation messages ++ round_messages r1 (results_for blocks calls))
           systemPrompt in
       forall r2,
         Agent.claude w (Agent.requests s ++ [first]) second = Js.Ok r2 ->
         Agent.stop_reason r2 <> Agent.tool_use ->
         exists response,
           Agent.processMessage w messages context s
           = ({| Agent.executor := e2;
                 Agent.requests := Agent.requests s ++ [first; second] |},
              Js.Ok response)
           /\ Agent.reply response = Agent.extractText (Agent.content r2)
           /\ Agent.toolCalls response
              = match calls with [] => None | _ :: _ => Some calls end.
Proof.
  intros blocks first Hprompt Hr1 Hstop.
  pose proof (buildPrompt_requests w context (Agent.userQuery messages) s) as Hreq.
  rewrite Hprompt in Hreq. simpl in Hreq.
  set (v0 := {| Agent.allToolCalls := []; Agent.v_cartId := Tools.ctx_cartId context;
                Agent.v_checkoutUrl := None |}).
  set (s1 := {| Agent.executor := Agent.executor s0;
                Agent.requests := Agent.requests s ++ [first] |}).
  destruct (run_tool_blocks_trace w context blocks v0 [] s1)
    as (s2 & v1 & calls & results & Hrun & Hreq2 & Hexec & -> & Hcalls & Hnames & _).
  exists calls, (Agent.executor s2). split; [exact Hexec|].
  split; [by rewrite <- (length_map Agent.tool), Hnames, length_map|].
  intros second r2 Hr2 Hstop2.
  assert (Hloop : Agent.tool_loop w context systemPrompt Agent.MAX_TOOL_ITERATIONS r1
                    (as_conversation messages) v0 s1
                  = ({| Agent.executor := Agent.executor s2;
                        Agent.requests := Agent.requests s ++ [first; second] |},
                     Js.Ok (r2, v1))).
  { unfold Agent.MAX_TOOL_ITERATIONS. rewrite tool_loop_step by done. cbv zeta.
    unfold Js.bind at 1. fold blocks. rewrite Hrun. cbn [app].
    unfold Js.bind at 1. unfold Agent.callClaudeWithToolResults, Agent.ask.
    rewrite Hreq2. cbn [Agent.requests s1]. rewrite <- (app_assoc (as_conversation messages)).
    change ([{| Agent.cm_role := Agent.assistant;
                Agent.cm_content := Agent.Blocks (Agent.content r1) |}]
            ++ [{| Agent.cm_role := Agent.user;
                   Agent.cm_content := Agent.ToolResults (results_for blocks calls) |}])
      with (round_messages r1 (results_for blocks calls)).
    fold second. rewrite Hr2, tool_loop_stop by done.
    unfold Js.ret. by rewrite <- app_assoc. }
  unfold Agent.processMessage. unfold Js.bind at 1. rewrite Hprompt.
  unfold Js.bind at 1. unfold Agent.callClaude, Agent.ask. rewrite Hreq.
  fold first. rewrite Hr1. fold s1 v0 (as_conversation messages).
  unfold Js.bind. rewrite Hloop. unfold Js.ret.
  eexists. split; [reflexivity|]. cbn [Agent.reply Agent.toolCalls].
  split; [done|].
  rewrite Hcalls. cbn [app Agent.allToolCalls v0]. by destruct calls.
Qed.

(** The executor is asked for the cart, once, and the model is told. *)
Lemma one_tool_round_witness :
  exists s' response result,
    Agent.processMessage one_round_world demo_messages demo_context Agent.init
    = (s', Js.Ok response)
    /\ Agent.reply response = "Your cart is empty."
    /\ Agent.toolCalls response
       = Some [{| Agent.tool := "get_cart"; Agent.result_of := result |}]
    /\ Tools.execute demo_tools "get_cart" ∅ demo_context
         (Agent.buildPrompt one_round_world demo_context
            (Agent.userQuery demo_messages) Agent.init).1.(Agent.executor)
       = (Agent.executor s', Js.Ok result)
    /\ length (Agent.requests s') = 2%nat.
Proof.
  destruct (one_tool_round one_round_world demo_messages demo_context Agent.init
              (Agent.buildPrompt one_round_world demo_context
                 (Agent.userQuery demo_messages) Agent.init).1
              {| Agent.tenantPrompt := None; Agent.ragContext := no_hits |}
              cart_loop_response eq_refl eq_refl eq_refl)
    as (calls & e2 & Hexec & Hlen & Hrest).
  destruct (Hrest {| Agent.content := [Agent.TextBlock "Your cart is empty."];
                     Agent.stop_reason := Agent.end_turn |} eq_refl ltac:(discriminate))
    as (response & Hrun & Hreply & Hcalls).
  inversion Hexec as [|b blocks cart e e1 e2' result calls' Hcall Hmore]; subst.
  inversion Hmore; subst.
  eexists _, response, result. split; [exact Hrun|]. split; [exact Hreply|].
  split; [exact Hcalls|]. split; [exact Hcall|reflexivity].
Defined.

(** X29. Nothing in an answer is made up by the orchestrator: the cart id
    it returns is the one of the request context or one reported by a
    successful tool call of this turn, and a checkout link, if any, was
    reported by a successful tool call of this turn. *)
Theorem answer_comes_from_tools (w : Agent.World) (messages : list Agent.ChatMessage)
    (context : Tools.AgentContext) (s s' : Agent.St) (response : Agent.AgentResponse) :
  Agent.processMessage w messages context s = (s', Js.Ok response) ->
  let calls := default [] (Agent.toolCalls response) in
  cart_from (Tools.ctx_cartId context) calls (Agent.cartId response)
  /\ checkout_from calls (Agent.checkoutUrl response).
Proof.
  unfold Agent.processMessage. unfold Js.bind at 1.
  destruct (Agent.buildPrompt w context (Agent.userQuery messages) s) as [s0 [p|e]];
    [|discriminate].
  unfold Js.bind at 1.
  destruct (Agent.callClaude w messages p s0) as [s1 [r|e]]; [|discriminate].
  unfold Js.bind at 1.
  match goal with
  | |- context [Agent.tool_loop w context p ?n r ?m ?v s1] =>
      destruct (tool_loop_trace w context p n r m v s1) as [rounds Hloop];
      destruct (Agent.tool_loop w context p n r m v s1) as [s2 [[final v']|e]];
      [|discriminate]
  end.
  destruct Hloop as (_ & _ & _ & Hcart & Hurl).
  intros [= _ <-]. cbn [Agent.toolCalls Agent.cartId Agent.checkoutUrl].
  assert (Hcalls : default [] (if (0 <? length (Agent.allToolCalls v'))%nat
                               then Some (Agent.allToolCalls v') else None)
                   = Agent.allToolCalls v') by (by destruct (Agent.allToolCalls v')).
  rewrite Hcalls. split.
  - apply Hcart. by left.
  - apply Hurl. by left.
Qed.

Lemma answer_comes_from_tools_witness :
  exists s' response,
    Agent.processMessage one_round_world demo_messages demo_context Agent.init
    = (s', Js.Ok response)
    /\ cart_from None (default [] (Agent.toolCalls response)) (Agent.cartId response).
Proof.
  destruct (Agent.processMessage one_round_world demo_messages demo_context Agent.init)
    as [s' [response|e]] eqn:Hrun; [|vm_compute in Hrun; discriminate Hrun].
  exists s', response. split; [reflexivity|].
  exact (proj1 (answer_comes_from_tools one_round_world demo_messages demo_context
                  Agent.init s' response Hrun)).
Defined.

(** ** Request limits of the chat routes *)

